(** * Option Chain Hub: normalisation pipeline and freshness cache

    A shallow embedding of the data-normalisation and caching core of
    [app.py] (derived change fields, strike filter and sorter, ATM window,
    pagination, sentinel date decoding, TTL cache), together with the
    Python builtins that this code relies on ([float], [round], [sorted],
    [min], slicing, [str.strip]).

    Python floats are IEEE 754 binary64 numbers; they are modelled by the
    [spec_float] specification of the standard library instantiated at
    precision 53 and maximal exponent 1024, so that every arithmetic step
    of the source is performed with the rounding the interpreter performs.
    Python exceptions are modelled by an explicit error monad. *)

From Stdlib Require Import ZArith Lia Bool Ascii String.
From Stdlib Require Import Floats.SpecFloat.
From stdpp Require Import gmap strings list sorting.

Set Warnings "-register-all".
Local Open Scope Z_scope.

(** ** Exceptions *)

Inductive exn :=
  | TypeError
  | ValueError
  | OverflowError
  | ZeroDivisionError
  | AttributeError
  | OutOfRange          (* a timestamp that [datetime] cannot represent:
                           [ValueError], [OverflowError] or [OSError],
                           depending on its magnitude *)
  | RequestException    (* [requests]: connection failure or timeout *)
  | HTTPError (status : Z)       (* [requests]: [raise_for_status] *)
  | HTTPException (status : Z).  (* [fastapi] *)

Inductive result (A : Type) :=
  | Ok (a : A)
  | Raise (e : exn).
Arguments Ok {A} a.
Arguments Raise {A} e.

Definition bind {A B} (r : result A) (k : A -> result B) : result B :=
  match r with
  | Ok a => k a
  | Raise e => Raise e
  end.

Notation "'let!' x ':=' r 'in' k" := (bind r (fun x => k))
  (at level 10, x name, r at level 100, k at level 200).

Definition is_ok {A} (r : result A) : bool :=
  match r with Ok _ => true | Raise _ => false end.

(** ** Binary64 floating point *)

Module F.

Abbreviation float := spec_float.

Definition prec : Z := 53.
Definition emax : Z := 1024.

Definition zero : float := S754_zero false.
Definition inf : float := S754_infinity false.
Definition nan : float := S754_nan.

Definition add : float -> float -> float := SFadd prec emax.
Definition sub : float -> float -> float := SFsub prec emax.
Definition mul : float -> float -> float := SFmul prec emax.
Definition div : float -> float -> float := SFdiv prec emax.
Definition abs : float -> float := SFabs.
Definition ltb : float -> float -> bool := SFltb.
Definition leb : float -> float -> bool := SFleb.
Definition eqb : float -> float -> bool := SFeqb.

Definition is_nan (x : float) : bool :=
  match x with S754_nan => true | _ => false end.

Definition is_finite (x : float) : bool :=
  match x with S754_zero _ | S754_finite _ _ _ => true | _ => false end.

(** The nearest binary64 number to an integer, ties to even; an
    infinity when the integer is beyond the largest finite number. *)
Definition of_Z (z : Z) : float := binary_normalize prec emax z 0 false.

(** The nearest binary64 number to [(-1)^s * n / d] for [d > 0]. *)
Definition of_ratio (s : bool) (n : Z) (d : positive) : float :=
  match n with
  | Zpos p => div (S754_finite s p 0) (S754_finite false d 0)
  | _ => S754_zero s
  end.

(** Round half to even of the rational [n / d], for [0 <= n], [0 < d]. *)
Definition rhe (n d : Z) : Z :=
  let q := n / d in
  let r := n mod d in
  match 2 * r ?= d with
  | Lt => q
  | Gt => q + 1
  | Eq => if Z.even q then q else q + 1
  end.

(** Round half to even of [m * 2^e * 10^k], for [m] positive. *)
Definition scaled_rhe (m : positive) (e k : Z) : Z :=
  let num := Zpos m * (if 0 <=? e then 2 ^ e else 1)
                    * (if 0 <=? k then 10 ^ k else 1) in
  let den := (if 0 <=? e then 1 else 2 ^ (- e))
             * (if 0 <=? k then 1 else 10 ^ (- k)) in
  rhe num den.

End F.

Abbreviation float := spec_float.

(** ** Python values

    The values that a decoded JSON document can hold.  Dictionaries are
    finite maps with string keys. *)

Inductive value :=
  | VNone
  | VBool (b : bool)
  | VInt (z : Z)
  | VFloat (f : float)
  | VStr (s : string)
  | VList (l : list value)
  | VDict (d : gmap string value).

Abbreviation row := (gmap string value).

(** [isinstance(v, dict)] *)
Definition as_dict (v : value) : option row :=
  match v with VDict d => Some d | _ => None end.

(** [d.get(key)]: the stored value, [None] when the key is missing. *)
Definition dict_get (d : row) (key : string) : value :=
  default VNone (d !! key).

(** ** Python builtins used by the source *)

Module Py.

Local Open Scope string_scope.
Local Open Scope Z_scope.

(** *** Numbers *)

(** [float(n)] for an [int]: correctly rounded, [OverflowError] beyond
    the float range. *)
Definition float_of_int (z : Z) : result float :=
  let r := F.of_Z z in
  if F.is_finite r then Ok r else Raise OverflowError.

(** [round(x)] for a float: the nearest integer, ties to even. *)
Definition round_int (x : float) : result Z :=
  match x with
  | S754_nan => Raise ValueError
  | S754_infinity _ => Raise OverflowError
  | S754_zero _ => Ok 0
  | S754_finite s m e => Ok (cond_Zopp s (F.scaled_rhe m e 0))
  end.

(** [round(x, ndigits)] for a float: the float nearest to the decimal
    rounding (ties to even) of the exact value of [x].  Infinities and
    NaN are returned as they are. *)
Definition round (x : float) (ndigits : Z) : result float :=
  match x with
  | S754_finite s m e =>
      let n := F.scaled_rhe m e ndigits in
      if 0 <=? ndigits then Ok (F.of_ratio s n (Z.to_pos (10 ^ ndigits)))
      else
        let r := binary_normalize F.prec F.emax
                   (cond_Zopp s (n * 10 ^ (- ndigits))) 0 s in
        if F.is_finite r then Ok r else Raise OverflowError
  | _ => Ok x
  end.

(** [a / b] on floats. *)
Definition truediv (a b : float) : result float :=
  if F.eqb b F.zero then Raise ZeroDivisionError else Ok (F.div a b).

(** *** Strings (code points below 256) *)

Definition code (c : ascii) : Z := Z.of_N (N_of_ascii c).

(** [str.isspace] on one character. *)
Definition is_space (c : ascii) : bool :=
  let n := code c in
  ((9 <=? n) && (n <=? 13)) || ((28 <=? n) && (n <=? 32))
  || (n =? 133) || (n =? 160).

Fixpoint lstrip (s : string) : string :=
  match s with
  | String c r => if is_space c then lstrip r else s
  | EmptyString => s
  end.

Definition rev_string (s : string) : string :=
  string_of_list_ascii (rev (list_ascii_of_string s)).

(** [s.strip()] *)
Definition strip (s : string) : string :=
  rev_string (lstrip (rev_string (lstrip s))).

(** [s.replace(c, "")] for a one-character [c]. *)
Fixpoint remove_char (c : ascii) (s : string) : string :=
  match s with
  | String d r =>
      if Ascii.eqb c d then remove_char c r else String d (remove_char c r)
  | EmptyString => EmptyString
  end.

(** *** [float(s)] for a string *)

(** The white space that [float] drops around its argument. *)
Definition is_float_space (c : ascii) : bool :=
  let n := code c in
  ((9 <=? n) && (n <=? 13)) || (n =? 32) || (n =? 133) || (n =? 160).

Fixpoint float_lstrip (s : string) : string :=
  match s with
  | String c r => if is_float_space c then float_lstrip r else s
  | EmptyString => s
  end.

Definition float_strip (s : string) : string :=
  rev_string (float_lstrip (rev_string (float_lstrip s))).

Definition digit_val (c : ascii) : option Z :=
  let n := code c in
  if (48 <=? n) && (n <=? 57) then Some (n - 48) else None.

Definition is_digit (c : ascii) : bool := bool_decide (is_Some (digit_val c)).

(** Underscores are accepted between two digits only, and dropped. *)
Fixpoint drop_underscores (prev : option ascii) (s : string) : option string :=
  match s with
  | EmptyString =>
      if bool_decide (prev = Some "_"%char) then None else Some EmptyString
  | String c r =>
      if Ascii.eqb c "_" then
        if from_option is_digit false prev
        then drop_underscores (Some c) r else None
      else if bool_decide (prev = Some "_"%char) && negb (is_digit c) then None
      else String c <$> drop_underscores (Some c) r
  end.

(** Reads a maximal run of decimal digits: value, digit count, rest. *)
Fixpoint read_digits (s : string) (acc cnt : Z) : Z * Z * string :=
  match s with
  | String c r =>
      match digit_val c with
      | Some d => read_digits r (10 * acc + d) (cnt + 1)
      | None => (acc, cnt, s)
      end
  | EmptyString => (acc, cnt, s)
  end.

(** [sys.int_info.default_max_str_digits]: [int] of a decimal text with
    more digits than this raises [ValueError]; the sign is not counted,
    leading zeros are. *)
Definition int_max_str_digits : Z := 4300.

(** [int(text)] for a text of [cnt] decimal digits, with or without a
    sign, that reads as [n]. *)
Definition int_of_digits (n cnt : Z) : result Z :=
  if int_max_str_digits <? cnt then Raise ValueError else Ok n.

Definition read_sign (s : string) : bool * string :=
  match s with
  | String "-" r => (true, r)
  | String "+" r => (false, r)
  | _ => (false, s)
  end.

Definition lower (c : ascii) : ascii :=
  let n := code c in
  if (65 <=? n) && (n <=? 90) then ascii_of_N (Z.to_N (n + 32)) else c.

Fixpoint lower_string (s : string) : string :=
  match s with
  | String c r => String (lower c) (lower_string r)
  | EmptyString => EmptyString
  end.

(** A decimal literal [digits [. digits] [e [sign] digits]] with at least
    one mantissa digit: the integer mantissa and the power of ten. *)
Definition read_decimal (s : string) : option (Z * Z) :=
  let '(ip, ni, r1) := read_digits s 0 0 in
  let '(m, nf, r2) :=
    match r1 with
    | String "." r => read_digits r ip 0
    | _ => (ip, 0, r1)
    end in
  if ni + nf =? 0 then None
  else
    match r2 with
    | EmptyString => Some (m, - nf)
    | String c r3 =>
        if Ascii.eqb (lower c) "e" then
          let '(es, r4) := read_sign r3 in
          let '(ex, ne, r5) := read_digits r4 0 0 in
          if ne =? 0 then None
          else
            match r5 with
            | EmptyString => Some (m, cond_Zopp es ex - nf)
            | _ => None
            end
        else None
    end.

(** The float nearest to [(-1)^s * m * 10^e]. *)
Definition float_of_decimal (s : bool) (m e : Z) : float :=
  if 0 <=? e then binary_normalize F.prec F.emax (cond_Zopp s (m * 10 ^ e)) 0 s
  else F.of_ratio s m (Z.to_pos (10 ^ (- e))).

(** [float(s)]: [None] stands for [ValueError]. *)
Definition float_of_string (s : string) : option float :=
  match drop_underscores None (float_strip s) with
  | None => None
  | Some t =>
      let '(sg, u) := read_sign t in
      let l := lower_string u in
      if String.eqb l "inf" || String.eqb l "infinity"
      then Some (S754_infinity sg)
      else if String.eqb l "nan" then Some S754_nan
      else
        match read_decimal u with
        | Some (m, e) => Some (float_of_decimal sg m e)
        | None => None
        end
  end.

(** *** Slices [l[start:stop]] with integer bounds *)

Definition adjust_index (len i : Z) : Z :=
  if i <? 0 then Z.max 0 (i + len) else Z.min i len.

Definition slice {A} (l : list A) (start stop : option Z) : list A :=
  let len := Z.of_nat (length l) in
  let i := from_option (adjust_index len) 0 start in
  let j := from_option (adjust_index len) len stop in
  take (Z.to_nat j - Z.to_nat i) (drop (Z.to_nat i) l).

(** *** [sorted(l, key=...)] and [min(range(n), key=...)]

    [sorted] computes the key of every element first, in order, and
    then sorts stably, comparing keys with [<] only.  The sort is
    modelled by a stable insertion sort; every stable sort that
    compares with [<] returns the same list whenever [<] is a strict
    weak order on the keys that occur. *)

Fixpoint mapM {A B} (f : A -> result B) (l : list A) : result (list B) :=
  match l with
  | [] => Ok []
  | x :: r =>
      let! y := f x in
      let! ys := mapM f r in
      Ok (y :: ys)
  end.

Fixpoint insert {A} (x : float * A) (l : list (float * A)) : list (float * A) :=
  match l with
  | [] => [x]
  | y :: r => if F.ltb y.1 x.1 then y :: insert x r else x :: l
  end.

Fixpoint isort {A} (l : list (float * A)) : list (float * A) :=
  match l with
  | [] => []
  | x :: r => insert x (isort r)
  end.

Definition sorted {A} (key : A -> result float) (l : list A) : result (list A) :=
  let! ks := mapM key l in
  Ok (isort (zip ks l)).*2.

(** The index of the first least element: the running least element is
    replaced only by a strictly smaller one. *)
Fixpoint min_from (best_i : Z) (best : float) (i : Z) (l : list float) : Z :=
  match l with
  | [] => best_i
  | x :: r =>
      if F.ltb x best then min_from i x (i + 1) r
      else min_from best_i best (i + 1) r
  end.

Definition min_index (l : list float) : result Z :=
  match l with
  | [] => Raise ValueError
  | x :: r => Ok (min_from 0 x 1 r)
  end.

(** [x < n] for a float and an [int]: the comparison is exact. *)
Definition float_lt_int (x : float) (n : Z) : bool :=
  match x with
  | S754_nan => false
  | S754_infinity s => s
  | S754_zero _ => 0 <? n
  | S754_finite s m e =>
      let v := cond_Zopp s (Zpos m) in
      if 0 <=? e then v * 2 ^ e <? n else v <? n * 2 ^ (- e)
  end.

(** *** [float(v)] for any value *)

Definition float (v : value) : result float :=
  match v with
  | VNone => Raise TypeError
  | VBool b => Ok (F.of_Z (if b then 1 else 0))
  | VInt z => float_of_int z
  | VFloat f => Ok f
  | VStr s =>
      match float_of_string s with
      | Some f => Ok f
      | None => Raise ValueError
      end
  | VList _ | VDict _ => Raise TypeError
  end.

End Py.

(** ** Dates: the parts of [datetime] and [re] used by [parse_dotnet_date] *)

Module Date.

Local Open Scope string_scope.
Local Open Scope Z_scope.

(** An aware [datetime], truncated to the second: the seconds shown by
    the local clock, counted from 1970-01-01 00:00:00 on that clock, and
    the offset of the zone from UTC in minutes. *)
Record datetime := { local_seconds : Z; utcoffset : Z }.

(** 0001-01-01 00:00:00 and 9999-12-31 23:59:59. *)
Definition min_seconds : Z := -62135596800.
Definition max_seconds : Z := 253402300799.

Definition in_range (secs : Z) : bool :=
  (min_seconds <=? secs) && (secs <=? max_seconds).

(** The integer part of a finite float, rounded towards zero. *)
Definition trunc (x : float) : Z :=
  match x with
  | S754_finite s m e =>
      cond_Zopp s (if 0 <=? e then Zpos m * 2 ^ e else Zpos m / 2 ^ (- e))
  | _ => 0
  end.

Definition lit_1e6 : float := Eval vm_compute in F.of_Z 1000000.

(** [datetime.fromtimestamp(t, tz=timezone.utc)]: the fraction is
    scaled to microseconds in floating point and rounded half to even,
    with a carry into the seconds. *)
Definition fromtimestamp_utc (t : float) : result datetime :=
  if negb (F.is_finite t) then Raise OutOfRange
  else
    let intpart := trunc t in
    let frac := F.sub t (F.of_Z intpart) in
    let! us := Py.round_int (F.mul frac lit_1e6) in
    let secs :=
      if 1000000 <=? us then intpart + 1
      else if us <? 0 then intpart - 1
      else intpart in
    if in_range secs then Ok {| local_seconds := secs; utcoffset := 0 |}
    else Raise OutOfRange.

(** [timezone(timedelta(minutes=m))] *)
Definition timezone (minutes : Z) : result Z :=
  if (-1440 <? minutes) && (minutes <? 1440) then Ok minutes
  else Raise ValueError.

(** [dt.astimezone(tz)] *)
Definition astimezone (dt : datetime) (tz : Z) : result datetime :=
  let secs := local_seconds dt - 60 * utcoffset dt + 60 * tz in
  if in_range secs then Ok {| local_seconds := secs; utcoffset := tz |}
  else Raise OverflowError.

(** The proleptic Gregorian date of a day number counted from
    1970-01-01. *)
Definition civil_from_days (days : Z) : Z * Z * Z :=
  let z := days + 719468 in
  let era := z / 146097 in
  let doe := z - era * 146097 in
  let yoe := (doe - doe / 1460 + doe / 36524 - doe / 146096) / 365 in
  let doy := doe - (365 * yoe + yoe / 4 - yoe / 100) in
  let mp := (5 * doy + 2) / 153 in
  let d := doy - (153 * mp + 2) / 5 + 1 in
  let m := if mp <? 10 then mp + 3 else mp - 9 in
  let y := yoe + era * 400 + (if m <=? 2 then 1 else 0) in
  (y, m, d).

Definition digit_char (d : Z) : ascii := ascii_of_N (Z.to_N (48 + d mod 10)).

Definition pad2 (n : Z) (rest : string) : string :=
  String (digit_char (n / 10)) (String (digit_char n) rest).

Definition pad4 (n : Z) (rest : string) : string :=
  String (digit_char (n / 1000)) (String (digit_char (n / 100)) (pad2 n rest)).

(** [dt.isoformat(sep=" ", timespec="seconds")] for an aware datetime:
    the UTC offset follows the time. *)
Definition isoformat (dt : datetime) : string :=
  let secs := local_seconds dt in
  let '(y, m, d) := civil_from_days (secs / 86400) in
  let sod := secs mod 86400 in
  let off := Z.abs (utcoffset dt) in
  pad4 y (String "-" (pad2 m (String "-" (pad2 d (String " "
    (pad2 (sod / 3600) (String ":" (pad2 (sod / 60 mod 60) (String ":"
      (pad2 (sod mod 60)
        (String (if utcoffset dt <? 0 then "-" else "+")
          (pad2 (off / 60) (String ":" (pad2 (off mod 60) "")))))))))))))).

(** *** The pattern [^/Date\(([-+]?\d+)([+-]\d{4})?\)/$]

    [re.match] result: the two groups.  The digits of group 1 are taken
    greedily; giving one back would leave a digit where the pattern asks
    for a sign or a bracket, so no other split can match.  [$] also
    matches before one final newline. *)

Fixpoint strip_prefix (p s : string) : option string :=
  match p, s with
  | EmptyString, _ => Some s
  | String a p', String b s' => if Ascii.eqb a b then strip_prefix p' s' else None
  | _, _ => None
  end.

Definition is_sign (c : ascii) : bool := Ascii.eqb c "+" || Ascii.eqb c "-".

(** [\d{4}]: four digits, as hours and minutes. *)
Definition read_hhmm (s : string) : option (Z * Z * string) :=
  match s with
  | String a (String b (String c (String d r))) =>
      match Py.digit_val a, Py.digit_val b, Py.digit_val c, Py.digit_val d with
      | Some a, Some b, Some c, Some d => Some (10 * a + b, 10 * c + d, r)
      | _, _, _, _ => None
      end
  | _ => None
  end.

Definition at_end (s : string) : bool :=
  String.eqb s ")/" || String.eqb s (String ")" (String "/" (String "010" ""))).

(** Group 1 as the number that its digits and sign write, with the count
    of its digits, and, when group 2 took part, its sign (true for [-]),
    hours and minutes. *)
Definition match_date (s : string) : option (Z * Z * option (bool * Z * Z)) :=
  match strip_prefix "/Date(" s with
  | None => None
  | Some s1 =>
      let '(neg, s2) :=
        match s1 with
        | String c r => if is_sign c then (Ascii.eqb c "-", r) else (false, s1)
        | EmptyString => (false, s1)
        end in
      let '(n, cnt, s3) := Py.read_digits s2 0 0 in
      if cnt =? 0 then None
      else
        let ms := cond_Zopp neg n in
        match s3 with
        | String c r =>
            if is_sign c then
              match read_hhmm r with
              | Some (hh, mm, s4) =>
                  if at_end s4 then Some (ms, cnt, Some (Ascii.eqb c "-", hh, mm))
                  else None
              | None => None
              end
            else if at_end s3 then Some (ms, cnt, None)
            else None
        | EmptyString => None
        end
  end.

End Date.

(** [IST = timezone(timedelta(hours=5, minutes=30))] *)
Definition IST : Z := 330.

(** ** Row normaliser *)

Definition parse_dotnet_date (value : string) : result string :=
  match Date.match_date value with
  | None => Ok value
  | Some (n, cnt, offset_str) =>
      let! ms := Py.int_of_digits n cnt in
      if ms <=? 0 then Ok EmptyString
      else
        let t := F.of_ratio false ms 1000 in
        let! _ := if F.is_finite t then Ok tt else Raise OverflowError in
        let! dt_utc := Date.fromtimestamp_utc t in
        let! dt_local :=
          match offset_str with
          | Some (neg, hours, minutes) =>
              let sign := if neg then -1 else 1 in
              let! tz := Date.timezone (sign * (hours * 60 + minutes)) in
              Date.astimezone dt_utc tz
          | None => Date.astimezone dt_utc IST
          end in
        Ok (Date.isoformat dt_local)
  end.

Definition normalize_value (val : value) : result value :=
  match val with
  | VNone => Ok (VStr EmptyString)
  | VStr s => let! s' := parse_dotnet_date (Py.strip s) in Ok (VStr s')
  | _ => Ok val
  end.

(** One row of [normalize_rows].  When several values of a row cannot be
    converted, Python raises for the first of them in the insertion order
    of the dictionary, which a finite map does not record: the model
    raises for one of them. *)
Definition normalize_row (d : row) : result row :=
  let! kvs :=
    Py.mapM (fun kv : string * value =>
               let! v := normalize_value kv.2 in Ok (kv.1, v))
            (map_to_list d) in
  Ok (list_to_map kvs).

Fixpoint normalize_rows (rows : list value) : result (list value) :=
  match rows with
  | [] => Ok []
  | VDict d :: rest =>
      let! d' := normalize_row d in
      let! rest' := normalize_rows rest in
      Ok (VDict d' :: rest')
  | _ :: rest => normalize_rows rest
  end.

(** ** Numeric coercion and the derived-field engine *)

Local Open Scope string_scope.
Local Open Scope Z_scope.

(** The literal [1e-6]. *)
Definition lit_1e_6 : float := Eval vm_compute in Py.float_of_decimal false 1 (-6).

(** The integer literal [100] as the float operand it is converted to. *)
Definition lit_100 : float := Eval vm_compute in F.of_Z 100.

Definition to_float (v : value) : result (option float) :=
  match v with
  | VNone => Ok None
  | VBool _ | VInt _ | VFloat _ =>
      let! f := Py.float v in Ok (Some f)
  | VStr s =>
      let cleaned := Py.strip s in
      if String.eqb cleaned "" then Ok None
      else
        let cleaned := Py.remove_char "," cleaned in
        match Py.float (VStr cleaned) with
        | Ok f => Ok (Some f)
        | Raise ValueError => Ok None
        | Raise e => Raise e
        end
  | VList _ | VDict _ => Ok None
  end.

Definition format_number (v : option float) (decimals : Z) : result value :=
  match v with
  | None => Ok (VStr "")
  | Some x => let! r := Py.round x decimals in Ok (VFloat r)
  end.

(** The four keys that [get_prev_close_value] tries, in order. *)
Definition prev_close_keys (prefix : string) : list string :=
  [ prefix ++ "_PrevClose"; prefix ++ "_PreviousClose";
    prefix ++ "_PrevClosePrice"; prefix ++ "_PreviousClosePrice" ].

Fixpoint first_parsed (r : row) (keys : list string) : result (option float) :=
  match keys with
  | [] => Ok None
  | key :: rest =>
      let! parsed := to_float (dict_get r key) in
      match parsed with
      | Some f => Ok (Some f)
      | None => first_parsed r rest
      end
  end.

Definition get_prev_close_value (r : row) (prefix : string) : result (option float) :=
  first_parsed r (prev_close_keys prefix).

(** [prev_close not in (None, 0)] *)
Definition not_none_or_zero (p : option float) : bool :=
  match p with
  | None => false
  | Some x => negb (F.eqb x F.zero)
  end.

Definition add_change_fields (r : row) (prefix : string) : result row :=
  let! ltp := to_float (dict_get r (prefix ++ "_LTP")) in
  let! abs_chg := to_float (dict_get r (prefix ++ "_AbsoluteChange")) in
  let! prev_close := get_prev_close_value r prefix in
  let prev_close :=
    match prev_close, ltp, abs_chg with
    | None, Some l, Some a => Some (F.sub l a)
    | _, _, _ => prev_close
    end in
  let! pct_change :=
    match prev_close with
    | Some p =>
        if not_none_or_zero prev_close then
          match abs_chg, ltp with
          | Some a, _ =>
              let! q := Py.truediv a p in Ok (Some (F.mul q lit_100))
          | None, Some l =>
              let! q := Py.truediv (F.sub l p) p in Ok (Some (F.mul q lit_100))
          | None, None => Ok None
          end
        else Ok None
    | None => Ok None
    end in
  let! pc := format_number prev_close 2 in
  let! pp := format_number pct_change 2 in
  Ok (<[prefix ++ "_PctChange" := pp]> (<[prefix ++ "_PrevClose" := pc]> r)).

Fixpoint add_derived_fields (rows : list value) : result (list value) :=
  match rows with
  | [] => Ok []
  | v :: rest =>
      let! v' :=
        match v with
        | VDict d =>
            let! d1 := add_change_fields d "CE" in
            let! d2 := add_change_fields d1 "PE" in
            Ok (VDict d2)
        | _ => Ok v
        end in
      let! rest' := add_derived_fields rest in
      Ok (v' :: rest')
  end.

(** ** Strike filter *)

Definition is_round_strike (v : value) (step : float) : result bool :=
  match Py.float v with
  | Raise TypeError | Raise ValueError => Ok false
  | Raise e => Raise e
  | Ok strike =>
      if F.leb step F.zero then Ok true
      else
        let! quotient := Py.truediv strike step in
        let! n := Py.round_int quotient in
        let! nf := Py.float_of_int n in
        Ok (F.ltb (F.abs (F.sub quotient nf)) lit_1e_6)
  end.

(** ** Underlying price, sorter, ATM window, pagination *)

Definition underlying_keys : list string :=
  [ "UnderlyingValue"; "UnderlineValue"; "underlyingValue"; "UnderlineValue" ].

(** [val in ("", None)] *)
Definition empty_or_none (v : value) : bool :=
  match v with
  | VNone => true
  | VStr s => String.eqb s ""
  | _ => false
  end.

Fixpoint scan_keys (d : row) (keys : list string) : result (option float) :=
  match keys with
  | [] => Ok None
  | key :: rest =>
      let val := dict_get d key in
      if empty_or_none val then scan_keys d rest
      else
        match Py.float val with
        | Ok f => Ok (Some f)
        | Raise TypeError | Raise ValueError => scan_keys d rest
        | Raise e => Raise e
        end
  end.

Fixpoint get_underlying_value (rows : list value) : result (option float) :=
  match rows with
  | [] => Ok None
  | VDict d :: rest =>
      let! found := scan_keys d underlying_keys in
      match found with
      | Some f => Ok (Some f)
      | None => get_underlying_value rest
      end
  | _ :: rest => get_underlying_value rest
  end.

(** The strike of a row as a number, [inf] when it does not coerce.  The
    loop body of [filter_atm_window] repeats the steps of [strike_key]. *)
Definition strike_key (item : value) : result float :=
  let val :=
    match item with
    | VDict d => dict_get d "CE_StrikePrice"
    | _ => VNone
    end in
  match Py.float val with
  | Ok f => Ok f
  | Raise TypeError | Raise ValueError => Ok F.inf
  | Raise e => Raise e
  end.

Definition sort_rows_by_strike (rows : list value) : result (list value) :=
  Py.sorted strike_key rows.

Definition filter_atm_window (rows : list value) (underlying : option float)
    (window : Z) : result (list value) :=
  match underlying, rows with
  | None, _ | _, [] => Ok rows
  | Some u, _ =>
      let! strikes := Py.mapM strike_key rows in
      match strikes with
      | [] => Ok rows
      | _ =>
          let! closest_idx :=
            Py.min_index (map (fun s => F.abs (F.sub s u)) strikes) in
          let start := Z.max 0 (closest_idx - window) in
          let stop := Z.min (Z.of_nat (length rows)) (closest_idx + window + 1) in
          Ok (Py.slice rows (Some start) (Some stop))
      end
  end.

Definition apply_offset_limit (rows : list value) (offset limit : option Z)
    : list value :=
  let start := match offset with Some o => o | None => 0 end in
  let start := if start <? 0 then 0 else start in
  match limit with
  | None => Py.slice rows (Some start) None
  | Some n => Py.slice rows (Some start) (Some (start + n))
  end.

(** The row selection of [option_chain]: sort, optional ATM window,
    pagination (the statements between the cache read and the output
    projection). *)
Definition option_chain_rows (rows : list value) (mode : option string)
    (window offset limit : option Z) : result (list value) :=
  let! underlying := get_underlying_value rows in
  let! rows := sort_rows_by_strike rows in
  let mode :=
    match mode, window with
    | None, Some _ => Some "atm_window"
    | _, _ => mode
    end in
  let! rows :=
    if bool_decide (mode = Some "atm_window")
    then filter_atm_window rows underlying (default 0 window)
    else Ok rows in
  Ok (apply_offset_limit rows offset limit).

(** ** Freshness cache *)

Record entry := { rows : list value; fetched_at : float }.

(** [[row for row in rows if is_round_strike(row.get("CE_StrikePrice"), step)]] *)
Fixpoint round_strike_rows (rs : list value) (step : float) : result (list value) :=
  match rs with
  | [] => Ok []
  | v :: rest =>
      match v with
      | VDict d =>
          let! keep := is_round_strike (dict_get d "CE_StrikePrice") step in
          let! rest' := round_strike_rows rest step in
          Ok (if keep then v :: rest' else rest')
      | _ => Raise AttributeError
      end
  end.

Section FreshnessCache.

(** What lies outside [CACHE]: the upstream services and the caches of
    the other families ([NSE_CACHE], [MARKETWATCH_CACHE]). *)
Variable world : Type.

(** The two requests of [fetch_mcx_option_chain]: the visit of the
    option-chain page and the POST of the query. *)
Variable response : Type.
Variable status_code : response -> Z.
Variable session_get : world -> result unit * world.
Variable session_post : string -> option string -> world -> result response * world.

(** [resp.json()], the unwrapping of the payload and [extract_rows]. *)
Variable response_rows : response -> result (list value).

Variable fetch_mcx_option_chain_from_marketwatch :
  string -> option string -> world -> result (list value) * world.
Variable fetch_nse_option_chain :
  string -> option string -> bool -> world -> result (list value) * world.

(** [str(x)] for a float, as an f-string interpolates it. *)
Variable float_str : float -> string.

Variable CACHE_TTL_SECONDS : Z.

Definition fetch_mcx_option_chain (symbol : string) (expiry : option string)
    (w : world) : result (list value) * world :=
  match session_get w with
  | (Raise e, w) => (Raise e, w)
  | (Ok _, w) =>
      match session_post symbol expiry w with
      | (Raise e, w) => (Raise e, w)
      | (Ok resp, w) =>
          let status := status_code resp in
          if (400 <=? status) && (status <? 600) then
            if (status =? 401) || (status =? 403) then
              match fetch_mcx_option_chain_from_marketwatch symbol expiry w with
              | (Raise e, w) => (Raise e, w)
              | (Ok [], w) => (Raise (HTTPException 502), w)
              | (Ok fallback_rows, w) => (Ok fallback_rows, w)
              end
            else (Raise (HTTPError status), w)
          else (response_rows resp, w)
      end
  end.

(** One invocation of a fetcher, as recorded in the trace. *)
Record fetch_call := { call_source : string; call_symbol : string;
                       call_expiry : option string }.

(** The process state: the cache, the outside world, and the trace of
    the fetcher invocations made so far (the trace is not in the source;
    it is there to count them). *)
Record state := { CACHE : gmap string entry; upstream : world;
                  fetches : list fetch_call }.

Definition cache_key (source symbol : string) (expiry : option string)
    (strike_step : float) (all_strikes : bool) : string :=
  source ++ ":" ++ symbol ++ ":" ++ default "" expiry ++ ":"
    ++ float_str strike_step ++ ":" ++ (if all_strikes then "True" else "False").

(** [entry and now - entry["fetched_at"] < CACHE_TTL_SECONDS] *)
Definition live (now : float) (e : entry) : bool :=
  Py.float_lt_int (F.sub now (fetched_at e)) CACHE_TTL_SECONDS.

(** The branches on [source]: the fetch, with [normalize_rows] for "mcx". *)
Definition fetch_source (source symbol : string) (expiry : option string)
    (force : bool) (st : state) : result (list value) * state :=
  let call := {| call_source := source; call_symbol := symbol;
                 call_expiry := expiry |} in
  if String.eqb source "mcx" then
    let '(r, w) := fetch_mcx_option_chain symbol expiry (upstream st) in
    (let! rs := r in normalize_rows rs,
     {| CACHE := CACHE st; upstream := w; fetches := fetches st ++ [call] |})
  else if String.eqb source "nse" then
    let '(r, w) := fetch_nse_option_chain symbol expiry force (upstream st) in
    (r, {| CACHE := CACHE st; upstream := w; fetches := fetches st ++ [call] |})
  else (Ok [], st).

(** [now] is the reading of [time.time()] at the start of the call. *)
Definition get_cached_rows (source symbol : string) (expiry : option string)
    (strike_step : float) (all_strikes force : bool) (now : float)
    (st : state) : result (list value * float) * state :=
  let key := cache_key source symbol expiry strike_step all_strikes in
  let hit :=
    if force then None
    else
      match CACHE st !! key with
      | Some e => if live now e then Some e else None
      | None => None
      end in
  match hit with
  | Some e => (Ok (rows e, fetched_at e), st)
  | None =>
      let '(fetched, st) := fetch_source source symbol expiry force st in
      let processed :=
        let! rs := fetched in
        let! rs := add_derived_fields rs in
        if all_strikes then Ok rs else round_strike_rows rs strike_step in
      match processed with
      | Ok rs =>
          (Ok (rs, now),
           {| CACHE := <[key := {| rows := rs; fetched_at := now |}]> (CACHE st);
              upstream := upstream st; fetches := fetches st |})
      | Raise e => (Raise e, st)
      end
  end.

End FreshnessCache.

(** * Properties *)

(** ** The error monad *)

Lemma bind_ok {A B} (r : result A) (k : A -> result B) (b : B) :
  bind r k = Ok b -> exists a, r = Ok a /\ k a = Ok b.
Proof. destruct r as [a|e]; simpl; [eauto | discriminate]. Qed.

Lemma bind_raise {A B} (r : result A) (k : A -> result B) (e : exn) :
  r = Raise e -> bind r k = Raise e.
Proof. now intros ->. Qed.

(** Splits a successful sequence into its steps. *)
Ltac inv_ok :=
  repeat match goal with
  | H : bind _ _ = Ok _ |- _ =>
      let a := fresh "a" in
      let Ha := fresh "Ha" in
      apply bind_ok in H; destruct H as (a & Ha & H)
  | H : Ok _ = Ok _ |- _ => injection H as H; try subst
  | H : Raise _ = Ok _ |- _ => discriminate H
  end.

(** ** Derived fields *)

(** [round(x, 2)] never raises. *)
Definition round2 (x : float) : float :=
  match Py.round x 2 with Ok r => r | Raise _ => x end.

Lemma round_2_ok (x : float) : Py.round x 2 = Ok (round2 x).
Proof. unfold round2. destruct x; reflexivity. Qed.

Lemma format_number_2 (v : option float) :
  format_number v 2 =
  Ok (match v with Some x => VFloat (round2 x) | None => VStr "" end).
Proof. destruct v; simpl; [now rewrite round_2_ok | reflexivity]. Qed.

Lemma truediv_nonzero (a b : float) :
  F.eqb b F.zero = false -> Py.truediv a b = Ok (F.div a b).
Proof. unfold Py.truediv. now intros ->. Qed.

Lemma prefixed_keys_differ (prefix a b : string) :
  a <> b -> prefix ++ a <> prefix ++ b.
Proof. intros Hab H. apply Hab. now apply (inj (String.app prefix)). Qed.

(** The alias scan yields a number exactly when one alias does: it is
    absent when every alias is. *)
Lemma first_parsed_none (r : row) (keys : list string) :
  first_parsed r keys = Ok None <->
  Forall (fun key => to_float (dict_get r key) = Ok None) keys.
Proof.
  induction keys as [|key keys IH]; simpl.
  - split; [constructor | reflexivity].
  - destruct (to_float (dict_get r key)) as [[f|]|e] eqn:E; simpl.
    + split; [discriminate | intros H; inversion H; congruence].
    + rewrite IH. split; [now constructor | intros H; now inversion H].
    + split; [discriminate | intros H; inversion H; congruence].
Qed.

Lemma first_parsed_some (r : row) (keys : list string) (f : float) :
  first_parsed r keys = Ok (Some f) <->
  exists pre key post, keys = (pre ++ key :: post)%list /\
    Forall (fun k => to_float (dict_get r k) = Ok None) pre /\
    to_float (dict_get r key) = Ok (Some f).
Proof.
  induction keys as [|key keys IH]; simpl.
  - split; [discriminate | intros (pre & k & post & H & _); now destruct pre].
  - destruct (to_float (dict_get r key)) as [[g|]|e] eqn:E; simpl.
    + split.
      * intros [= ->]. exists [], key, keys. repeat split; [constructor | exact E].
      * intros (pre & k & post & H & Hpre & Hk).
        destruct pre as [|k' pre]; simpl in H; injection H as -> ->.
        -- congruence.
        -- inversion Hpre; congruence.
    + rewrite IH. split.
      * intros (pre & k & post & -> & Hpre & Hk).
        exists (key :: pre), k, post. repeat split; [now constructor | exact Hk].
      * intros (pre & k & post & H & Hpre & Hk).
        destruct pre as [|k' pre]; simpl in H; injection H as -> ->.
        -- congruence.
        -- inversion Hpre; subst. now exists pre, k, post.
    + split; [discriminate|].
      intros (pre & k & post & H & Hpre & Hk).
      destruct pre as [|k' pre]; simpl in H; injection H as -> ->.
      * congruence.
      * inversion Hpre; congruence.
Qed.

(** [to_float] raises only on an integer beyond the float range. *)
Lemma to_float_raises (v : value) (e : exn) :
  to_float v = Raise e ->
  e = OverflowError /\ exists z, v = VInt z /\ F.is_finite (F.of_Z z) = false.
Proof.
  destruct v as [|b|z|f|s|l|d]; simpl; try discriminate.
  - unfold Py.float_of_int. destruct (F.is_finite (F.of_Z z)) eqn:E; simpl; [discriminate|].
    intros [= <-]. eauto.
  - destruct (String.eqb (Py.strip s) ""); [discriminate|].
    destruct (Py.float_of_string _); simpl; discriminate.
Qed.

(** What [add_change_fields] stores, given the three numeric reads. *)
Lemma add_change_fields_eq (r : row) (prefix : string) (ltp abs_chg prev : option float) :
  to_float (dict_get r (prefix ++ "_LTP")) = Ok ltp ->
  to_float (dict_get r (prefix ++ "_AbsoluteChange")) = Ok abs_chg ->
  get_prev_close_value r prefix = Ok prev ->
  let prev_close :=
    match prev, ltp, abs_chg with
    | None, Some l, Some a => Some (F.sub l a)
    | _, _, _ => prev
    end in
  let pct_change :=
    match prev_close with
    | Some p =>
        if F.eqb p F.zero then None
        else
          match abs_chg, ltp with
          | Some a, _ => Some (F.mul (F.div a p) lit_100)
          | None, Some l => Some (F.mul (F.div (F.sub l p) p) lit_100)
          | None, None => None
          end
    | None => None
    end in
  let show v := match v with Some x => VFloat (round2 x) | None => VStr "" end in
  add_change_fields r prefix =
  Ok (<[prefix ++ "_PctChange" := show pct_change]>
        (<[prefix ++ "_PrevClose" := show prev_close]> r)).
Proof.
  intros Hl Ha Hp. unfold add_change_fields. rewrite Hl, Ha, Hp. simpl.
  set (pc := match prev, ltp, abs_chg with
             | None, Some l, Some a => Some (F.sub l a)
             | _, _, _ => prev end).
  destruct pc as [p|]; simpl.
  - destruct (F.eqb p F.zero) eqn:Ez; simpl.
    + now rewrite round_2_ok.
    + destruct abs_chg as [a|]; [|destruct ltp as [l|]]; simpl;
        rewrite ?(truediv_nonzero _ _ Ez); simpl; now rewrite !round_2_ok.
  - reflexivity.
Qed.

(** ** The order of floats

    Away from NaN, [<] is a strict weak order: it is the lexicographic
    order of a rank. *)

Module FOrder.

Definition rank (x : float) : Z * Z * Z :=
  match x with
  | S754_nan => (0, 0, 0)
  | S754_zero _ => (0, 0, 0)
  | S754_infinity true => (-2, 0, 0)
  | S754_infinity false => (2, 0, 0)
  | S754_finite false m e => (1, e, Zpos m)
  | S754_finite true m e => (-1, - e, Zneg m)
  end.

Definition lex_lt (a b : Z * Z * Z) : Prop :=
  a.1.1 < b.1.1 \/
  (a.1.1 = b.1.1 /\ (a.1.2 < b.1.2 \/ (a.1.2 = b.1.2 /\ a.2 < b.2))).

Lemma ltb_rank (x y : float) :
  F.is_nan x = false -> F.is_nan y = false ->
  (F.ltb x y = true <-> lex_lt (rank x) (rank y)).
Proof.
  unfold F.ltb, SFltb, lex_lt.
  destruct x as [sx|sx| |sx mx ex], y as [sy|sy| |sy my ey];
    try discriminate; intros _ _; simpl;
    try destruct sx; try destruct sy; simpl;
    try change (Pos.compare_cont Eq mx my) with (Pos.compare mx my);
    try (destruct (Z.compare_spec ex ey); simpl;
         try destruct (Pos.compare_spec mx my); simpl);
    split; intros Hgoal; try discriminate; try reflexivity; try lia.
Qed.

Lemma ltb_nan_l (y : float) : F.ltb F.nan y = false.
Proof. reflexivity. Qed.

Lemma ltb_nan_r (x : float) : F.ltb x F.nan = false.
Proof. now destruct x. Qed.

Lemma ltb_is_nan (x y : float) :
  F.ltb x y = true -> F.is_nan x = false /\ F.is_nan y = false.
Proof. destruct x, y; simpl; try discriminate; auto. Qed.

Lemma ltb_irrefl (x : float) : F.ltb x x = false.
Proof.
  destruct (F.ltb x x) eqn:E; [|reflexivity].
  destruct (ltb_is_nan _ _ E) as [Hx _].
  apply (ltb_rank x x Hx Hx) in E. unfold lex_lt in E. lia.
Qed.

Lemma ltb_trans (x y z : float) :
  F.ltb x y = true -> F.ltb y z = true -> F.ltb x z = true.
Proof.
  intros Hxy Hyz.
  destruct (ltb_is_nan _ _ Hxy) as [Hx Hy], (ltb_is_nan _ _ Hyz) as [_ Hz].
  apply ltb_rank in Hxy, Hyz; try assumption.
  apply ltb_rank; try assumption. unfold lex_lt in *. lia.
Qed.

Lemma ltb_asym (x y : float) : F.ltb x y = true -> F.ltb y x = false.
Proof.
  intros H. destruct (F.ltb y x) eqn:E; [|reflexivity].
  pose proof (ltb_trans _ _ _ H E) as Hxx. now rewrite ltb_irrefl in Hxx.
Qed.

(** [<=] is transitive through a number: the middle one must not be NaN. *)
Lemma not_ltb_trans (x y z : float) :
  F.is_nan y = false ->
  F.ltb y x = false -> F.ltb z y = false -> F.ltb z x = false.
Proof.
  intros Hy Hyx Hzy. destruct (F.ltb z x) eqn:E; [|reflexivity].
  destruct (ltb_is_nan _ _ E) as [Hz Hx].
  apply ltb_rank in E; try assumption.
  assert (~ lex_lt (rank y) (rank x)) as H1
    by (rewrite <- ltb_rank by assumption; congruence).
  assert (~ lex_lt (rank z) (rank y)) as H2
    by (rewrite <- ltb_rank by assumption; congruence).
  unfold lex_lt in *. lia.
Qed.

Lemma ltb_not_ltb_trans (x y z : float) :
  F.is_nan y = false -> F.is_nan z = false ->
  F.ltb x y = true -> F.ltb z y = false -> F.ltb x z = true.
Proof.
  intros Hy Hz Hxy Hzy. destruct (F.ltb x z) eqn:E; [reflexivity|].
  pose proof (not_ltb_trans y z x Hz Hzy E) as H. congruence.
Qed.

Lemma leb_not_ltb (x y : float) :
  F.is_nan x = false -> F.is_nan y = false ->
  F.leb x y = negb (F.ltb y x).
Proof.
  unfold F.leb, F.ltb, SFleb, SFltb.
  destruct x as [sx|sx| |sx mx ex], y as [sy|sy| |sy my ey];
    try discriminate; intros _ _; simpl;
    try destruct sx; try destruct sy; simpl; try reflexivity;
    change (Pos.compare_cont Eq mx my) with (Pos.compare mx my);
    change (Pos.compare_cont Eq my mx) with (Pos.compare my mx);
    rewrite (Z.compare_antisym ex ey), (Pos.compare_antisym mx my);
    destruct (ex ?= ey); simpl; try reflexivity;
    destruct (Pos.compare mx my); reflexivity.
Qed.

Lemma eqb_not_ltb (x y : float) :
  F.is_nan x = false -> F.is_nan y = false ->
  F.eqb x y = negb (F.ltb x y) && negb (F.ltb y x).
Proof.
  unfold F.eqb, F.ltb, SFeqb, SFltb.
  destruct x as [sx|sx| |sx mx ex], y as [sy|sy| |sy my ey];
    try discriminate; intros _ _; simpl;
    try destruct sx; try destruct sy; simpl; try reflexivity;
    change (Pos.compare_cont Eq mx my) with (Pos.compare mx my);
    change (Pos.compare_cont Eq my mx) with (Pos.compare my mx);
    rewrite (Z.compare_antisym ex ey), (Pos.compare_antisym mx my);
    destruct (ex ?= ey); simpl; try reflexivity;
    destruct (Pos.compare mx my); reflexivity.
Qed.

Lemma eqb_is_nan (x y : float) :
  F.eqb x y = true -> F.is_nan x = false /\ F.is_nan y = false.
Proof. destruct x, y; simpl; try discriminate; auto. Qed.

End FOrder.

(** ** The stable sort *)

Local Open Scope list_scope.

Lemma mapM_Forall2 {A B} (f : A -> result B) (l : list A) (ys : list B) :
  Py.mapM f l = Ok ys <-> Forall2 (fun a y => f a = Ok y) l ys.
Proof.
  revert ys. induction l as [|a l IH]; intros ys; simpl.
  - split; [intros [= <-]; constructor | intros H; now inversion H].
  - split.
    + intros H. inv_ok. constructor; [assumption | now apply IH].
    + intros H. inversion H as [|? y ? ys' Hy Hl]; subst.
      rewrite Hy. simpl. apply IH in Hl. now rewrite Hl.
Qed.

Lemma mapM_raise {A B} (f : A -> result B) (l : list A) (a : A) (e : exn) :
  a ∈ l -> f a = Raise e -> exists e', Py.mapM f l = Raise e'.
Proof.
  induction l as [|b l IH]; intros Hin Hf; [now apply elem_of_nil in Hin|].
  apply elem_of_cons in Hin as [->|Hin]; simpl.
  - rewrite Hf. eauto.
  - destruct (f b); simpl; [|eauto].
    destruct (IH Hin Hf) as [e' ->]. eauto.
Qed.

Lemma StronglySorted_fmap_Forall {A B} (f : A -> B) (P : A -> Prop)
    (R1 : relation A) (R2 : relation B) (l : list A) :
  Forall P l ->
  (forall x y, P x -> P y -> R1 x y -> R2 (f x) (f y)) ->
  StronglySorted R1 l -> StronglySorted R2 (f <$> l).
Proof.
  intros HP HR HS. induction HS as [|x l HS IH Hx]; csimpl; [constructor|].
  apply Forall_cons in HP as [Px Pl]. constructor; [now apply IH|].
  rewrite Forall_fmap. rewrite Forall_forall in *. intros y Hy. simpl.
  apply HR; auto.
Qed.

Section Sorting.

Context {A : Type}.
Implicit Types (x y : float * A) (l : list (float * A)).

(** [x] may stand before [y]. *)
Definition key_le x y : Prop := F.ltb y.1 x.1 = false.

(** [x] falls in the class of the key [k]. *)
Definition same_key (k : float) x : bool :=
  negb (F.ltb x.1 k) && negb (F.ltb k x.1).

Lemma insert_perm x l : Py.insert x l ≡ₚ x :: l.
Proof.
  induction l as [|y l IH]; simpl; [reflexivity|].
  destruct (F.ltb y.1 x.1); [|reflexivity].
  rewrite IH. apply Permutation_swap.
Qed.

Lemma isort_perm l : Py.isort l ≡ₚ l.
Proof.
  induction l as [|x l IH]; simpl; [reflexivity|].
  now rewrite insert_perm, IH.
Qed.

Lemma insert_sorted x l :
  Forall (fun y => F.is_nan y.1 = false) l ->
  StronglySorted key_le l -> StronglySorted key_le (Py.insert x l).
Proof.
  intros Hn HS. induction HS as [|y l HS IH Hy]; simpl.
  - repeat constructor.
  - apply Forall_cons in Hn as [Hny Hnl].
    destruct (F.ltb y.1 x.1) eqn:E.
    + constructor; [now apply IH|].
      rewrite insert_perm. constructor; [|assumption].
      unfold key_le. now apply FOrder.ltb_asym.
    + constructor; [now constructor|].
      constructor; [exact E|].
      rewrite Forall_forall in *. intros z Hz. unfold key_le in *.
      apply (FOrder.not_ltb_trans x.1 y.1 z.1); auto.
Qed.

Lemma isort_sorted l :
  Forall (fun y => F.is_nan y.1 = false) l ->
  StronglySorted key_le (Py.isort l).
Proof.
  induction l as [|x l IH]; simpl; intros Hn; [constructor|].
  apply Forall_cons in Hn as [Hx Hl].
  apply insert_sorted; [now rewrite isort_perm | now apply IH].
Qed.

Lemma insert_stable (k : float) x l :
  F.is_nan k = false ->
  List.filter (same_key k) (Py.insert x l) = List.filter (same_key k) (x :: l).
Proof.
  intros Hk. induction l as [|y l IH]; [reflexivity|].
  cbn [Py.insert]. destruct (F.ltb y.1 x.1) eqn:E; [|reflexivity].
  cbn [List.filter] in *. rewrite IH.
  destruct (same_key k y) eqn:Ey; [|reflexivity].
  destruct (same_key k x) eqn:Ex; [|reflexivity].
  exfalso. unfold same_key in *.
  apply andb_true_iff in Ex as [_ Ex], Ey as [Ey _].
  apply negb_true_iff in Ex, Ey.
  pose proof (FOrder.not_ltb_trans x.1 k y.1 Hk Ex Ey). congruence.
Qed.

Lemma isort_stable (k : float) l :
  F.is_nan k = false ->
  List.filter (same_key k) (Py.isort l) = List.filter (same_key k) l.
Proof.
  intros Hk. induction l as [|x l IH]; [reflexivity|].
  cbn [Py.isort]. rewrite insert_stable by assumption.
  cbn [List.filter]. now rewrite IH.
Qed.

End Sorting.

Lemma filter_fmap_snd {A B} (g : B -> bool) (l : list (A * B)) :
  List.filter g l.*2 = (List.filter (fun p => g p.2) l).*2.
Proof.
  induction l as [|p l IH]; [reflexivity|]. csimpl.
  destruct (g p.2); csimpl; now rewrite IH.
Qed.

Lemma filter_ext_Forall {A} (f g : A -> bool) (l : list A) :
  Forall (fun a => f a = g a) l -> List.filter f l = List.filter g l.
Proof.
  induction 1 as [|a l Ha _ IH]; [reflexivity|]. simpl. now rewrite Ha, IH.
Qed.

(** The pairs that [sorted] sorts carry the key of their element. *)
Lemma zip_keys {A} (key : A -> result float) (l : list A) (ks : list float) :
  Forall2 (fun a k => key a = Ok k) l ks ->
  Forall (fun p => key p.2 = Ok p.1) (zip ks l).
Proof. induction 1; simpl; constructor; auto. Qed.

Lemma zip_keys_fst {A} (P : float -> Prop) (l : list A) (ks : list float) :
  Forall P ks -> Forall (fun p => P p.1) (zip ks l).
Proof.
  intros H. revert l. induction H as [|k ks Hk _ IH]; intros [|a l]; simpl;
    constructor; auto.
Qed.

(** ** Sorting rows by strike *)

(** [a] is ordered before [b]: both strikes are numbers (or [inf]) and the
    first is at most the second. *)
Definition strike_le (a b : value) : Prop :=
  exists ka kb, strike_key a = Ok ka /\ strike_key b = Ok kb /\ F.leb ka kb = true.

(** The strike of the row is the number [k]. *)
Definition has_strike (k : float) (r : value) : bool :=
  match strike_key r with
  | Ok k' => F.eqb k' k
  | Raise _ => false
  end.

Lemma sorted_eq {A} (key : A -> result float) (l : list A) (ks : list float) :
  Py.mapM key l = Ok ks -> Py.sorted key l = Ok (Py.isort (zip ks l)).*2.
Proof. unfold Py.sorted. now intros ->. Qed.

Lemma sorted_inv {A} (key : A -> result float) (l out : list A) :
  Py.sorted key l = Ok out ->
  exists ks, Py.mapM key l = Ok ks /\ out = (Py.isort (zip ks l)).*2.
Proof. unfold Py.sorted. intros H. inv_ok. eauto. Qed.

Lemma sorted_perm {A} (key : A -> result float) (l out : list A) :
  Py.sorted key l = Ok out -> out ≡ₚ l.
Proof.
  intros H. apply sorted_inv in H as (ks & Hks & ->).
  rewrite isort_perm. rewrite snd_zip; [reflexivity|].
  apply mapM_Forall2, Forall2_length in Hks. lia.
Qed.

Lemma sort_rows_sorted (rows : list value) (ks : list float) :
  Py.mapM strike_key rows = Ok ks ->
  Forall (fun k => F.is_nan k = false) ks ->
  StronglySorted strike_le (Py.isort (zip ks rows)).*2.
Proof.
  intros Hks Hn.
  assert (Forall (fun p : float * value =>
            strike_key p.2 = Ok p.1 /\ F.is_nan p.1 = false)
            (Py.isort (zip ks rows))) as Hinv.
  { rewrite isort_perm. apply Forall_and. split.
    - now apply zip_keys, mapM_Forall2.
    - now apply (zip_keys_fst (fun k => F.is_nan k = false)). }
  apply (StronglySorted_fmap_Forall snd _ key_le strike_le _ Hinv).
  - intros p q [Hp Hnp] [Hq Hnq] Hle. exists p.1, q.1. repeat split; try assumption.
    unfold key_le in Hle. rewrite FOrder.leb_not_ltb by assumption. now rewrite Hle.
  - apply isort_sorted. now apply (zip_keys_fst (fun k => F.is_nan k = false)).
Qed.

Lemma sort_rows_stable (rows : list value) (ks : list float) (k : float) :
  Py.mapM strike_key rows = Ok ks ->
  Forall (fun k => F.is_nan k = false) ks ->
  List.filter (has_strike k) (Py.isort (zip ks rows)).*2
  = List.filter (has_strike k) rows.
Proof.
  intros Hks Hn.
  assert (length rows = length ks) as Hlen
    by now apply mapM_Forall2, Forall2_length in Hks.
  assert (Forall (fun p : float * value =>
            strike_key p.2 = Ok p.1 /\ F.is_nan p.1 = false) (zip ks rows)) as Hinv.
  { apply Forall_and. split.
    - now apply zip_keys, mapM_Forall2.
    - now apply (zip_keys_fst (fun k => F.is_nan k = false)). }
  rewrite <- (snd_zip ks rows) at 2 by lia.
  rewrite !filter_fmap_snd. f_equal.
  destruct (F.is_nan k) eqn:Ek.
  - (* no row has a NaN strike *)
    assert (forall l : list (float * value),
              List.filter (fun p => has_strike k p.2) l = []) as Hnil.
    { intros l. induction l as [|p l IH]; [reflexivity|]. simpl.
      unfold has_strike at 1. destruct (strike_key p.2) as [k'|]; [|exact IH].
      destruct (F.eqb k' k) eqn:E; [|exact IH].
      apply FOrder.eqb_is_nan in E as [_ E]. congruence. }
    now rewrite !Hnil.
  - assert (forall l : list (float * value),
              Forall (fun p => strike_key p.2 = Ok p.1 /\ F.is_nan p.1 = false) l ->
              List.filter (fun p => has_strike k p.2) l
              = List.filter (same_key k) l) as Hsame.
    { intros l Hl. apply filter_ext_Forall. eapply Forall_impl; [exact Hl|].
      intros p [Hp Hnp]. unfold has_strike, same_key. rewrite Hp.
      now apply FOrder.eqb_not_ltb. }
    rewrite !Hsame; [now apply isort_stable | exact Hinv |].
    now rewrite isort_perm.
Qed.

(** A row whose key is [inf], among rows with lesser keys, is sorted last. *)
Lemma sorted_last (out pre post : list value) (x : value) :
  out ≡ₚ pre ++ x :: post ->
  StronglySorted strike_le out ->
  strike_key x = Ok F.inf ->
  (forall y, y ∈ pre ++ post ->
     exists k, strike_key y = Ok k /\ F.ltb k F.inf = true) ->
  last out = Some x.
Proof.
  intros Hperm HS Hx Hothers.
  assert (out <> []) as Hne.
  { intros ->. apply Permutation_nil_l in Hperm. now destruct pre. }
  apply last_is_Some in Hne as [z Hz]. rewrite Hz. f_equal.
  apply last_Some in Hz as [init ->].
  assert (z ∈ pre ++ x :: post) as Hzin.
  { rewrite <- Hperm. apply elem_of_app. right. apply elem_of_cons. now left. }
  assert (x ∈ init ++ [z]) as Hxin.
  { rewrite Hperm. apply elem_of_app. right. apply elem_of_cons. now left. }
  apply elem_of_app in Hxin as [Hxin|Hxin];
    [|apply elem_of_cons in Hxin as [->|Hxin]; [reflexivity | now apply elem_of_nil in Hxin]].
  apply elem_of_app in Hzin as [Hzin|Hzin];
    [|apply elem_of_cons in Hzin as [->|Hzin]; [reflexivity|]].
  all: exfalso;
    destruct (Hothers z) as (k & Hk & Hlt); [set_solver|];
    pose proof (StronglySorted_app_1_elem_of _ _ _ x z HS Hxin) as Hle;
    destruct Hle as (ka & kb & Ha & Hb & Hle); [set_solver|];
    rewrite Hx in Ha; rewrite Hk in Hb; injection Ha as <-; injection Hb as <-;
    destruct (FOrder.ltb_is_nan _ _ Hlt) as [Hnk _];
    rewrite FOrder.leb_not_ltb in Hle by auto;
    rewrite Hlt in Hle; discriminate.
Qed.

(** A strike that [float] rejects counts as [inf]. *)
Lemma strike_key_noncoercible (d : row) :
  (Py.float (dict_get d "CE_StrikePrice") = Raise TypeError \/
   Py.float (dict_get d "CE_StrikePrice") = Raise ValueError) ->
  strike_key (VDict d) = Ok F.inf.
Proof. unfold strike_key. now intros [-> | ->]. Qed.

Lemma strike_key_not_dict (v : value) :
  as_dict v = None -> strike_key v = Ok F.inf.
Proof. destruct v; simpl; try reflexivity. discriminate. Qed.

(** ** The first least element *)

(** [i] is the first index of a least element of [ds]. *)
Definition first_min (ds : list float) (i : nat) : Prop :=
  exists d, ds !! i = Some d /\
    (forall j x, ds !! j = Some x -> F.leb d x = true) /\
    (forall j x, (j < i)%nat -> ds !! j = Some x -> F.ltb d x = true).

Lemma min_from_spec (l seen : list float) (bi : nat) (b : float) :
  Forall (fun x => F.is_nan x = false) (seen ++ l) ->
  seen !! bi = Some b ->
  (forall j x, seen !! j = Some x -> F.ltb x b = false) ->
  (forall j x, (j < bi)%nat -> seen !! j = Some x -> F.ltb b x = true) ->
  exists (r : nat) (d : float),
    Py.min_from (Z.of_nat bi) b (Z.of_nat (length seen)) l = Z.of_nat r /\
    (seen ++ l) !! r = Some d /\
    (forall j x, (seen ++ l) !! j = Some x -> F.ltb x d = false) /\
    (forall j x, (j < r)%nat -> (seen ++ l) !! j = Some x -> F.ltb d x = true).
Proof.
  revert seen bi b. induction l as [|x l IH]; intros seen bi b Hn Hb Hmin Hfirst.
  - exists bi, b. rewrite app_nil_r. simpl. auto.
  - assert (F.is_nan x = false) as Hx.
    { rewrite Forall_app, Forall_cons in Hn. tauto. }
    assert (forall j y, seen !! j = Some y -> F.is_nan y = false) as Hseen.
    { intros j y Hj. rewrite Forall_app, Forall_forall in Hn.
      apply Hn. eapply list_elem_of_lookup_2; eauto. }
    assert (Z.of_nat (length seen) + 1 = Z.of_nat (length (seen ++ [x]))) as Hlen
      by (rewrite length_app; simpl; lia).
    simpl. rewrite Hlen.
    replace (seen ++ x :: l) with ((seen ++ [x]) ++ l) in * by now rewrite <- app_assoc.
    destruct (F.ltb x b) eqn:E.
    + replace (Z.of_nat (length seen)) with (Z.of_nat (length seen + 0)) by (f_equal; lia).
      apply (IH (seen ++ [x]) (length seen + 0)%nat x); [assumption| | |].
      * rewrite lookup_app_r by lia. now replace (length seen + 0 - length seen)%nat with 0%nat by lia.
      * intros j y Hj. apply lookup_app_Some in Hj as [Hj|[_ Hj]].
        -- destruct (F.ltb y x) eqn:Eyx; [|reflexivity].
           pose proof (FOrder.ltb_trans _ _ _ Eyx E) as Hyb.
           rewrite (Hmin _ _ Hj) in Hyb. discriminate.
        -- destruct (j - length seen)%nat; [|now destruct n].
           injection Hj as <-. apply FOrder.ltb_irrefl.
      * intros j y Hlt Hj. rewrite lookup_app_l in Hj by lia.
        apply (FOrder.ltb_not_ltb_trans x b y); eauto.
    + apply (IH (seen ++ [x]) bi b); [assumption| | |].
      * apply lookup_app_l_Some. exact Hb.
      * intros j y Hj. apply lookup_app_Some in Hj as [Hj|[_ Hj]]; [eauto|].
        destruct (j - length seen)%nat; [|now destruct n].
        now injection Hj as <-.
      * intros j y Hlt Hj. apply lookup_lt_Some in Hb.
        rewrite lookup_app_l in Hj by lia. eauto.
Qed.

Lemma min_index_spec (ds : list float) :
  ds <> [] -> Forall (fun x => F.is_nan x = false) ds ->
  exists i : nat, Py.min_index ds = Ok (Z.of_nat i) /\ first_min ds i.
Proof.
  destruct ds as [|d ds]; [congruence|]. intros _ Hn.
  destruct (min_from_spec ds [d] 0 d) as (r & m & Hr & Hm & Hle & Hlt).
  - exact Hn.
  - reflexivity.
  - intros [|j] x Hj; [|now destruct j]. injection Hj as <-. apply FOrder.ltb_irrefl.
  - intros j x Hj. lia.
  - exists r. split; [simpl; f_equal; exact Hr|].
    exists m. split; [exact Hm|]. split; [|exact Hlt].
    intros j x Hj. rewrite FOrder.leb_not_ltb.
    + now rewrite (Hle _ _ Hj).
    + rewrite Forall_forall in Hn. apply Hn. eapply list_elem_of_lookup_2; eauto.
    + rewrite Forall_forall in Hn. apply Hn. eapply list_elem_of_lookup_2; eauto.
Qed.

(** ** Slices *)

Lemma slice_from {A} (l : list A) (a : Z) :
  0 <= a -> Py.slice l (Some a) None = drop (Z.to_nat a) l.
Proof.
  intros Ha. unfold Py.slice, Py.adjust_index. simpl.
  destruct (a <? 0) eqn:E; [lia|].
  destruct (Z.le_ge_cases a (Z.of_nat (length l))).
  - rewrite Z.min_l by lia. rewrite Nat2Z.id. apply take_ge. rewrite length_drop. lia.
  - rewrite Z.min_r by lia. rewrite Nat2Z.id, Nat.sub_diag.
    rewrite !drop_ge by lia. reflexivity.
Qed.

Lemma slice_between {A} (l : list A) (a b : Z) :
  0 <= a -> 0 <= b ->
  Py.slice l (Some a) (Some b) = take (Z.to_nat b - Z.to_nat a) (drop (Z.to_nat a) l).
Proof.
  intros Ha Hb. unfold Py.slice, Py.adjust_index. simpl.
  destruct (a <? 0) eqn:Ea; [lia|]. destruct (b <? 0) eqn:Eb; [lia|].
  destruct (Z.le_ge_cases a (Z.of_nat (length l))).
  - rewrite (Z.min_l a) by lia.
    destruct (Z.le_ge_cases b (Z.of_nat (length l))).
    + now rewrite Z.min_l by lia.
    + rewrite Z.min_r by lia. rewrite Nat2Z.id.
      rewrite !take_ge; [reflexivity| |]; rewrite length_drop; lia.
  - rewrite !drop_ge by lia. now rewrite !take_nil.
Qed.

(** ** The underlying price *)

(** The values found under the alias keys, rows and keys in scan order,
    that are neither empty nor null. *)
Definition candidates (rows : list value) : list value :=
  flat_map
    (fun v =>
       match v with
       | VDict d =>
           List.filter (fun x => negb (empty_or_none x))
                       (map (dict_get d) underlying_keys)
       | _ => []
       end) rows.

(** [float] rejects the value with one of the two exceptions that the
    scan catches. *)
Definition rejected (v : value) : Prop :=
  Py.float v = Raise TypeError \/ Py.float v = Raise ValueError.

(** The number of the first value that [float] does not reject. *)
Fixpoint first_float (vs : list value) : result (option float) :=
  match vs with
  | [] => Ok None
  | v :: rest =>
      match Py.float v with
      | Ok f => Ok (Some f)
      | Raise TypeError | Raise ValueError => first_float rest
      | Raise e => Raise e
      end
  end.

Lemma first_float_app (a b : list value) :
  first_float (a ++ b) =
  match first_float a with
  | Ok None => first_float b
  | r => r
  end.
Proof.
  induction a as [|v a IH]; simpl; [now destruct (first_float b) as [[]|]|].
  destruct (Py.float v) as [f|[]]; try reflexivity; exact IH.
Qed.

Lemma scan_keys_first_float (d : row) (keys : list string) :
  scan_keys d keys =
  first_float (List.filter (fun x => negb (empty_or_none x)) (map (dict_get d) keys)).
Proof.
  induction keys as [|key keys IH]; simpl; [reflexivity|].
  destruct (empty_or_none (dict_get d key)); simpl; [exact IH|].
  destruct (Py.float (dict_get d key)) as [f|[]]; try reflexivity; exact IH.
Qed.

Lemma get_underlying_value_first_float (rows : list value) :
  get_underlying_value rows = first_float (candidates rows).
Proof.
  induction rows as [|v rows IH]; [reflexivity|].
  unfold candidates in *. cbn [get_underlying_value flat_map].
  destruct v; try exact IH.
  rewrite first_float_app, scan_keys_first_float.
  generalize (first_float (List.filter (fun x => negb (empty_or_none x))
                                       (map (dict_get d) underlying_keys))).
  intros [[f|]|e]; [reflexivity | exact IH | reflexivity].
Qed.

Lemma first_float_rejected (vs : list value) :
  Forall rejected vs -> first_float vs = Ok None.
Proof.
  induction 1 as [|v vs [Hv|Hv] _ IH]; simpl; [reflexivity| |]; now rewrite Hv.
Qed.

Lemma first_float_accepts (pre post : list value) (v : value) (f : float) :
  Forall rejected pre -> Py.float v = Ok f ->
  first_float (pre ++ v :: post) = Ok (Some f).
Proof.
  intros Hpre Hv. rewrite first_float_app, (first_float_rejected _ Hpre).
  simpl. now rewrite Hv.
Qed.

(** ** Pagination *)

Lemma apply_offset_limit_eq (rs : list value) (offset limit : option Z) :
  let start := Z.to_nat (default 0 offset) in
  apply_offset_limit rs offset limit =
  match limit with
  | None => drop start rs
  | Some n =>
      if 0 <=? n then take (Z.to_nat n) (drop start rs)
      else Py.slice rs (Some (Z.max 0 (default 0 offset)))
                       (Some (Z.max 0 (default 0 offset) + n))
  end.
Proof.
  unfold apply_offset_limit. set (o := default 0 offset).
  replace (match offset with Some o0 => o0 | None => 0 end) with o
    by now destruct offset.
  assert ((if o <? 0 then 0 else o) = Z.max 0 o) as ->
    by (destruct (Z.ltb_spec o 0); lia).
  assert (Z.to_nat (Z.max 0 o) = Z.to_nat o) as Hs by lia.
  simpl. destruct limit as [n|].
  - destruct (Z.leb_spec 0 n); [|reflexivity].
    rewrite slice_between by lia. rewrite Hs. f_equal. lia.
  - rewrite slice_from by lia. now rewrite Hs.
Qed.

(** ** Membership is preserved by the selection steps *)

Lemma slice_Forall {A} (P : A -> Prop) (l : list A) (a b : option Z) :
  Forall P l -> Forall P (Py.slice l a b).
Proof. intros H. unfold Py.slice. now apply Forall_take, Forall_drop. Qed.

Lemma filter_atm_window_Forall (P : value -> Prop) (rs out : list value)
    (u : option float) (w : Z) :
  filter_atm_window rs u w = Ok out -> Forall P rs -> Forall P out.
Proof.
  unfold filter_atm_window. intros H HP.
  destruct u as [u|]; [|now injection H as <-].
  destruct rs as [|r rs]; [now injection H as <-|].
  inv_ok. destruct a as [|k ks]; [now injection H as <-|].
  inv_ok. now apply slice_Forall.
Qed.

Lemma apply_offset_limit_Forall (P : value -> Prop) (rs : list value)
    (offset limit : option Z) :
  Forall P rs -> Forall P (apply_offset_limit rs offset limit).
Proof. intros H. unfold apply_offset_limit. destruct limit; now apply slice_Forall. Qed.

Lemma option_chain_rows_Forall (P : value -> Prop) (rs out : list value)
    (mode : option string) (window offset limit : option Z) :
  option_chain_rows rs mode window offset limit = Ok out ->
  Forall P rs -> Forall P out.
Proof.
  unfold option_chain_rows. intros H HP. inv_ok.
  apply apply_offset_limit_Forall.
  apply sorted_perm in Ha0.
  assert (Forall P a0) as HP0 by now rewrite Ha0.
  destruct (bool_decide _); [|now inv_ok].
  eapply filter_atm_window_Forall; eauto.
Qed.

Lemma round_strike_rows_Forall (P : value -> Prop) (rs out : list value) (step : float) :
  round_strike_rows rs step = Ok out -> Forall P rs -> Forall P out.
Proof.
  revert out. induction rs as [|v rs IH]; simpl; intros out H HP.
  - now injection H as <-.
  - apply Forall_cons in HP as [Hv HP]. destruct v; try discriminate.
    inv_ok. destruct a; [constructor|]; eauto.
Qed.

(** ** Numeric-or-empty derived fields *)

(** A float rounded to two decimals, or the empty string. *)
Definition numeric_or_empty (v : value) : Prop :=
  v = VStr "" \/ exists x, v = VFloat (round2 x).

Definition rounded_or_empty (v : option float) : value :=
  match v with Some x => VFloat (round2 x) | None => VStr "" end.

Lemma rounded_or_empty_ok (v : option float) : numeric_or_empty (rounded_or_empty v).
Proof. destruct v; [right; eauto | now left]. Qed.

Definition derived_keys : list string :=
  [ "CE_PrevClose"; "CE_PctChange"; "PE_PrevClose"; "PE_PctChange" ]%string.

(** The four derived fields of a row are present and numeric-or-empty. *)
Definition derived_ok (v : value) : Prop :=
  match v with
  | VDict d =>
      Forall (fun key => exists x, d !! key = Some x /\ numeric_or_empty x) derived_keys
  | _ => True
  end.

Lemma add_change_fields_inv (r r' : row) (prefix : string) :
  add_change_fields r prefix = Ok r' ->
  exists a b, numeric_or_empty a /\ numeric_or_empty b /\
    r' = <[(prefix ++ "_PctChange")%string := b]>
           (<[(prefix ++ "_PrevClose")%string := a]> r).
Proof.
  intros H.
  destruct (to_float (dict_get r (prefix ++ "_LTP")%string)) as [ltp|] eqn:E1;
    [|unfold add_change_fields in H; rewrite E1 in H; discriminate].
  destruct (to_float (dict_get r (prefix ++ "_AbsoluteChange")%string)) as [ac|] eqn:E2;
    [|unfold add_change_fields in H; rewrite E1, E2 in H; discriminate].
  destruct (get_prev_close_value r prefix) as [pc|] eqn:E3;
    [|unfold add_change_fields in H; rewrite E1, E2, E3 in H; discriminate].
  rewrite (add_change_fields_eq _ _ _ _ _ E1 E2 E3) in H. injection H as <-.
  eexists _, _. split; [|split; [|reflexivity]];
    match goal with |- numeric_or_empty (match ?v with _ => _ end) =>
      apply (rounded_or_empty_ok v) end.
Qed.

Lemma add_derived_fields_ok (rs rs' : list value) :
  add_derived_fields rs = Ok rs' -> Forall derived_ok rs'.
Proof.
  revert rs'. induction rs as [|v rs IH]; simpl; intros rs' H.
  - injection H as <-. constructor.
  - inv_ok. constructor; [|now apply IH].
    destruct v; inv_ok; try exact I.
    repeat match goal with
    | H : add_change_fields _ _ = Ok _ |- _ =>
        let a := fresh "a" in let b := fresh "b" in
        apply add_change_fields_inv in H as (a & b & ? & ? & ->)
    end.
    unfold derived_ok, derived_keys. simpl.
    repeat (apply Forall_cons; split); [..|apply Forall_nil];
      eexists; (split; [now simplify_map_eq | assumption]).
Qed.

(** ** The freshness cache *)

Section CacheProperties.

Context {world response : Type}.
Context (status_code : response -> Z).
Context (session_get : world -> result unit * world).
Context (session_post : string -> option string -> world -> result response * world).
Context (response_rows : response -> result (list value)).
Context (marketwatch : string -> option string -> world -> result (list value) * world).
Context (fetch_nse : string -> option string -> bool -> world -> result (list value) * world).
Context (float_str : float -> string).
Context (ttl : Z).

Local Abbreviation fetch_mcx :=
  (fetch_mcx_option_chain world response status_code session_get session_post
     response_rows marketwatch).
Local Abbreviation fetch_src :=
  (fetch_source world response status_code session_get session_post
     response_rows marketwatch fetch_nse).
Local Abbreviation get_rows :=
  (get_cached_rows world response status_code session_get session_post
     response_rows marketwatch fetch_nse float_str ttl).
Local Abbreviation key_of := (cache_key float_str).

(** The call finds no entry that it may return. *)
Definition cache_miss (force : bool) (now : float) (key : string)
    (st : state world) : Prop :=
  force = true \/ CACHE world st !! key = None \/
  exists e, CACHE world st !! key = Some e /\ live ttl now e = false.

(** The rows as they are stored: derived fields added, round strikes kept. *)
Definition processed (fetched : list value) (strike_step : float)
    (all_strikes : bool) : result (list value) :=
  let! rs := add_derived_fields fetched in
  if all_strikes then Ok rs else round_strike_rows rs strike_step.

Lemma get_cached_rows_hit source symbol expiry step all_strikes now st e :
  CACHE world st !! key_of source symbol expiry step all_strikes = Some e ->
  live ttl now e = true ->
  get_rows source symbol expiry step all_strikes false now st
  = (Ok (rows e, fetched_at e), st).
Proof. intros He Hl. unfold get_cached_rows. now rewrite He, Hl. Qed.

Lemma get_cached_rows_miss source symbol expiry step all_strikes force now st :
  cache_miss force now (key_of source symbol expiry step all_strikes) st ->
  get_rows source symbol expiry step all_strikes force now st =
  let '(fetched, st1) := fetch_src source symbol expiry force st in
  match (let! rs := fetched in processed rs step all_strikes) with
  | Ok rs =>
      (Ok (rs, now),
       {| CACHE := <[key_of source symbol expiry step all_strikes :=
                      {| rows := rs; fetched_at := now |}]> (CACHE world st1);
          upstream := upstream world st1; fetches := fetches world st1 |})
  | Raise e => (Raise e, st1)
  end.
Proof.
  intros Hmiss. unfold get_cached_rows, processed.
  assert ((if force then None
           else match CACHE world st !! key_of source symbol expiry step all_strikes with
                | Some e => if live ttl now e then Some e else None
                | None => None
                end) = None) as ->.
  { destruct Hmiss as [-> | [-> | (e & -> & ->)]]; [reflexivity| |];
      now destruct force. }
  destruct (fetch_src source symbol expiry force st) as [fetched st1].
  destruct fetched as [rs|e]; simpl; [|reflexivity].
  destruct (add_derived_fields rs); reflexivity.
Qed.

(** Every call either hits or misses. *)
Lemma hit_or_miss force now key (st : state world) :
  (force = false /\ exists e, CACHE world st !! key = Some e /\ live ttl now e = true)
  \/ cache_miss force now key st.
Proof.
  unfold cache_miss. destruct force; [now right; left|].
  destruct (CACHE world st !! key) as [e|] eqn:E; [|now right; right; left].
  destruct (live ttl now e) eqn:El; [left | right; right; right]; eauto.
Qed.

(** A fetch does not touch the cache; for the two known sources it is
    one more fetcher invocation. *)
Lemma fetch_source_cache source symbol expiry force st r st1 :
  fetch_src source symbol expiry force st = (r, st1) ->
  CACHE world st1 = CACHE world st.
Proof.
  unfold fetch_source. intros H.
  destruct (String.eqb source "mcx");
    [destruct (fetch_mcx symbol expiry (upstream world st)); now injection H as <- <-|].
  destruct (String.eqb source "nse");
    [destruct (fetch_nse symbol expiry force (upstream world st)); now injection H as <- <-|].
  now injection H as <- <-.
Qed.

Lemma fetch_source_trace source symbol expiry force st r st1 :
  source = "mcx"%string \/ source = "nse"%string ->
  fetch_src source symbol expiry force st = (r, st1) ->
  fetches world st1 = fetches world st ++
    [ {| call_source := source; call_symbol := symbol; call_expiry := expiry |} ].
Proof.
  unfold fetch_source. intros [-> | ->] H; simpl in H.
  - destruct (fetch_mcx symbol expiry (upstream world st)); now injection H as <- <-.
  - destruct (fetch_nse symbol expiry force (upstream world st)); now injection H as <- <-.
Qed.

(** An error raised by the fetcher of a source is the outcome of
    [fetch_source]. *)
Lemma fetch_source_mcx_raise symbol expiry force st e w :
  fetch_mcx symbol expiry (upstream world st) = (Raise e, w) ->
  exists st1, fetch_src "mcx" symbol expiry force st = (Raise e, st1) /\
              upstream world st1 = w.
Proof. unfold fetch_source. simpl. intros ->. simpl. eauto. Qed.

Lemma fetch_source_nse_raise symbol expiry force st e w :
  fetch_nse symbol expiry force (upstream world st) = (Raise e, w) ->
  exists st1, fetch_src "nse" symbol expiry force st = (Raise e, st1) /\
              upstream world st1 = w.
Proof. unfold fetch_source. simpl. intros ->. simpl. eauto. Qed.

(** When a call raises, the cache is as it was. *)
Lemma get_cached_rows_raise source symbol expiry step all_strikes force now st e st1 :
  get_rows source symbol expiry step all_strikes force now st = (Raise e, st1) ->
  CACHE world st1 = CACHE world st.
Proof.
  intros H.
  destruct (hit_or_miss force now (key_of source symbol expiry step all_strikes) st)
    as [(-> & e0 & He & Hl) | Hmiss].
  - rewrite (get_cached_rows_hit _ _ _ _ _ _ _ _ He Hl) in H. discriminate.
  - rewrite (get_cached_rows_miss _ _ _ _ _ _ _ _ Hmiss) in H.
    destruct (fetch_src source symbol expiry force st) as [fetched st2] eqn:Ef.
    destruct (let! rs := fetched in processed rs step all_strikes);
      [discriminate|].
    injection H as <- <-. eapply fetch_source_cache; eauto.
Qed.

(** The invariant of the cached row sets. *)
Definition cache_ok (c : gmap string entry) : Prop :=
  map_Forall (fun _ e => Forall derived_ok (rows e)) c.

Lemma processed_ok fetched step all_strikes rs :
  processed fetched step all_strikes = Ok rs -> Forall derived_ok rs.
Proof.
  unfold processed. intros H. inv_ok. apply add_derived_fields_ok in Ha.
  destruct all_strikes; [now inv_ok|].
  eapply round_strike_rows_Forall; eauto.
Qed.

Lemma get_cached_rows_ok source symbol expiry step all_strikes force now st rs t st1 :
  cache_ok (CACHE world st) ->
  get_rows source symbol expiry step all_strikes force now st = (Ok (rs, t), st1) ->
  Forall derived_ok rs /\ cache_ok (CACHE world st1).
Proof.
  intros Hinv H.
  destruct (hit_or_miss force now (key_of source symbol expiry step all_strikes) st)
    as [(-> & e0 & He & Hl) | Hmiss].
  - rewrite (get_cached_rows_hit _ _ _ _ _ _ _ _ He Hl) in H.
    injection H as <- <- <-. split; [|assumption]. exact (Hinv _ _ He).
  - rewrite (get_cached_rows_miss _ _ _ _ _ _ _ _ Hmiss) in H.
    destruct (fetch_src source symbol expiry force st) as [fetched st2] eqn:Ef.
    destruct (let! rs := fetched in processed rs step all_strikes) as [rs'|] eqn:Ep;
      [|discriminate].
    injection H as <- <- <-. inv_ok. apply processed_ok in Ep.
    split; [assumption|]. simpl. apply map_Forall_insert_2; [assumption|].
    now rewrite (fetch_source_cache _ _ _ _ _ _ _ Ef).
Qed.

Lemma get_cached_rows_keeps_ok source symbol expiry step all_strikes force now st r st1 :
  cache_ok (CACHE world st) ->
  get_rows source symbol expiry step all_strikes force now st = (r, st1) ->
  cache_ok (CACHE world st1).
Proof.
  intros Hinv H. destruct r as [[rs t]|e].
  - now apply (get_cached_rows_ok _ _ _ _ _ _ _ _ _ _ _ Hinv H).
  - now rewrite (get_cached_rows_raise _ _ _ _ _ _ _ _ _ _ H).
Qed.

(** The states that a process reaches: it starts with an empty cache and
    serves calls. *)
Inductive reachable : state world -> Prop :=
  | reachable_start (w : world) :
      reachable {| CACHE := ∅; upstream := w; fetches := [] |}
  | reachable_call source symbol expiry step all_strikes force now st r st1 :
      reachable st ->
      get_rows source symbol expiry step all_strikes force now st = (r, st1) ->
      reachable st1.

Lemma reachable_cache_ok (st : state world) :
  reachable st -> cache_ok (CACHE world st).
Proof.
  induction 1 as [w|? ? ? ? ? ? ? ? ? ? _ IH H].
  - apply map_Forall_empty.
  - eapply get_cached_rows_keeps_ok; eauto.
Qed.

End CacheProperties.

(** ** Integers that floats represent

    [round(q)] of a finite float is an integer that [float] converts back
    without overflow: the step [quotient - round(quotient)] of
    [is_round_strike] does not raise for a finite quotient. *)

Module FExact.

(** A finite, well-formed binary64 number. *)
Definition finite_number (x : float) : bool :=
  F.is_finite x && valid_binary F.prec F.emax x.

Lemma iter_pos_iter {A} (f : A -> A) (p : positive) (x : A) :
  SpecFloat.iter_pos f p x = Pos.iter f x p.
Proof.
  revert x. induction p as [p IH|p IH|]; intros x; simpl.
  - rewrite !IH. now rewrite <- !Pos.iter_swap.
  - now rewrite !IH.
  - reflexivity.
Qed.

Lemma digits2_log2 (p : positive) :
  Zpos (digits2_pos p) = Z.log2 (Zpos p) + 1.
Proof.
  assert (forall q, digits2_pos q = Pos.size q) as Hsize
    by (induction q; simpl; congruence).
  destruct p; simpl; rewrite ?Hsize; lia.
Qed.

Lemma digits2_mul_pow2 (p q : positive) (k : Z) :
  0 <= k -> Zpos q = Zpos p * 2 ^ k ->
  Zpos (digits2_pos q) = Zpos (digits2_pos p) + k.
Proof.
  intros Hk Hq. rewrite !digits2_log2, Hq.
  rewrite Z.log2_mul_pow2 by lia. lia.
Qed.

Lemma digits2_lt_pow2 (p : positive) (k : Z) :
  0 <= k -> Zpos p < 2 ^ k -> Zpos (digits2_pos p) <= k.
Proof.
  intros Hk Hp. rewrite digits2_log2.
  assert (Z.log2 (Zpos p) < k) by (apply Z.log2_lt_pow2; lia). lia.
Qed.

Lemma digits2_le_lt_pow2 (p : positive) (k : Z) :
  Zpos (digits2_pos p) <= k -> Zpos p < 2 ^ k.
Proof.
  intros Hp. rewrite digits2_log2 in Hp.
  destruct (Z.log2_spec (Zpos p)) as [_ H]; [lia|].
  eapply Z.lt_le_trans; [exact H|]. apply Z.pow_le_mono_r; lia.
Qed.

Lemma shr_1_even (m : Z) :
  0 < m -> shr_1 {| shr_m := 2 * m; shr_r := false; shr_s := false |}
           = {| shr_m := m; shr_r := false; shr_s := false |}.
Proof. destruct m; try lia. reflexivity. Qed.

Lemma shr_exact (m : Z) (k : positive) :
  0 < m ->
  SpecFloat.iter_pos shr_1 k {| shr_m := m * 2 ^ Zpos k; shr_r := false; shr_s := false |}
  = {| shr_m := m; shr_r := false; shr_s := false |}.
Proof.
  intros Hm. rewrite iter_pos_iter.
  induction k as [|k IH] using Pos.peano_ind.
  - change (2 ^ Zpos 1) with 2. rewrite (Z.mul_comm m 2). now apply shr_1_even.
  - rewrite Pos.iter_succ_r.
    replace (m * 2 ^ Zpos (Pos.succ k)) with (2 * (m * 2 ^ Zpos k))
      by (rewrite Pos2Z.inj_succ, Z.pow_succ_r; lia).
    rewrite shr_1_even by (apply Z.mul_pos_pos; lia). exact IH.
Qed.

(** A mantissa of 53 digits is not shifted. *)
Lemma binary_round_aux_53 (s : bool) (m : positive) (e : Z) :
  Zpos (digits2_pos m) = 53 -> -1074 <= e <= 971 ->
  binary_round_aux F.prec F.emax s (Zpos m) e loc_Exact = S754_finite s m e.
Proof.
  intros Hd He. unfold binary_round_aux, shr_fexp, fexp, emin, F.prec, F.emax.
  cbn [Zdigits2 shr_record_of_loc]. rewrite Hd.
  replace (Z.max (53 + e - 53) (3 - 1024 - 53) - e) with 0 by lia.
  cbn [shr shr_m loc_of_shr_record round_nearest_even Zdigits2 shr_record_of_loc].
  rewrite Hd.
  replace (Z.max (53 + e - 53) (3 - 1024 - 53) - e) with 0 by lia.
  cbn [shr shr_m].
  destruct (Z.leb_spec e (1024 - 53)); [reflexivity | lia].
Qed.

Lemma binary_round_aux_shift (s : bool) (m : positive) (e : Z) (k : positive) :
  Zpos (digits2_pos m) = 53 -> -1074 <= e -> e + Zpos k <= 971 ->
  binary_round_aux F.prec F.emax s (Zpos m * 2 ^ Zpos k) e loc_Exact
  = S754_finite s m (e + Zpos k).
Proof.
  intros Hd He1 He2.
  assert (0 < Zpos m * 2 ^ Zpos k) as Hpos by (apply Z.mul_pos_pos; lia).
  destruct (Zpos m * 2 ^ Zpos k) as [|q|q] eqn:Eq; try lia.
  assert (Zpos (digits2_pos q) = 53 + Zpos k) as Hq
    by (rewrite <- Hd; apply digits2_mul_pow2; lia).
  unfold binary_round_aux, shr_fexp, fexp, emin, F.prec, F.emax.
  cbn [Zdigits2 shr_record_of_loc]. rewrite Hq.
  replace (Z.max (53 + Zpos k + e - 53) (3 - 1024 - 53) - e) with (Zpos k) by lia.
  cbn [shr]. rewrite <- Eq, shr_exact by lia.
  cbn [shr_m loc_of_shr_record round_nearest_even Zdigits2 shr_record_of_loc].
  rewrite Hd.
  replace (Z.max (53 + (e + Zpos k) - 53) (3 - 1024 - 53) - (e + Zpos k)) with 0 by lia.
  cbn [shr shr_m].
  destruct (Z.leb_spec (e + Zpos k) (1024 - 53)); [reflexivity | lia].
Qed.

Lemma iter_xO_pow2 (p k : positive) :
  Zpos (Pos.iter xO p k) = Zpos p * 2 ^ Zpos k.
Proof.
  induction k as [|k IH] using Pos.peano_ind.
  - simpl. lia.
  - rewrite Pos.iter_succ, Pos2Z.inj_xO, IH, Pos2Z.inj_succ, Z.pow_succ_r; lia.
Qed.

(** [float(n)] is exact when [n] is a 53-digit mantissa shifted left. *)
Lemma of_Z_shifted (s : bool) (m : positive) (e : Z) :
  Zpos (digits2_pos m) = 53 -> 0 <= e <= 971 ->
  F.of_Z (cond_Zopp s (Zpos m * 2 ^ e)) = S754_finite s m e.
Proof.
  intros Hd He.
  assert (0 < Zpos m * 2 ^ e) as Hpos by (apply Z.mul_pos_pos; lia).
  destruct (Zpos m * 2 ^ e) as [|q|q] eqn:Eq; try lia.
  assert (Zpos (digits2_pos q) = 53 + e) as Hq
    by (rewrite <- Hd; apply digits2_mul_pow2; lia).
  assert (F.of_Z (cond_Zopp s (Zpos q)) = binary_round F.prec F.emax s q 0) as ->
    by now destruct s.
  unfold binary_round, fexp, emin, F.prec, F.emax. rewrite Hq.
  replace (Z.max (53 + e + 0 - 53) (3 - 1024 - 53)) with e by lia.
  unfold shl_align. rewrite Z.sub_0_r.
  destruct e as [|k|k]; try lia.
  - rewrite Z.mul_1_r in Eq. injection Eq as <-.
    now apply binary_round_aux_53.
  - rewrite <- Eq. now apply (binary_round_aux_shift s m 0 k).
Qed.

(** [float(n)] is finite for an integer below [2^53]. *)
Lemma of_Z_small (s : bool) (n : Z) :
  0 <= n < 2 ^ 53 -> F.is_finite (F.of_Z (cond_Zopp s n)) = true.
Proof.
  intros Hn. destruct n as [|q|q]; try lia; [now destruct s|].
  assert (F.of_Z (cond_Zopp s (Zpos q)) = binary_round F.prec F.emax s q 0) as ->
    by now destruct s.
  pose proof (digits2_lt_pow2 q 53 ltac:(lia) ltac:(lia)) as Hd.
  unfold binary_round, fexp, emin, F.prec, F.emax.
  replace (Z.max (Zpos (digits2_pos q) + 0 - 53) (3 - 1024 - 53))
    with (Zpos (digits2_pos q) - 53) by lia.
  unfold shl_align. rewrite Z.sub_0_r.
  destruct (Zpos (digits2_pos q) - 53) as [|k|k] eqn:Ek; try lia.
  - rewrite binary_round_aux_53; [reflexivity | lia | lia].
  - rewrite binary_round_aux_53; [reflexivity | | lia].
    rewrite (digits2_mul_pow2 q _ (Zpos k)); [lia | lia | apply iter_xO_pow2].
Qed.

Lemma rhe_bounds (n d : Z) :
  0 <= n -> 0 < d -> n / d <= F.rhe n d <= n / d + 1.
Proof.
  intros Hn Hd. unfold F.rhe. cbv zeta.
  destruct (2 * (n mod d) ?= d); [destruct (Z.even (n / d))| |]; lia.
Qed.

Lemma rhe_1 (n : Z) : F.rhe n 1 = n.
Proof. unfold F.rhe. cbv zeta. rewrite Z.div_1_r, Z.mod_1_r. reflexivity. Qed.

(** [round(q)] of a finite float is an integer that [float] converts. *)
Lemma round_int_float_of_int (q : float) :
  finite_number q = true ->
  exists n nf, Py.round_int q = Ok n /\ Py.float_of_int n = Ok nf.
Proof.
  unfold finite_number, Py.float_of_int.
  destruct q as [s|s| |s m e]; try discriminate; intros Hv.
  - exists 0, (F.of_Z 0). now split.
  - simpl in Hv. unfold bounded, canonical_mantissa, fexp, emin, F.prec, F.emax in Hv.
    apply andb_true_iff in Hv as [Hc He].
    apply Z.eqb_eq in Hc. apply Z.leb_le in He.
    exists (cond_Zopp s (F.scaled_rhe m e 0)). cbn [Py.round_int].
    unfold F.scaled_rhe. cbn [Z.leb Z.compare].
    rewrite Z.pow_0_r, !Z.mul_1_r.
    destruct (Z.leb_spec 0 e) as [Hpos|Hneg]; cbv iota; rewrite ?Z.mul_1_r.
    + rewrite rhe_1, of_Z_shifted by lia. eexists. split; reflexivity.
    + assert (Zpos m < 2 ^ 53) by (apply digits2_le_lt_pow2; lia).
      assert (2 ^ 1 <= 2 ^ (- e)) by (apply Z.pow_le_mono_r; lia).
      pose proof (rhe_bounds (Zpos m) (2 ^ (- e)) ltac:(lia) ltac:(lia)) as [Hlo Hhi].
      assert (0 <= Zpos m / 2 ^ (- e)) by (apply Z.div_pos; lia).
      assert (Zpos m / 2 ^ (- e) <= Zpos m / 2)
        by (apply Z.div_le_compat_l; lia).
      change (2 ^ 53) with 9007199254740992 in *.
      assert (Zpos m / 2 < 4503599627370496)
        by (apply Z.div_lt_upper_bound; lia).
      rewrite of_Z_small by (change (2 ^ 53) with 9007199254740992; lia).
      eexists. split; reflexivity.
Qed.

End FExact.


(** * The claims *)

(** ** C1: the derived-field engine *)

(** The row of the specification's example: LTP 105, change 5, no
    previous close. *)
Definition row_105 : row :=
  <["CE_LTP"%string := VInt 105]> (<["CE_AbsoluteChange"%string := VInt 5]> ∅).

(** The field holds an integer that [float] cannot take. *)
Definition big_int_at (r : row) (key : string) : Prop :=
  exists z, r !! key = Some (VInt z) /\ F.is_finite (F.of_Z z) = false.

(** The reads of the engine meet such an integer: under LTP, under
    AbsoluteChange, or under a PrevClose alias that no numeric alias
    precedes. *)
Definition read_overflows (r : row) (prefix : string) : Prop :=
  big_int_at r (prefix ++ "_LTP")%string
  \/ big_int_at r (prefix ++ "_AbsoluteChange")%string
  \/ exists pre key post,
       prev_close_keys prefix = pre ++ key :: post
       /\ Forall (fun k => to_float (dict_get r k) = Ok None) pre
       /\ big_int_at r key.

(** What a field coerces to: its number, or nothing. *)
Definition number_of (r : row) (key : string) : option float :=
  match to_float (dict_get r key) with
  | Ok o => o
  | Raise _ => None
  end.

(** The specification's rules.  The value of the aliases is the number of
    the first alias that has one. *)
Definition spec_alias_value (r : row) (prefix : string) : option float :=
  head (omap (number_of r) (prev_close_keys prefix)).

(** PrevClose: the value of the aliases; without one, LTP less
    AbsoluteChange when both are known. *)
Definition spec_prev_close (alias ltp abs_chg : option float) : option float :=
  match alias with
  | Some p => Some p
  | None =>
      match ltp, abs_chg with
      | Some l, Some a => Some (F.sub l a)
      | _, _ => None
      end
  end.

(** PctChange: empty when PrevClose is absent or zero; else from
    AbsoluteChange when it is known, else from LTP when it is known. *)
Definition spec_pct_change (prev_close ltp abs_chg : option float)
    : option float :=
  match prev_close with
  | None => None
  | Some p =>
      if F.eqb p F.zero then None
      else
        match abs_chg with
        | Some a => Some (F.mul (F.div a p) lit_100)
        | None =>
            match ltp with
            | Some l => Some (F.mul (F.div (F.sub l p) p) lit_100)
            | None => None
            end
        end
  end.

Lemma to_float_raise_big_int (r : row) (key : string) (e : exn) :
  to_float (dict_get r key) = Raise e -> e = OverflowError /\ big_int_at r key.
Proof.
  intros E. apply to_float_raises in E as (-> & z & Hz & Hfin).
  split; [reflexivity|]. unfold dict_get in Hz.
  destruct (r !! key) as [v|] eqn:Ek; [|discriminate]. simpl in Hz. subst v.
  now exists z.
Qed.

Lemma big_int_to_float (r : row) (key : string) :
  big_int_at r key -> to_float (dict_get r key) = Raise OverflowError.
Proof.
  intros (z & Hz & Hfin). unfold dict_get. rewrite Hz. simpl.
  unfold Py.float_of_int. now rewrite Hfin.
Qed.

Lemma to_float_number_of (r : row) (key : string) :
  ~ big_int_at r key -> to_float (dict_get r key) = Ok (number_of r key).
Proof.
  intros Hn. unfold number_of.
  destruct (to_float (dict_get r key)) as [o|e] eqn:E; [reflexivity|].
  now apply to_float_raise_big_int in E as [_ Hb].
Qed.

(** The scan of the aliases meets a big integer before any number. *)
Definition scan_overflows (r : row) (keys : list string) : Prop :=
  exists pre key post,
    keys = pre ++ key :: post
    /\ Forall (fun k => to_float (dict_get r k) = Ok None) pre
    /\ big_int_at r key.

Lemma first_parsed_head (r : row) (keys : list string) :
  ~ scan_overflows r keys ->
  first_parsed r keys = Ok (head (omap (number_of r) keys)).
Proof.
  induction keys as [|key keys IH]; intros Hn; [reflexivity|].
  cbn [first_parsed omap list_omap].
  assert (~ big_int_at r key) as Hk.
  { intros Hb. apply Hn. exists [], key, keys. now repeat split. }
  rewrite (to_float_number_of r key Hk). cbn [bind].
  destruct (number_of r key) as [f|] eqn:E; [reflexivity|].
  apply IH. intros (pre & k & post & -> & Hpre & Hb). apply Hn.
  exists (key :: pre), k, post. split; [reflexivity|]. split; [|assumption].
  constructor; [|assumption]. rewrite (to_float_number_of r key Hk). now rewrite E.
Qed.

Lemma first_parsed_overflow (r : row) (keys : list string) :
  scan_overflows r keys -> first_parsed r keys = Raise OverflowError.
Proof.
  intros (pre & key & post & -> & Hpre & Hb).
  induction Hpre as [|k pre Hk _ IH]; cbn [first_parsed app].
  - now rewrite (big_int_to_float r key Hb).
  - rewrite Hk. cbn [bind]. exact IH.
Qed.

Lemma first_parsed_raise_scan (r : row) (keys : list string) (e : exn) :
  first_parsed r keys = Raise e -> e = OverflowError /\ scan_overflows r keys.
Proof.
  induction keys as [|key keys IH]; cbn [first_parsed]; [discriminate|].
  destruct (to_float (dict_get r key)) as [[f|]|e'] eqn:E; cbn [bind].
  - discriminate.
  - intros H. destruct (IH H) as (-> & pre & k & post & -> & Hpre & Hb).
    split; [reflexivity|]. exists (key :: pre), k, post.
    split; [reflexivity|]. split; [now constructor | assumption].
  - intros [= ->]. apply to_float_raise_big_int in E as [-> Hb].
    split; [reflexivity|]. exists [], key, keys. now repeat split.
Qed.

(** C1 (amended).  For a row and a side prefix, with LTP and
    AbsoluteChange as they coerce to numbers and the value of the
    PrevClose aliases that of the first alias that coerces: unless a read
    meets an integer beyond the float range, the engine returns the row
    with PrevClose set to the value of the aliases, or to
    [LTP - AbsoluteChange] when no alias has a value and both are known,
    and empty otherwise, and with PctChange set to
    [(AbsoluteChange / PrevClose) * 100] when PrevClose is present and
    not zero and AbsoluteChange is known, else to
    [((LTP - PrevClose) / PrevClose) * 100] when LTP is known, and empty
    when PrevClose is absent or zero; both are stored rounded to two
    decimals, or as the empty string.  When a read meets an integer beyond
    the float range the engine raises an OverflowError, and it raises
    nothing else. *)
Theorem C1_derived_field_engine (r : row) (prefix : string) :
  let ltp := number_of r (prefix ++ "_LTP")%string in
  let abs_chg := number_of r (prefix ++ "_AbsoluteChange")%string in
  let prev_close := spec_prev_close (spec_alias_value r prefix) ltp abs_chg in
  let pct_change := spec_pct_change prev_close ltp abs_chg in
  (~ read_overflows r prefix ->
   add_change_fields r prefix
   = Ok (<[(prefix ++ "_PctChange")%string := rounded_or_empty pct_change]>
           (<[(prefix ++ "_PrevClose")%string := rounded_or_empty prev_close]> r)))
  /\ (read_overflows r prefix ->
      add_change_fields r prefix = Raise OverflowError)
  /\ (forall e, add_change_fields r prefix = Raise e ->
        e = OverflowError /\ read_overflows r prefix).
Proof.
  cbv zeta. split; [|split].
  - intros Hn.
    assert (~ big_int_at r (prefix ++ "_LTP")%string) as Hl
      by (intros Hb; apply Hn; now left).
    assert (~ big_int_at r (prefix ++ "_AbsoluteChange")%string) as Ha
      by (intros Hb; apply Hn; right; now left).
    assert (~ scan_overflows r (prev_close_keys prefix)) as Hs
      by (intros Hb; apply Hn; right; now right).
    rewrite (add_change_fields_eq r prefix _ _ _ (to_float_number_of _ _ Hl)
               (to_float_number_of _ _ Ha) (first_parsed_head _ _ Hs)).
    cbv zeta. unfold spec_alias_value.
    destruct (head (omap (number_of r) (prev_close_keys prefix))) as [p|];
      destruct (number_of r (prefix ++ "_LTP")%string) as [l|];
      destruct (number_of r (prefix ++ "_AbsoluteChange")%string) as [a|];
      reflexivity.
  - intros Hov. unfold add_change_fields.
    destruct (to_float (dict_get r (prefix ++ "_LTP")%string)) as [ltp|e1] eqn:E1;
      [|now apply to_float_raise_big_int in E1 as [-> _]].
    destruct (to_float (dict_get r (prefix ++ "_AbsoluteChange")%string))
      as [ac|e2] eqn:E2;
      [|now apply to_float_raise_big_int in E2 as [-> _]].
    destruct Hov as [Hb | [Hb | Hb]].
    + rewrite (big_int_to_float _ _ Hb) in E1. discriminate.
    + rewrite (big_int_to_float _ _ Hb) in E2. discriminate.
    + cbn [bind]. unfold get_prev_close_value.
      now rewrite (first_parsed_overflow _ _ Hb).
  - intros e H.
    destruct (to_float (dict_get r (prefix ++ "_LTP")%string)) as [ltp|e1] eqn:E1.
    2: { unfold add_change_fields in H. rewrite E1 in H. injection H as <-.
         apply to_float_raise_big_int in E1 as [-> Hb].
         split; [reflexivity | now left]. }
    destruct (to_float (dict_get r (prefix ++ "_AbsoluteChange")%string))
      as [ac|e2] eqn:E2.
    2: { unfold add_change_fields in H. rewrite E1, E2 in H. injection H as <-.
         apply to_float_raise_big_int in E2 as [-> Hb].
         split; [reflexivity | right; now left]. }
    destruct (get_prev_close_value r prefix) as [pc|e3] eqn:E3.
    2: { unfold add_change_fields in H. rewrite E1, E2, E3 in H.
         injection H as <-.
         apply first_parsed_raise_scan in E3 as [-> Hb].
         split; [reflexivity | right; now right]. }
    rewrite (add_change_fields_eq _ _ _ _ _ E1 E2 E3) in H. discriminate.
Qed.

Lemma row_105_reads : ~ read_overflows row_105 "CE".
Proof.
  assert (forall key, ~ big_int_at row_105 key) as Hb.
  { intros key (z & Hz & Hfin). unfold row_105 in Hz.
    rewrite !lookup_insert in Hz.
    repeat (destruct (decide (_ = key));
            [injection Hz as <-; vm_compute in Hfin; discriminate|]).
    now rewrite lookup_empty in Hz. }
  intros [H | [H | (pre & key & post & _ & _ & H)]]; exact (Hb _ H).
Qed.

Lemma C1_witness :
  add_change_fields row_105 "CE"
  = Ok (<["CE_PctChange"%string :=
            rounded_or_empty
              (spec_pct_change
                 (spec_prev_close (spec_alias_value row_105 "CE")
                    (number_of row_105 "CE_LTP") (number_of row_105 "CE_AbsoluteChange"))
                 (number_of row_105 "CE_LTP") (number_of row_105 "CE_AbsoluteChange"))]>
          (<["CE_PrevClose"%string :=
               rounded_or_empty
                 (spec_prev_close (spec_alias_value row_105 "CE")
                    (number_of row_105 "CE_LTP")
                    (number_of row_105 "CE_AbsoluteChange"))]> row_105)).
Proof. exact (proj1 (C1_derived_field_engine row_105 "CE") row_105_reads). Defined.

(** The values of the rules on the examples of the specification: 105
    and 5 without a previous close give 100 and 5.0; an explicit previous
    close of 100 with 105 gives 5.0; a previous close of zero gives an
    empty PctChange. *)
Example spec_rules_examples :
  spec_prev_close None (Some (F.of_Z 105)) (Some (F.of_Z 5)) = Some (F.of_Z 100) /\
  rounded_or_empty
    (spec_pct_change (Some (F.of_Z 100)) (Some (F.of_Z 105)) (Some (F.of_Z 5)))
  = VFloat (F.of_Z 5) /\
  rounded_or_empty (spec_pct_change (Some (F.of_Z 100)) (Some (F.of_Z 105)) None)
  = VFloat (F.of_Z 5) /\
  spec_pct_change (Some (F.of_Z 0)) (Some (F.of_Z 105)) (Some (F.of_Z 5)) = None.
Proof. repeat split; vm_compute; reflexivity. Qed.

(** The example of the specification: PrevClose is 100 and PctChange is
    5.0. *)
Example derived_fields_105 :
  exists r', add_change_fields row_105 "CE" = Ok r' /\
    r' !! "CE_PrevClose"%string = Some (VFloat (F.of_Z 100)) /\
    r' !! "CE_PctChange"%string = Some (VFloat (F.of_Z 5)).
Proof. eexists. split; [vm_compute; reflexivity|]. split; reflexivity. Qed.

(** A previous close of zero leaves PctChange empty. *)
Example derived_fields_zero_prev_close :
  exists r',
    add_change_fields (<["PE_PrevClose"%string := VInt 0]>
                         (<["PE_LTP"%string := VStr "105"]> ∅)) "PE" = Ok r' /\
    r' !! "PE_PctChange"%string = Some (VStr "").
Proof. eexists. split; [vm_compute; reflexivity|]. reflexivity. Qed.

(** An explicit previous close of 100 and LTP 105 give 5.0 without
    AbsoluteChange. *)
Example derived_fields_explicit_prev_close :
  exists r',
    add_change_fields (<["CE_PreviousClose"%string := VStr "100"]>
                         (<["CE_LTP"%string := VStr " 1,05 "]> ∅)) "CE" = Ok r' /\
    r' !! "CE_PctChange"%string = Some (VFloat (F.of_Z 5)).
Proof. eexists. split; [vm_compute; reflexivity|]. reflexivity. Qed.

(** A field holding an integer beyond the float range makes the read, and
    with it [add_change_fields], raise. *)
Example derived_fields_overflow :
  add_change_fields (<["CE_LTP"%string := VInt (10 ^ 400)]> ∅) "CE"
  = Raise OverflowError.
Proof. vm_compute. reflexivity. Qed.

(** The row of the counterexample: a previous close of zero, and an LTP
    that is an integer beyond the float range. *)
Definition row_big_ltp : row :=
  <["CE_PrevClose"%string := VInt 0]> (<["CE_LTP"%string := VInt (10 ^ 400)]> ∅).

(** C1, as the specification has it, fails on a row whose LTP is an
    integer beyond the float range: with a previous close of zero the
    claim promises an empty PctChange, and the engine raises an
    OverflowError and returns no row. *)
Theorem C1_counterexample :
  row_big_ltp !! "CE_PrevClose"%string = Some (VInt 0)
  /\ add_change_fields row_big_ltp "CE" = Raise OverflowError.
Proof. split; [reflexivity | vm_compute; reflexivity]. Qed.

(** ** C2: the freshness cache *)

Section CacheClaims.

Context {world response : Type}.
Context (status_code : response -> Z).
Context (session_get : world -> result unit * world).
Context (session_post : string -> option string -> world -> result response * world).
Context (response_rows : response -> result (list value)).
Context (marketwatch : string -> option string -> world -> result (list value) * world).
Context (fetch_nse : string -> option string -> bool -> world -> result (list value) * world).
Context (float_str : float -> string).
Context (ttl : Z).

Local Abbreviation fetch_mcx :=
  (fetch_mcx_option_chain world response status_code session_get session_post
     response_rows marketwatch).
Local Abbreviation fetch_src :=
  (fetch_source world response status_code session_get session_post
     response_rows marketwatch fetch_nse).
Local Abbreviation get_rows :=
  (get_cached_rows world response status_code session_get session_post
     response_rows marketwatch fetch_nse float_str ttl).
Local Abbreviation key_of := (cache_key float_str).



End CacheClaims.

(** A process whose "nse" fetcher answers with the one row [row_105]. *)
Definition one_row_fetcher (_ : string) (_ : option string) (_ : bool) (w : unit)
    : result (list value) * unit :=
  (Ok [VDict row_105], w).

Definition empty_state : state unit :=
  {| CACHE := ∅; upstream := tt; fetches := [] |}.

Definition one_row_get_cached_rows :=
  get_cached_rows unit unit (fun _ => 200) (fun w => (Ok tt, w))
    (fun _ _ w => (Ok tt, w)) (fun _ => Ok [])
    (fun _ _ w => (Ok [], w)) one_row_fetcher (fun _ => "5000.0"%string) 60.


(** ** C3: sentinel dates *)

(** Reading the text of a datetime back: the inverse of the calendar
    computation of [Date.civil_from_days], and readers for the layouts
    [YYYY-MM-DD HH:MM:SS] and [YYYY-MM-DD HH:MM:SS+HH:MM]. *)
Module IsoText.
Local Open Scope string_scope.
Local Open Scope Z_scope.

(** The day number, counted from 1970-01-01, of a date. *)
Definition days_from_civil (y m d : Z) : Z :=
  let y' := if m <=? 2 then y - 1 else y in
  let era := y' / 400 in
  let yoe := y' - era * 400 in
  let mp := if 2 <? m then m - 3 else m + 9 in
  let doy := (153 * mp + 2) / 5 + d - 1 in
  let doe := yoe * 365 + yoe / 4 - yoe / 100 + doy in
  era * 146097 + doe - 719468.

Definition read2 (s : string) : option (Z * string) :=
  match s with
  | String a (String b r) =>
      match Py.digit_val a, Py.digit_val b with
      | Some a, Some b => Some (10 * a + b, r)
      | _, _ => None
      end
  | _ => None
  end.

Definition expect (c : ascii) (s : string) : option string :=
  match s with
  | String a r => if Ascii.eqb a c then Some r else None
  | EmptyString => None
  end.

(** [YYYY-MM-DD HH:MM:SS]: the seconds on the local clock, and what
    follows the text. *)
Definition read_plain (s : string) : option (Z * string) :=
  '(c, s) ← read2 s; '(y, s) ← read2 s; s ← expect "-" s;
  '(m, s) ← read2 s; s ← expect "-" s;
  '(d, s) ← read2 s; s ← expect " " s;
  '(hh, s) ← read2 s; s ← expect ":" s;
  '(mi, s) ← read2 s; s ← expect ":" s;
  '(ss, s) ← read2 s;
  if (1 <=? m) && (m <=? 12) && (1 <=? d) && (d <=? 31)
     && (hh <? 24) && (mi <? 60) && (ss <? 60)
  then Some (days_from_civil (100 * c + y) m d * 86400 + hh * 3600 + mi * 60 + ss, s)
  else None.

(** The text is a [YYYY-MM-DD HH:MM:SS] and nothing more. *)
Definition plain_shape (s : string) : bool :=
  match read_plain s with
  | Some (_, EmptyString) => true
  | _ => false
  end.

(** [+HH:MM] or [-HH:MM]: the offset in minutes. *)
Definition read_offset (s : string) : option Z :=
  match s with
  | String c r =>
      if Date.is_sign c then
        '(hh, r) ← read2 r; r ← expect ":" r; '(mm, r) ← read2 r;
        if (String.eqb r "") && (hh <? 24) && (mm <? 60)
        then Some ((if Ascii.eqb c "-" then -1 else 1) * (60 * hh + mm))
        else None
      else None
  | EmptyString => None
  end.

Definition parse_iso (s : string) : option Date.datetime :=
  '(secs, r) ← read_plain s;
  off ← read_offset r;
  Some {| Date.local_seconds := secs; Date.utcoffset := off |}.

(** The calendar computation is inverted by [days_from_civil]. *)
Lemma civil_roundtrip (z : Z) :
  let '(y, m, d) := Date.civil_from_days z in
  days_from_civil y m d = z /\ 1 <= m <= 12 /\ 1 <= d <= 31.
Proof.
  unfold Date.civil_from_days, days_from_civil. cbv zeta.
  set (z' := z + 719468).
  set (era := z' / 146097).
  set (doe := z' - era * 146097).
  assert (0 <= doe < 146097) as Hdoe by (unfold doe, era; Z.div_mod_to_equations; lia).
  set (yoe := (doe - doe / 1460 + doe / 36524 - doe / 146096) / 365).
  assert (0 <= yoe <= 399) as Hyoe by (unfold yoe; Z.div_mod_to_equations; lia).
  set (doy := doe - (365 * yoe + yoe / 4 - yoe / 100)).
  assert (0 <= doy <= 365) as Hdoy by (unfold doy, yoe; Z.div_mod_to_equations; lia).
  set (mp := (5 * doy + 2) / 153).
  assert (0 <= mp <= 11) as Hmp by (unfold mp; Z.div_mod_to_equations; lia).
  set (d := doy - (153 * mp + 2) / 5 + 1).
  assert (1 <= d <= 31) as Hd by (unfold d, mp; Z.div_mod_to_equations; lia).
  destruct (Z.ltb_spec mp 10) as [Hlt|Hge].
  - destruct (Z.leb_spec (mp + 3) 2); [lia|].
    destruct (Z.ltb_spec 2 (mp + 3)); [|lia].
    replace (mp + 3 - 3) with mp by lia.
    replace ((yoe + era * 400 + 0) / 400) with era by (Z.div_mod_to_equations; lia).
    repeat split; try lia.
    unfold d, doy, z', doe. Z.div_mod_to_equations. lia.
  - destruct (Z.leb_spec (mp - 9) 2); [|lia].
    destruct (Z.ltb_spec 2 (mp - 9)); [lia|].
    replace (mp - 9 + 9) with mp by lia.
    replace ((yoe + era * 400 + 1 - 1) / 400) with era by (Z.div_mod_to_equations; lia).
    repeat split; try lia.
    unfold d, doy, z', doe. Z.div_mod_to_equations. lia.
Qed.

(** The years of the days between 0001-01-01 and 9999-12-31. *)
Lemma civil_year_range (z : Z) :
  -719162 <= z <= 2932896 ->
  let '(y, _, _) := Date.civil_from_days z in 1 <= y <= 9999.
Proof.
  intros Hz. unfold Date.civil_from_days. cbv zeta.
  set (z' := z + 719468).
  set (era := z' / 146097).
  set (doe := z' - era * 146097).
  assert (0 <= doe < 146097) as Hdoe by (unfold doe, era; Z.div_mod_to_equations; lia).
  assert (0 <= era <= 24) as Hera by (unfold era, z'; Z.div_mod_to_equations; lia).
  set (yoe := (doe - doe / 1460 + doe / 36524 - doe / 146096) / 365).
  assert (0 <= yoe <= 399) as Hyoe by (unfold yoe; Z.div_mod_to_equations; lia).
  set (doy := doe - (365 * yoe + yoe / 4 - yoe / 100)).
  assert (0 <= doy <= 365) as Hdoy by (unfold doy, yoe; Z.div_mod_to_equations; lia).
  set (mp := (5 * doy + 2) / 153).
  assert (0 <= mp <= 11) as Hmp
    by (unfold mp; clearbody doy; Z.div_mod_to_equations; lia).
  assert (era = 0 -> yoe = 0 -> 10 <= mp) as Hlo.
  { intros He Hy.
    assert (306 <= doy);
      [|unfold mp; clearbody doy; Z.div_mod_to_equations; lia].
    unfold doy. rewrite Hy. unfold doe. rewrite He. unfold z'.
    change (0 / 4) with 0. change (0 / 100) with 0. lia. }
  assert (era = 24 -> yoe = 399 -> mp < 10) as Hhi.
  { intros He Hy.
    assert (doy <= 305);
      [|unfold mp; clearbody doy; Z.div_mod_to_equations; lia].
    unfold doy. rewrite Hy. unfold doe. rewrite He. unfold z'.
    change (399 / 4) with 99. change (399 / 100) with 3. lia. }
  destruct (Z.ltb_spec mp 10) as [Hlt|Hge].
  - destruct (Z.leb_spec (mp + 3) 2) as [Hm|Hm]; lia.
  - destruct (Z.leb_spec (mp - 9) 2) as [Hm|Hm]; lia.
Qed.


Lemma digit_val_digit_char (d : Z) :
  Py.digit_val (Date.digit_char d) = Some (d mod 10).
Proof.
  unfold Date.digit_char.
  assert (0 <= d mod 10 < 10) as H by (apply Z.mod_pos_bound; lia).
  set (r := d mod 10) in *.
  assert (r = 0 \/ r = 1 \/ r = 2 \/ r = 3 \/ r = 4 \/ r = 5 \/ r = 6 \/ r = 7
          \/ r = 8 \/ r = 9) as Hr by lia.
  clearbody r.
  repeat (destruct Hr as [-> | Hr]; [reflexivity|]). now subst.
Qed.

Lemma read2_pad2 (n : Z) (r : string) :
  0 <= n -> read2 (Date.pad2 n r) = Some (n mod 100, r).
Proof.
  intros Hn. unfold Date.pad2, read2. rewrite !digit_val_digit_char.
  do 2 f_equal. Z.div_mod_to_equations. lia.
Qed.

Lemma read2_pad4 (n : Z) (r : string) :
  0 <= n <= 9999 -> read2 (Date.pad4 n r) = Some (n / 100, Date.pad2 n r).
Proof.
  intros Hn. unfold Date.pad4, read2. rewrite !digit_val_digit_char.
  do 2 f_equal. Z.div_mod_to_equations. lia.
Qed.

Lemma expect_same (c : ascii) (r : string) : expect c (String c r) = Some r.
Proof. unfold expect. now rewrite Ascii.eqb_refl. Qed.

(** The text of [isoformat] reads back as the datetime it was made from. *)
Lemma parse_iso_isoformat (dt : Date.datetime) :
  Date.in_range (Date.local_seconds dt) = true ->
  -1440 < Date.utcoffset dt < 1440 ->
  parse_iso (Date.isoformat dt) = Some dt.
Proof.
  destruct dt as [secs off]. cbn [Date.local_seconds Date.utcoffset].
  unfold Date.in_range, Date.min_seconds, Date.max_seconds.
  intros Hr Hoff. apply andb_prop in Hr as [Hlo Hhi].
  apply Z.leb_le in Hlo, Hhi.
  unfold Date.isoformat. cbn [Date.local_seconds Date.utcoffset].
  pose proof (civil_roundtrip (secs / 86400)) as Hrt.
  pose proof (civil_year_range (secs / 86400)) as Hy.
  destruct (Date.civil_from_days (secs / 86400)) as [[y m] d].
  destruct Hrt as (Hdays & Hm & Hd).
  assert (1 <= y <= 9999) as Hy' by (apply Hy; Z.div_mod_to_equations; lia).
  clear Hy.
  set (sod := secs mod 86400).
  assert (0 <= sod < 86400) as Hsod by (apply Z.mod_pos_bound; lia).
  set (ao := Z.abs off).
  assert (0 <= ao < 1440) as Hao by (unfold ao; lia).
  unfold parse_iso, read_plain.
  rewrite read2_pad4 by lia. cbn [mbind option_bind].
  rewrite read2_pad2 by lia. cbn [mbind option_bind]. rewrite expect_same.
  cbn [mbind option_bind].
  rewrite read2_pad2 by lia. cbn [mbind option_bind]. rewrite expect_same.
  cbn [mbind option_bind].
  rewrite read2_pad2 by lia. cbn [mbind option_bind]. rewrite expect_same.
  cbn [mbind option_bind].
  rewrite read2_pad2 by (Z.div_mod_to_equations; lia).
  cbn [mbind option_bind]. rewrite expect_same. cbn [mbind option_bind].
  rewrite read2_pad2 by (Z.div_mod_to_equations; lia).
  cbn [mbind option_bind]. rewrite expect_same. cbn [mbind option_bind].
  rewrite read2_pad2 by (Z.div_mod_to_equations; lia).
  cbn [mbind option_bind].
  rewrite (Z.mod_small m 100), (Z.mod_small d 100) by lia.
  rewrite (Z.mod_small (sod / 3600) 100) by (Z.div_mod_to_equations; lia).
  rewrite (Z.mod_small (sod / 60 mod 60) 100) by (Z.div_mod_to_equations; lia).
  rewrite (Z.mod_small (sod mod 60) 100) by (Z.div_mod_to_equations; lia).
  replace (100 * (y / 100) + y mod 100) with y by (Z.div_mod_to_equations; lia).
  assert ((1 <=? m) && (m <=? 12) && (1 <=? d) && (d <=? 31)
          && (sod / 3600 <? 24) && (sod / 60 mod 60 <? 60) && (sod mod 60 <? 60)
          = true) as ->.
  { repeat (apply andb_true_intro; split);
      first [apply Z.leb_le | apply Z.ltb_lt]; try lia;
      Z.div_mod_to_equations; lia. }
  cbn [mbind option_bind].
  assert (read_offset
            (String (if off <? 0 then "-" else "+")
               (Date.pad2 (ao / 60) (String ":" (Date.pad2 (ao mod 60) ""))))
          = Some off) as ->.
  { unfold read_offset.
    assert (Date.is_sign (if off <? 0 then "-" else "+") = true) as ->
      by now destruct (off <? 0).
    rewrite read2_pad2 by (Z.div_mod_to_equations; lia).
    cbn [mbind option_bind]. rewrite expect_same. cbn [mbind option_bind].
    rewrite read2_pad2 by (Z.div_mod_to_equations; lia).
    cbn [mbind option_bind].
    rewrite (Z.mod_small (ao / 60) 100) by (Z.div_mod_to_equations; lia).
    rewrite (Z.mod_small (ao mod 60) 100) by (Z.div_mod_to_equations; lia).
    assert ((String.eqb "" "") && (ao / 60 <? 24) && (ao mod 60 <? 60) = true) as ->.
    { repeat (apply andb_true_intro; split); [reflexivity| |];
        apply Z.ltb_lt; Z.div_mod_to_equations; lia. }
    f_equal. unfold ao in *.
    destruct (Z.ltb_spec off 0); simpl (Ascii.eqb _ _); cbv iota;
      Z.div_mod_to_equations; lia. }
  cbn [mbind option_bind]. do 2 f_equal. rewrite Hdays. unfold sod.
  Z.div_mod_to_equations. lia.
Qed.

End IsoText.

Lemma fromtimestamp_utc_offset (t : float) (dt : Date.datetime) :
  Date.fromtimestamp_utc t = Ok dt -> Date.utcoffset dt = 0.
Proof.
  unfold Date.fromtimestamp_utc. intros H.
  destruct (negb (F.is_finite t)); [discriminate|].
  destruct (Py.round_int _) as [us|]; [|discriminate]. cbn [bind] in H.
  destruct (Date.in_range _); [|discriminate]. now injection H as <-.
Qed.

(** What the claim says of [/Date(1700000000000+0530)/], and what the code
    returns for it: the text carries the offset of the zone after the
    time, so it is not a [YYYY-MM-DD HH:MM:SS]. *)
Lemma C3_counterexample :
  Date.match_date "/Date(1700000000000+0530)/"
    = Some (1700000000000, 13, Some (false, 5, 30)) /\
  parse_dotnet_date "/Date(1700000000000+0530)/" = Ok "2023-11-15 03:43:20+05:30"%string /\
  IsoText.plain_shape "2023-11-15 03:43:20+05:30" = false /\
  parse_dotnet_date "/Date(1700000000000)/" = Ok "2023-11-15 03:43:20+05:30"%string.
Proof. repeat split; vm_compute; reflexivity. Qed.

(** C3 (amended).  A string that does not match the sentinel encoding
    passes through unchanged.  For a matching one, [int] raises a
    ValueError when the milliseconds are written with more than 4300
    digits; otherwise milliseconds [<= 0] give the empty string, and
    positive milliseconds, whose timestamp the date library converts and
    whose offset is within a day, give the 25-character text
    [YYYY-MM-DD HH:MM:SS+HH:MM] (or [-HH:MM]) of the local time in the zone
    of the embedded offset, or in UTC+5:30 when there is none, followed by
    the offset of that zone. *)
Theorem C3_sentinel_dates (s : string) :
  (Date.match_date s = None -> parse_dotnet_date s = Ok s) /\
  (forall ms cnt off, Date.match_date s = Some (ms, cnt, off) ->
     Py.int_max_str_digits < cnt ->
     parse_dotnet_date s = Raise ValueError) /\
  (forall ms cnt off, Date.match_date s = Some (ms, cnt, off) ->
     cnt <= Py.int_max_str_digits -> ms <= 0 ->
     parse_dotnet_date s = Ok ""%string) /\
  (forall ms cnt off dt_utc tz,
     Date.match_date s = Some (ms, cnt, off) ->
     cnt <= Py.int_max_str_digits -> 0 < ms ->
     F.is_finite (F.of_ratio false ms 1000) = true ->
     Date.fromtimestamp_utc (F.of_ratio false ms 1000) = Ok dt_utc ->
     tz = match off with
          | Some (neg, hours, minutes) =>
              (if neg then -1 else 1) * (hours * 60 + minutes)
          | None => IST
          end ->
     -1440 < tz < 1440 ->
     Date.in_range (Date.local_seconds dt_utc + 60 * tz) = true ->
     exists out,
       parse_dotnet_date s = Ok out /\
       String.length out = 25%nat /\
       IsoText.parse_iso out =
         Some {| Date.local_seconds := Date.local_seconds dt_utc + 60 * tz;
                 Date.utcoffset := tz |}).
Proof.
  unfold parse_dotnet_date, Py.int_of_digits. split; [|split; [|split]].
  - now intros ->.
  - intros ms cnt off -> Hcnt.
    now destruct (Z.ltb_spec Py.int_max_str_digits cnt); [|lia].
  - intros ms cnt off -> Hcnt Hms.
    destruct (Z.ltb_spec Py.int_max_str_digits cnt); [lia|]. cbn [bind].
    now destruct (Z.leb_spec ms 0); [|lia].
  - intros ms cnt off dt_utc tz -> Hcnt Hms Hfin Hdt Htz Hday Hr.
    destruct (Z.ltb_spec Py.int_max_str_digits cnt); [lia|]. cbn [bind].
    destruct (Z.leb_spec ms 0); [lia|]. rewrite Hfin, Hdt. cbn [bind].
    pose proof (fromtimestamp_utc_offset _ _ Hdt) as Hoff.
    assert (Date.astimezone dt_utc tz
            = Ok {| Date.local_seconds := Date.local_seconds dt_utc + 60 * tz;
                    Date.utcoffset := tz |}) as Ha.
    { unfold Date.astimezone. rewrite Hoff.
      replace (Date.local_seconds dt_utc - 60 * 0 + 60 * tz)
        with (Date.local_seconds dt_utc + 60 * tz) by lia.
      now rewrite Hr. }
    assert (Date.timezone tz = Ok tz) as Hz.
    { unfold Date.timezone. destruct (Z.ltb_spec (-1440) tz); [|lia].
      now destruct (Z.ltb_spec tz 1440); [|lia]. }
    destruct off as [[[neg hours] minutes]|]; cbv zeta;
      rewrite <- Htz, ?Hz; cbn [bind]; rewrite Ha.
    all: eexists; (split; [reflexivity|]); split;
      [ unfold Date.isoformat; cbn [Date.local_seconds Date.utcoffset];
        now destruct (Date.civil_from_days _) as [[y m] d]
      | now apply IsoText.parse_iso_isoformat ].
Qed.

Lemma C3_witness :
  exists out,
    parse_dotnet_date "/Date(1700000000000+0530)/" = Ok out /\
    String.length out = 25%nat /\
    IsoText.parse_iso out =
      Some {| Date.local_seconds := 1700000000 + 60 * 330; Date.utcoffset := 330 |}.
Proof.
  apply (proj2 (proj2 (proj2 (C3_sentinel_dates "/Date(1700000000000+0530)/")))
           1700000000000 13 (Some (false, 5, 30))
           {| Date.local_seconds := 1700000000; Date.utcoffset := 0 |} 330);
    [reflexivity | unfold Py.int_max_str_digits; lia | lia | reflexivity
    | vm_compute; reflexivity | reflexivity | lia | reflexivity].
Defined.

(** The non-positive milliseconds of the specification, a string that is
    not a sentinel, and an offset to the west. *)
Example sentinel_date_examples :
  parse_dotnet_date "/Date(-1)/" = Ok ""%string /\
  parse_dotnet_date "/Date(0)/" = Ok ""%string /\
  parse_dotnet_date "12-Jan-2024" = Ok "12-Jan-2024"%string /\
  parse_dotnet_date "/Date(1700000000000-0800)/" = Ok "2023-11-14 14:13:20-08:00"%string.
Proof. repeat split; vm_compute; reflexivity. Qed.

(** A sentinel whose milliseconds are written with 4301 digits, zeros
    before a one: [int] refuses the text. *)
Example sentinel_date_long_digits :
  parse_dotnet_date
    ("/Date(" ++ string_of_list_ascii (replicate 4300 "0"%char) ++ "1)/")
  = Raise ValueError.
Proof. vm_compute. reflexivity. Qed.

(** ** C4: round strikes *)

(** The integer [n] is at most one half away from the number that the
    finite float [q] stands for. *)
Definition nearest_integer (q : float) (n : Z) : Prop :=
  match q with
  | S754_zero _ => n = 0
  | S754_finite s m e =>
      if 0 <=? e then n = cond_Zopp s (Zpos m * 2 ^ e)
      else Z.abs (2 * cond_Zopp s (Zpos m) - 2 * n * 2 ^ (- e)) <= 2 ^ (- e)
  | _ => False
  end.

Lemma rhe_nearest (n d : Z) :
  0 <= n -> 0 < d -> Z.abs (2 * n - 2 * F.rhe n d * d) <= d.
Proof.
  intros Hn Hd. unfold F.rhe. cbv zeta.
  pose proof (Z.div_mod n d ltac:(lia)) as Hdm.
  pose proof (Z.mod_pos_bound n d Hd) as Hr.
  set (q := n / d) in *. set (r := n mod d) in *. clearbody q r.
  destruct (Z.compare_spec (2 * r) d); [destruct (Z.even q)| |]; nia.
Qed.

Lemma round_int_nearest (q : float) (n : Z) :
  Py.round_int q = Ok n -> nearest_integer q n.
Proof.
  destruct q as [s|s| |s m e]; try discriminate; intros H; injection H as <-;
    [reflexivity|].
  unfold nearest_integer, F.scaled_rhe. cbn [Z.leb Z.compare].
  rewrite Z.pow_0_r, !Z.mul_1_r.
  destruct (Z.leb_spec 0 e) as [Hpos|Hneg]; rewrite ?Z.mul_1_r.
  - now rewrite FExact.rhe_1.
  - assert (0 < 2 ^ (- e)) as Hd by (apply Z.pow_pos_nonneg; lia).
    pose proof (rhe_nearest (Zpos m) (2 ^ (- e)) ltac:(lia) Hd) as Hn.
    destruct s; cbn [cond_Zopp]; lia.
Qed.

Lemma leb_zero_eqb (step : float) :
  F.leb step F.zero = false -> F.eqb step F.zero = false.
Proof. now destruct step as [[]|[]| |[] m e]. Qed.

(** What the claim says of the strike ["inf"], which [float] converts, and
    of the step 5000: a truth value; the code raises. *)
Lemma C4_counterexample :
  Py.float (VStr "inf") = Ok F.inf /\
  F.leb (F.of_Z 5000) F.zero = false /\
  is_round_strike (VStr "inf") (F.of_Z 5000) = Raise OverflowError /\
  is_round_strike (VStr "nan") (F.of_Z 5000) = Raise ValueError /\
  is_round_strike (VInt (10 ^ 400)) (F.of_Z 5000) = Raise OverflowError.
Proof. repeat split; vm_compute; reflexivity. Qed.

(** C4 (amended).  [is_round_strike] returns false when [float] rejects
    the strike with a TypeError or a ValueError; for a strike that [float]
    converts it returns true when [step <= 0]; otherwise, when the
    quotient [strike / step] is a finite number, it returns whether the
    quotient is less than [1e-6] away from [n], the integer nearest to it
    (at most one half away, ties to even). *)
Theorem C4_round_strike (v : value) (step : float) :
  (Py.float v = Raise TypeError \/ Py.float v = Raise ValueError ->
   is_round_strike v step = Ok false) /\
  (forall x, Py.float v = Ok x -> F.leb step F.zero = true ->
     is_round_strike v step = Ok true) /\
  (forall x, Py.float v = Ok x -> F.leb step F.zero = false ->
     FExact.finite_number (F.div x step) = true ->
     exists n : Z,
       Py.round_int (F.div x step) = Ok n /\
       nearest_integer (F.div x step) n /\
       is_round_strike v step
       = Ok (F.ltb (F.abs (F.sub (F.div x step) (F.of_Z n))) lit_1e_6)).
Proof.
  unfold is_round_strike. split; [|split].
  - now intros [-> | ->].
  - now intros x -> ->.
  - intros x -> Hs Hq. rewrite Hs. unfold Py.truediv.
    rewrite (leb_zero_eqb _ Hs). cbn [bind].
    destruct (FExact.round_int_float_of_int _ Hq) as (n & nf & Hn & Hnf).
    exists n. split; [exact Hn|]. split; [now apply round_int_nearest|].
    rewrite Hn. cbn [bind]. rewrite Hnf. cbn [bind].
    unfold Py.float_of_int in Hnf.
    destruct (F.is_finite (F.of_Z n)); [|discriminate]. now injection Hnf as <-.
Qed.

Lemma C4_witness :
  exists n : Z,
    Py.round_int (F.div (F.of_Z 10001) (F.of_Z 5000)) = Ok n /\
    nearest_integer (F.div (F.of_Z 10001) (F.of_Z 5000)) n /\
    is_round_strike (VInt 10001) (F.of_Z 5000)
    = Ok (F.ltb (F.abs (F.sub (F.div (F.of_Z 10001) (F.of_Z 5000)) (F.of_Z n)))
            lit_1e_6).
Proof.
  apply (proj2 (proj2 (C4_round_strike (VInt 10001) (F.of_Z 5000)))
           (F.of_Z 10001)); reflexivity.
Defined.

(** The examples of the specification. *)
Example round_strike_examples :
  is_round_strike (VInt 10000) (F.of_Z 5000) = Ok true /\
  is_round_strike (VInt 10001) (F.of_Z 5000) = Ok false /\
  is_round_strike (VStr "10000.0") (F.of_Z 5000) = Ok true /\
  is_round_strike (VStr "n/a") (F.of_Z 5000) = Ok false /\
  is_round_strike VNone (F.of_Z 5000) = Ok false /\
  (forall v x, Py.float v = Ok x -> is_round_strike v F.zero = Ok true).
Proof.
  repeat split; try (vm_compute; reflexivity).
  intros v x Hx. unfold is_round_strike. now rewrite Hx.
Qed.

(** ** C5: sorting by strike *)

Definition strike_row (strike : value) : value :=
  VDict (<["CE_StrikePrice"%string := strike]> ∅).

(** What the claim says of three rows with the strikes 1, ["nan"] and 0:
    an ascending order; the code returns them as they came, the strike 1
    before the strike 0. *)
Lemma C5_counterexample :
  let rows := [strike_row (VInt 1); strike_row (VStr "nan"); strike_row (VInt 0)] in
  sort_rows_by_strike rows = Ok rows /\
  strike_key (strike_row (VInt 1)) = Ok (F.of_Z 1) /\
  strike_key (strike_row (VInt 0)) = Ok (F.of_Z 0) /\
  F.ltb (F.of_Z 0) (F.of_Z 1) = true /\
  ~ StronglySorted strike_le rows.
Proof.
  cbv zeta. repeat split; try (vm_compute; reflexivity).
  intros H. apply StronglySorted_inv in H as [_ H].
  apply Forall_cons in H as [_ H]. apply Forall_cons in H as [H _].
  destruct H as (ka & kb & Ha & Hb & Hle).
  vm_compute in Ha, Hb. injection Ha as <-. injection Hb as <-. discriminate.
Qed.

(** C5 (amended).  For every list of rows whose strike keys are computed
    (the numeric coercion of the strike, [inf] when [float] rejects it
    with a TypeError or a ValueError) and are not NaN,
    [sort_rows_by_strike] returns a permutation of the input, ascending
    by key, in which the rows of equal key keep their encounter order; a
    row whose strike does not coerce, among rows with lesser keys, is the
    last one wherever it stood in the input. *)
Theorem C5_sort_by_strike (rows : list value) (ks : list float) :
  Py.mapM strike_key rows = Ok ks ->
  Forall (fun k => F.is_nan k = false) ks ->
  exists out,
    sort_rows_by_strike rows = Ok out /\
    out ≡ₚ rows /\
    StronglySorted strike_le out /\
    (forall k, List.filter (has_strike k) out = List.filter (has_strike k) rows) /\
    (forall pre post d,
       rows = pre ++ VDict d :: post ->
       Py.float (dict_get d "CE_StrikePrice") = Raise TypeError \/
       Py.float (dict_get d "CE_StrikePrice") = Raise ValueError ->
       (forall y, y ∈ pre ++ post ->
          exists k, strike_key y = Ok k /\ F.ltb k F.inf = true) ->
       last out = Some (VDict d)).
Proof.
  intros Hks Hn. unfold sort_rows_by_strike.
  pose proof (sorted_eq _ _ _ Hks) as Heq. eexists. split; [exact Heq|].
  pose proof (sorted_perm _ _ _ Heq) as Hperm.
  pose proof (sort_rows_sorted _ _ Hks Hn) as Hsorted.
  split; [exact Hperm|]. split; [exact Hsorted|]. split.
  - intros k. now apply sort_rows_stable.
  - intros pre post d Hrows Hd Hothers.
    apply (sorted_last _ pre post); [now rewrite <- Hrows | assumption | | assumption].
    now apply strike_key_noncoercible.
Qed.

Lemma C5_witness :
  exists out,
    sort_rows_by_strike
      [strike_row (VStr "n/a"); strike_row (VInt 200); strike_row (VStr "100")]
    = Ok out /\
    StronglySorted strike_le out /\
    last out = Some (strike_row (VStr "n/a")).
Proof.
  destruct (C5_sort_by_strike
              [strike_row (VStr "n/a"); strike_row (VInt 200); strike_row (VStr "100")]
              [F.inf; F.of_Z 200; F.of_Z 100])
    as (out & Hout & _ & Hsorted & _ & Hlast).
  - reflexivity.
  - repeat constructor.
  - exists out. split; [exact Hout|]. split; [exact Hsorted|].
    apply (Hlast [] [strike_row (VInt 200); strike_row (VStr "100")]
             (<["CE_StrikePrice"%string := VStr "n/a"]> ∅)).
    + reflexivity.
    + right. reflexivity.
    + intros y Hy. apply elem_of_cons in Hy as [-> | Hy];
        [exists (F.of_Z 200); split; reflexivity|].
      apply elem_of_cons in Hy as [-> | Hy];
        [exists (F.of_Z 100); split; reflexivity|].
      now apply elem_of_nil in Hy.
Defined.

(** The row with the strike that does not coerce is last, and equal
    strikes keep their order. *)
Example sort_rows_examples :
  sort_rows_by_strike
    [strike_row (VStr "n/a"); strike_row (VInt 200); strike_row (VStr "100")]
  = Ok [strike_row (VStr "100"); strike_row (VInt 200); strike_row (VStr "n/a")] /\
  sort_rows_by_strike
    [strike_row (VInt 200); strike_row (VStr "n/a"); strike_row (VStr "100")]
  = Ok [strike_row (VStr "100"); strike_row (VInt 200); strike_row (VStr "n/a")] /\
  sort_rows_by_strike
    [strike_row (VStr "200.0"); strike_row (VInt 100); strike_row (VInt 200)]
  = Ok [strike_row (VInt 100); strike_row (VStr "200.0"); strike_row (VInt 200)].
Proof. repeat split; vm_compute; reflexivity. Qed.

(** ** C6: the ATM window *)

(** What the claim says of the sorted rows with the strikes ["nan"] and
    100, the underlying 100 and the window 0: the row nearest to the
    underlying, the second, whose distance is 0; the code returns the
    first row, whose distance is NaN. *)
Lemma C6_counterexample :
  let rows := [strike_row (VStr "nan"); strike_row (VInt 100)] in
  sort_rows_by_strike rows = Ok rows /\
  filter_atm_window rows (Some (F.of_Z 100)) 0 = Ok [strike_row (VStr "nan")] /\
  Py.mapM strike_key rows = Ok [F.nan; F.of_Z 100] /\
  F.abs (F.sub (F.of_Z 100) (F.of_Z 100)) = F.zero /\
  ~ first_min (map (fun s => F.abs (F.sub s (F.of_Z 100))) [F.nan; F.of_Z 100]) 0.
Proof.
  cbv zeta. repeat split; try (vm_compute; reflexivity).
  intros (d & Hd & Hle & _). injection Hd as <-.
  specialize (Hle 1%nat _ eq_refl). discriminate.
Qed.

(** C6 (amended).  For every window size [>= 0]: [filter_atm_window]
    returns its input when the underlying is unknown or there is no row;
    otherwise, when the strike keys are computed (non-coercible strikes
    count as [inf]) and no distance [|strike - underlying|] is NaN, it
    takes the first index [i] of a least distance and returns the rows at
    the positions [i - window] to [i + window], clipped to the list. *)
Theorem C6_atm_window (rows : list value) (underlying : option float) (window : Z) :
  0 <= window ->
  (underlying = None \/ rows = [] ->
   filter_atm_window rows underlying window = Ok rows) /\
  (forall u ks,
     underlying = Some u -> rows <> [] ->
     Py.mapM strike_key rows = Ok ks ->
     Forall (fun k => F.is_nan (F.abs (F.sub k u)) = false) ks ->
     exists i : nat,
       first_min (map (fun s => F.abs (F.sub s u)) ks) i /\
       let w := Z.to_nat window in
       filter_atm_window rows underlying window
       = Ok (take (Nat.min (length rows) (i + w + 1) - (i - w)) (drop (i - w) rows))).
Proof.
  intros Hw. unfold filter_atm_window. split.
  - intros [-> | ->]; [reflexivity | now destruct underlying].
  - intros u ks -> Hne Hks Hn.
    destruct rows as [|r rows]; [congruence|]. rewrite Hks. cbn [bind].
    assert (ks <> []) as Hkne.
    { intros ->. simpl in Hks. destruct (strike_key r); [|discriminate].
      cbn [bind] in Hks. now destruct (Py.mapM strike_key rows). }
    destruct (min_index_spec (map (fun s => F.abs (F.sub s u)) ks))
      as (i & Hi & Hmin).
    + now destruct ks.
    + now rewrite Forall_map.
    + exists i. split; [exact Hmin|]. cbv zeta.
      destruct ks as [|k ks]; [congruence|]. rewrite Hi. cbn [bind].
      rewrite slice_between by lia. do 2 f_equal; [|f_equal]; lia.
Qed.

Definition five_rows : list value :=
  map (fun k => strike_row (VInt k)) [100; 200; 300; 400; 500].

Lemma C6_witness :
  exists i : nat,
    first_min (map (fun s => F.abs (F.sub s (F.of_Z 290)))
                 (map F.of_Z [100; 200; 300; 400; 500])) i /\
    filter_atm_window five_rows (Some (F.of_Z 290)) 1
    = Ok (take (Nat.min (length five_rows) (i + 1 + 1) - (i - 1))
               (drop (i - 1) five_rows)).
Proof.
  apply (proj2 (C6_atm_window five_rows (Some (F.of_Z 290)) 1 ltac:(lia))
           (F.of_Z 290) (map F.of_Z [100; 200; 300; 400; 500]));
    [reflexivity | discriminate | reflexivity | repeat constructor].
Defined.

(** The example of the specification: the strikes 200, 300 and 400. *)
Example atm_window_example :
  filter_atm_window five_rows (Some (F.of_Z 290)) 1
  = Ok (map (fun k => strike_row (VInt k)) [200; 300; 400]).
Proof. vm_compute. reflexivity. Qed.

(** * Further properties *)

(** ** The scan for the underlying price *)

Definition two_underlying_rows : list value :=
  [ VDict (<["UnderlyingValue"%string := VStr "n/a"]> ∅);
    VDict (<["underlyingValue"%string := VInt 24000]> ∅) ].

(** The underlying price is the number of the first value, scanning the
    rows in order and in each row the alias keys in order, that is neither
    empty nor null and that [float] converts; values that [float] rejects
    with a TypeError or a ValueError are passed over.  When there is no
    such value, in particular when no row carries such a field, the
    underlying is unknown, the ATM window returns its rows unchanged, and
    the selection is the pagination of the sorted rows. *)
Theorem underlying_value_scan (rows : list value) :
  (forall pre v post f,
     candidates rows = pre ++ v :: post -> Forall rejected pre ->
     Py.float v = Ok f ->
     get_underlying_value rows = Ok (Some f)) /\
  (Forall rejected (candidates rows) -> get_underlying_value rows = Ok None) /\
  (candidates rows = [] -> get_underlying_value rows = Ok None) /\
  (forall rows' window, filter_atm_window rows' None window = Ok rows') /\
  (forall sorted mode window offset limit,
     get_underlying_value rows = Ok None ->
     sort_rows_by_strike rows = Ok sorted ->
     option_chain_rows rows mode window offset limit
     = Ok (apply_offset_limit sorted offset limit)).
Proof.
  rewrite get_underlying_value_first_float.
  split; [|split; [|split; [|split]]].
  - intros pre v post f -> Hpre Hv. now apply first_float_accepts.
  - apply first_float_rejected.
  - now intros ->.
  - reflexivity.
  - intros sorted mode window offset limit Hu Hs. unfold option_chain_rows.
    rewrite get_underlying_value_first_float, Hu, Hs. cbn [bind].
    now destruct (bool_decide _).
Qed.

Lemma underlying_value_scan_witness :
  get_underlying_value two_underlying_rows = Ok (Some (F.of_Z 24000)).
Proof.
  apply (proj1 (underlying_value_scan two_underlying_rows)
           [VStr "n/a"] (VInt 24000) []).
  - reflexivity.
  - apply Forall_cons_2; [right; reflexivity | apply Forall_nil_2].
  - reflexivity.
Defined.

(** The float literal [24010.5]. *)
Definition lit_24010_5 : float :=
  Eval vm_compute in Py.float_of_decimal false 240105 (-1).

(** The first alias key with a value wins within a row, the first row
    among rows; empty strings and nulls are skipped; no field, no
    underlying. *)
Example underlying_value_examples :
  get_underlying_value
    [ VDict (<["UnderlineValue"%string := VStr "24010.5"]>
               (<["UnderlyingValue"%string := VStr ""]> ∅));
      VDict (<["UnderlyingValue"%string := VInt 1]> ∅) ]
  = Ok (Some lit_24010_5) /\
  get_underlying_value [strike_row (VInt 100); VNone] = Ok None /\
  get_underlying_value [] = Ok None.
Proof. repeat split; vm_compute; reflexivity. Qed.

(** ** Pages *)

(** With an offset [o >= 0] and limits [n, m >= 0]: a page holds
    [min n (len - o)] rows, the rows at the positions [o] to [o + n - 1];
    the page after it starts where it ends, so that two consecutive pages
    are the page of both limits together, and a page with the unlimited
    rest after it is the unlimited page; no offset, or a negative one, is
    the offset 0. *)
Theorem pagination_pages (rows : list value) (o n m : Z) :
  0 <= o -> 0 <= n -> 0 <= m ->
  length (apply_offset_limit rows (Some o) (Some n))
    = Nat.min (Z.to_nat n) (length rows - Z.to_nat o) /\
  (forall j : nat, (j < Z.to_nat n)%nat ->
     apply_offset_limit rows (Some o) (Some n) !! j = rows !! (Z.to_nat o + j)%nat) /\
  apply_offset_limit rows (Some o) (Some n)
    ++ apply_offset_limit rows (Some (o + n)) (Some m)
    = apply_offset_limit rows (Some o) (Some (n + m)) /\
  apply_offset_limit rows (Some o) (Some n)
    ++ apply_offset_limit rows (Some (o + n)) None
    = apply_offset_limit rows (Some o) None /\
  (forall limit o', o' <= 0 ->
     apply_offset_limit rows (Some o') limit = apply_offset_limit rows None limit).
Proof.
  intros Ho Hn Hm.
  pose proof (apply_offset_limit_eq rows (Some o)) as Heq.
  pose proof (apply_offset_limit_eq rows (Some (o + n))) as Heq'.
  cbv zeta in Heq, Heq'. cbn [default from_option id] in Heq, Heq'.
  rewrite (Heq (Some n)), (Heq (Some (n + m))), (Heq None),
    (Heq' (Some m)), (Heq' None).
  destruct (Z.leb_spec 0 n); [|lia]. destruct (Z.leb_spec 0 m); [|lia].
  destruct (Z.leb_spec 0 (n + m)); [|lia].
  replace (Z.to_nat (o + n)) with (Z.to_nat o + Z.to_nat n)%nat by lia.
  replace (Z.to_nat (n + m)) with (Z.to_nat n + Z.to_nat m)%nat by lia.
  rewrite <- !drop_drop.
  split; [rewrite length_take, length_drop; lia|].
  split; [intros j Hj; now rewrite lookup_take_lt, lookup_drop by lia|].
  split; [apply take_take_drop|].
  split; [apply take_drop|].
  intros limit o' Ho'. unfold apply_offset_limit.
  destruct (Z.ltb_spec o' 0); [reflexivity|].
  now replace o' with 0 by lia.
Qed.

Lemma pagination_pages_witness :
  length (apply_offset_limit five_rows (Some 2) (Some 2)) = 2%nat /\
  apply_offset_limit five_rows (Some 2) (Some 2) !! 1%nat = five_rows !! 3%nat.
Proof.
  destruct (pagination_pages five_rows 2 2 0 ltac:(lia) ltac:(lia) ltac:(lia))
    as (Hlen & Hget & _).
  split; [exact Hlen|]. apply (Hget 1%nat). simpl. lia.
Defined.

(** ** Failed fetches and served rows *)

Section CacheBehaviour.

Context {world response : Type}.
Context (status_code : response -> Z).
Context (session_get : world -> result unit * world).
Context (session_post : string -> option string -> world -> result response * world).
Context (response_rows : response -> result (list value)).
Context (marketwatch : string -> option string -> world -> result (list value) * world).
Context (fetch_nse : string -> option string -> bool -> world -> result (list value) * world).
Context (float_str : float -> string).
Context (ttl : Z).

Local Abbreviation get_rows :=
  (get_cached_rows world response status_code session_get session_post
     response_rows marketwatch fetch_nse float_str ttl).
Local Abbreviation key_of := (cache_key float_str).
Local Abbreviation reached :=
  (reachable status_code session_get session_post response_rows marketwatch
     fetch_nse float_str ttl).

(** A call of [get_cached_rows] that raises found no entry that it could
    return, and leaves the cache as it was: no entry is stored or
    overwritten, and an entry that is still live is what the next unforced
    call with its key returns, whatever the failed call asked for. *)
Theorem failed_fetch_keeps_cache (source symbol : string) (expiry : option string)
    (step : float) (all_strikes force : bool) (now : float)
    (st st1 : state world) (e : exn) :
  get_rows source symbol expiry step all_strikes force now st = (Raise e, st1) ->
  cache_miss ttl force now (key_of source symbol expiry step all_strikes) st /\
  CACHE world st1 = CACHE world st /\
  forall source' symbol' expiry' step' all_strikes' now' e0,
    CACHE world st !! key_of source' symbol' expiry' step' all_strikes' = Some e0 ->
    live ttl now' e0 = true ->
    get_rows source' symbol' expiry' step' all_strikes' false now' st1
    = (Ok (rows e0, fetched_at e0), st1).
Proof.
  intros H.
  pose proof (get_cached_rows_raise _ _ _ _ _ _ _ _ _ _ _ _ _ _ _ _ _ _ H) as Hc.
  split; [|split; [exact Hc|]].
  - destruct (hit_or_miss ttl force now
                (key_of source symbol expiry step all_strikes) st)
      as [(-> & e0 & He & Hl) | Hmiss]; [|exact Hmiss].
    rewrite (get_cached_rows_hit _ _ _ _ _ _ _ _ _ _ _ _ _ _ _ _ He Hl) in H.
    discriminate.
  - intros source' symbol' expiry' step' all_strikes' now' e0 He Hl.
    apply get_cached_rows_hit; [now rewrite Hc | exact Hl].
Qed.

(** In every state that the process reaches, the rows that
    [get_cached_rows] returns, from the cache or from a fetch, and the
    rows that the selection of [option_chain] keeps of them, carry the four
    derived fields, each a float rounded to two decimals or the empty
    string. *)
Theorem served_rows_derived_ok (source symbol : string) (expiry : option string)
    (step : float) (all_strikes force : bool) (now t : float)
    (st st1 : state world) (rs out : list value)
    (mode : option string) (window offset limit : option Z) :
  reached st ->
  get_rows source symbol expiry step all_strikes force now st = (Ok (rs, t), st1) ->
  option_chain_rows rs mode window offset limit = Ok out ->
  Forall derived_ok rs /\ Forall derived_ok out /\ reached st1 /\
  cache_ok (CACHE world st1).
Proof.
  intros Hst Hget Hsel.
  pose proof (reachable_cache_ok _ _ _ _ _ _ _ _ _ Hst) as Hinv.
  destruct (get_cached_rows_ok _ _ _ _ _ _ _ _ _ _ _ _ _ _ _ _ _ _ _ Hinv Hget)
    as [Hrs Hinv1].
  split; [exact Hrs|]. split; [|split; [|exact Hinv1]].
  - eapply option_chain_rows_Forall; eauto.
  - eapply reachable_call; eauto.
Qed.

End CacheBehaviour.

(** A process whose "nse" fetcher fails. *)
Definition failing_fetcher (_ : string) (_ : option string) (_ : bool) (w : unit)
    : result (list value) * unit :=
  (Raise RequestException, w).

Definition failing_get_cached_rows :=
  get_cached_rows unit unit (fun _ => 200) (fun w => (Ok tt, w))
    (fun _ _ w => (Ok tt, w)) (fun _ => Ok [])
    (fun _ _ w => (Ok [], w)) failing_fetcher (fun _ => "5000.0"%string) 60.

(** The state with one entry, fetched at 1700000000. *)
Definition one_entry_state : state unit :=
  {| CACHE := {[ "nse:NIFTY::5000.0:True"%string :=
                   {| rows := [VDict row_105]; fetched_at := F.of_Z 1700000000 |} ]};
     upstream := tt; fetches := [] |}.

Lemma failed_fetch_keeps_cache_witness :
  exists st1,
    failing_get_cached_rows "nse" "NIFTY" None (F.of_Z 5000) true true
      (F.of_Z 1700000030) one_entry_state = (Raise RequestException, st1) /\
    failing_get_cached_rows "nse" "NIFTY" None (F.of_Z 5000) true false
      (F.of_Z 1700000040) st1 = (Ok ([VDict row_105], F.of_Z 1700000000), st1).
Proof.
  eexists. split; [reflexivity|].
  refine (proj2 (proj2 (failed_fetch_keeps_cache (fun _ : unit => 200) (fun w => (Ok tt, w))
            (fun _ _ w => (Ok tt, w)) (fun _ => Ok [])
            (fun _ _ w => (Ok [], w)) failing_fetcher (fun _ => "5000.0"%string) 60
            "nse" "NIFTY" None (F.of_Z 5000) true true (F.of_Z 1700000030)
            one_entry_state _ RequestException eq_refl))
            "nse" "NIFTY" None (F.of_Z 5000) true (F.of_Z 1700000040)
            {| rows := [VDict row_105]; fetched_at := F.of_Z 1700000000 |} _ _);
    reflexivity.
Defined.

Lemma served_rows_derived_ok_witness :
  exists rs out st1,
    one_row_get_cached_rows "nse" "NIFTY" None (F.of_Z 5000) true false
      (F.of_Z 1700000000) empty_state = (Ok (rs, F.of_Z 1700000000), st1) /\
    option_chain_rows rs None None None (Some 10) = Ok out /\
    Forall derived_ok out.
Proof.
  eexists _, _, _. split; [reflexivity|]. split; [reflexivity|].
  refine (proj1 (proj2 (served_rows_derived_ok (fun _ : unit => 200) (fun w => (Ok tt, w))
            (fun _ _ w => (Ok tt, w)) (fun _ => Ok [])
            (fun _ _ w => (Ok [], w)) one_row_fetcher (fun _ => "5000.0"%string) 60
            "nse" "NIFTY" None (F.of_Z 5000) true false (F.of_Z 1700000000)
            (F.of_Z 1700000000) empty_state _ _ _ None None None (Some 10)
            (reachable_start _ _ _ _ _ _ _ _ tt) eq_refl eq_refl))).
Defined.

(** * Output rows *)

(** ** Dictionaries built from items *)

Module PyDict.

(** A dictionary display or comprehension: the items are stored in order,
    a later item replacing an earlier one with the same key. *)
Definition of_items (items : list (string * value)) : row :=
  foldl (fun (m : row) kv => <[kv.1 := kv.2]> m) ∅ items.

(** [d.get(key, default)] *)
Definition get_or (d : row) (key : string) (dflt : value) : value :=
  default dflt (d !! key).

(** The truth value of an object. *)
Definition truthy (v : value) : bool :=
  match v with
  | VNone => false
  | VBool b => b
  | VInt z => negb (z =? 0)
  | VFloat f => negb (F.eqb f F.zero)
  | VStr s => negb (String.eqb s "")
  | VList l => negb (bool_decide (l = []))
  | VDict d => negb (bool_decide (d = ∅))
  end.

(** [a or b] *)
Definition or_else (a b : value) : value := if truthy a then a else b.

End PyDict.

Lemma foldl_insert_lookup (items : list (string * value)) (m : row) (k : string) :
  NoDup items.*1 ->
  (forall v, (k, v) ∈ items ->
     foldl (fun (m : row) kv => <[kv.1 := kv.2]> m) m items !! k = Some v) /\
  (k ∉ items.*1 ->
     foldl (fun (m : row) kv => <[kv.1 := kv.2]> m) m items !! k = m !! k).
Proof.
  revert m. induction items as [|[k0 v0] items IH]; intros m Hnd; simpl.
  - split; [intros v Hv; now apply elem_of_nil in Hv | reflexivity].
  - apply NoDup_cons in Hnd as [Hk0 Hnd].
    destruct (IH (<[k0 := v0]> m) Hnd) as [IH1 IH2]. split.
    + intros v Hv. apply elem_of_cons in Hv as [[= -> ->] | Hv]; [|now apply IH1].
      rewrite IH2 by assumption. apply lookup_insert_eq.
    + intros Hk. apply not_elem_of_cons in Hk as [Hne Hk].
      rewrite IH2 by assumption. now apply lookup_insert_ne.
Qed.

Lemma of_items_lookup (items : list (string * value)) (k : string) (v : value) :
  NoDup items.*1 -> (k, v) ∈ items -> PyDict.of_items items !! k = Some v.
Proof. intros Hnd. now apply foldl_insert_lookup. Qed.

Lemma of_items_dom (items : list (string * value)) :
  dom (PyDict.of_items items) = list_to_set items.*1.
Proof.
  unfold PyDict.of_items.
  assert (forall m : row,
            dom (foldl (fun (m : row) kv => <[kv.1 := kv.2]> m) m items)
            = list_to_set items.*1 ∪ dom m) as H.
  { induction items as [|[k v] items IH]; intros m; simpl.
    - now rewrite (left_id_L ∅ (∪)).
    - rewrite IH, dom_insert_L, (assoc_L (∪)).
      now rewrite (comm_L (∪) (list_to_set items.*1) {[k]}). }
  now rewrite H, dom_empty_L, (right_id_L ∅ (∪)).
Qed.

(** ** [to_output_rows] and [to_lite_rows] *)

Definition OUTPUT_COLUMNS : list string :=
  [ "CE_OpenInterest"; "CE_ChangeInOI"; "CE_Volume"; "CE_AbsoluteChange";
    "CE_BidQty"; "CE_BidPrice"; "CE_AskPrice"; "CE_AskQty"; "CE_LTP";
    "CE_PrevClose"; "CE_PctChange"; "CE_StrikePrice"; "PE_LTP";
    "PE_PrevClose"; "PE_PctChange"; "PE_BidQty"; "PE_BidPrice";
    "PE_AskPrice"; "PE_AskQty"; "PE_AbsoluteChange"; "PE_Volume";
    "PE_ChangeInOI"; "PE_OpenInterest" ]%string.

Definition OUTPUT_HEADERS : list string :=
  [ "CALL_OI_Lots"; "CALL_Chng_in_OI"; "CALL_Volume"; "CALL_Abs_Chng";
    "CALL_Bid_Qty"; "CALL_Bid_Price"; "CALL_Ask_Price"; "CALL_Ask_Qty";
    "CALL_LTP"; "CALL_Prev_Close"; "CALL_Pct_Chng"; "Strike_Price";
    "PUT_LTP"; "PUT_Prev_Close"; "PUT_Pct_Chng"; "PUT_Bid_Qty";
    "PUT_Bid_Price"; "PUT_Ask_Price"; "PUT_Ask_Qty"; "PUT_Abs_Chng";
    "PUT_Volume"; "PUT_Chng_in_OI"; "PUT_OI_Lots" ]%string.

Definition LITE_HEADERS : list string :=
  [ "strike"; "ce_ltp"; "ce_bid"; "ce_ask"; "ce_oi"; "ce_volume";
    "pe_ltp"; "pe_bid"; "pe_ask"; "pe_oi"; "pe_volume" ]%string.

(** The items of [LITE_MAP], in order. *)
Definition LITE_MAP : list (string * string) :=
  [ ("strike", "Strike_Price"); ("ce_ltp", "CALL_LTP");
    ("ce_bid", "CALL_Bid_Price"); ("ce_ask", "CALL_Ask_Price");
    ("ce_oi", "CALL_OI_Lots"); ("ce_volume", "CALL_Volume");
    ("pe_ltp", "PUT_LTP"); ("pe_bid", "PUT_Bid_Price");
    ("pe_ask", "PUT_Ask_Price"); ("pe_oi", "PUT_OI_Lots");
    ("pe_volume", "PUT_Volume") ]%string.

(** The body of the loop of [to_output_rows].  [OUTPUT_HEADERS[i]] and
    [OUTPUT_COLUMNS[i]] for [i in range(len(OUTPUT_COLUMNS))] are the
    pairs of the two lists, which have the same length. *)
Definition output_row (d : row) : row :=
  let trimmed :=
    PyDict.of_items
      (map (fun key => (key, PyDict.get_or d key (VStr ""))) OUTPUT_COLUMNS) in
  PyDict.of_items
    (map (fun hc : string * string => (hc.1, PyDict.get_or trimmed hc.2 (VStr "")))
         (zip OUTPUT_HEADERS OUTPUT_COLUMNS)).

(** A row that is not a dictionary has no [get]. *)
Fixpoint to_output_rows (rows : list value) : result (list value) :=
  match rows with
  | [] => Ok []
  | VDict d :: rest =>
      let! rest' := to_output_rows rest in
      Ok (VDict (output_row d) :: rest')
  | _ :: _ => Raise AttributeError
  end.

Definition lite_row (d : row) : row :=
  PyDict.of_items
    (map (fun ks : string * string => (ks.1, PyDict.get_or d ks.2 (VStr ""))) LITE_MAP).

Fixpoint to_lite_rows (rows : list value) : result (list value) :=
  match rows with
  | [] => Ok []
  | VDict d :: rest =>
      let! rest' := to_lite_rows rest in
      Ok (VDict (lite_row d) :: rest')
  | _ :: _ => Raise AttributeError
  end.

Lemma OUTPUT_COLUMNS_NoDup : NoDup OUTPUT_COLUMNS.
Proof. apply (bool_decide_unpack _). vm_compute. exact I. Qed.

Lemma OUTPUT_HEADERS_NoDup : NoDup OUTPUT_HEADERS.
Proof. apply (bool_decide_unpack _). vm_compute. exact I. Qed.

Lemma get_or_present (d : row) (key : string) (v dflt : value) :
  d !! key = Some v -> PyDict.get_or d key dflt = v.
Proof. unfold PyDict.get_or. now intros ->. Qed.

(** The value under a header is the value of the row under the column at
    the same position, or the empty string. *)
Lemma output_row_lookup (d : row) (i : nat) (h c : string) :
  OUTPUT_HEADERS !! i = Some h -> OUTPUT_COLUMNS !! i = Some c ->
  output_row d !! h = Some (PyDict.get_or d c (VStr "")).
Proof.
  intros Hh Hc. unfold output_row. cbv zeta.
  set (trimmed :=
         PyDict.of_items
           (map (fun key => (key, PyDict.get_or d key (VStr ""))) OUTPUT_COLUMNS)).
  assert (trimmed !! c = Some (PyDict.get_or d c (VStr ""))) as Ht.
  { apply of_items_lookup.
    - change (NoDup OUTPUT_COLUMNS). apply OUTPUT_COLUMNS_NoDup.
    - apply (list_elem_of_fmap_2 (fun key => (key, PyDict.get_or d key (VStr "")))).
      eapply list_elem_of_lookup_2; eauto. }
  rewrite <- (get_or_present trimmed c _ (VStr "") Ht).
  apply of_items_lookup.
  - change (NoDup OUTPUT_HEADERS). apply OUTPUT_HEADERS_NoDup.
  - apply (list_elem_of_fmap_2
             (fun hc : string * string => (hc.1, PyDict.get_or trimmed hc.2 (VStr "")))
             _ (h, c)).
    apply (list_elem_of_lookup_2 _ i). rewrite lookup_zip_with, Hh. simpl.
    now rewrite Hc.
Qed.

Lemma output_row_dom (d : row) : dom (output_row d) = list_to_set OUTPUT_HEADERS.
Proof.
  unfold output_row. cbv zeta. now rewrite of_items_dom.
Qed.

Lemma output_rows_columns_aux (ds : list row) :
  to_output_rows (VDict <$> ds) = Ok (VDict <$> (output_row <$> ds)) /\
  length (output_row <$> ds) = length ds.
Proof.
  split; [|apply length_fmap].
  induction ds as [|d ds IH]; [reflexivity|]. csimpl. now rewrite IH.
Qed.

(** [to_output_rows] keeps the number and the order of the rows; every
    output row has exactly the 23 headers as keys, and under each header
    the value that the row has under the column at the same position, the
    empty string when the row has none (a null that the row holds stays a
    null).  It raises, an AttributeError, exactly when a row is not a
    dictionary. *)
Theorem output_rows_columns (rows : list value) :
  (forall ds, rows = VDict <$> ds ->
     to_output_rows rows = Ok (VDict <$> (output_row <$> ds))) /\
  (Exists (fun v => as_dict v = None) rows ->
     to_output_rows rows = Raise AttributeError) /\
  (forall e, to_output_rows rows = Raise e ->
     e = AttributeError /\ Exists (fun v => as_dict v = None) rows) /\
  (forall d, dom (output_row d) = list_to_set OUTPUT_HEADERS) /\
  (forall d i h c,
     OUTPUT_HEADERS !! i = Some h -> OUTPUT_COLUMNS !! i = Some c ->
     output_row d !! h = Some (PyDict.get_or d c (VStr ""))).
Proof.
  split; [|split; [|split; [|split]]].
  - intros ds ->. induction ds as [|d ds IH]; [reflexivity|].
    csimpl. now rewrite IH.
  - induction rows as [|v rows IH]; intros H; [now apply Exists_nil in H|].
    apply Exists_cons in H as [H|H].
    + now destruct v.
    + destruct v; try reflexivity. simpl. now rewrite IH.
  - induction rows as [|v rows IH]; simpl; [discriminate|]. intros e H.
    destruct v as [| | | | | |d];
      try (injection H as <-; split; [reflexivity | now apply Exists_cons_hd]).
    destruct (to_output_rows rows) as [rs|e'] eqn:E; [discriminate|].
    injection H as <-. destruct (IH _ eq_refl) as [-> Hex].
    split; [reflexivity | now apply Exists_cons_tl].
  - apply output_row_dom.
  - apply output_row_lookup.
Qed.

Lemma output_rows_columns_witness :
  to_output_rows [VDict row_105]
  = Ok [VDict (output_row row_105)] /\
  output_row row_105 !! "CALL_LTP"%string = Some (VInt 105) /\
  output_row row_105 !! "Strike_Price"%string = Some (VStr "").
Proof.
  destruct (output_rows_columns [VDict row_105]) as (H1 & _ & _ & _ & H5).
  split; [exact (H1 [row_105] eq_refl)|].
  split; [exact (H5 row_105 8%nat _ _ eq_refl eq_refl)
         | exact (H5 row_105 11%nat _ _ eq_refl eq_refl)].
Defined.

Lemma lite_row_lookup (d : row) (k h : string) :
  (k, h) ∈ LITE_MAP -> lite_row d !! k = Some (PyDict.get_or d h (VStr "")).
Proof.
  intros Hk. apply of_items_lookup.
  - change (NoDup LITE_MAP.*1). apply (bool_decide_unpack _). vm_compute. exact I.
  - now apply (list_elem_of_fmap_2
                 (fun ks : string * string => (ks.1, PyDict.get_or d ks.2 (VStr "")))
                 _ (k, h)).
Qed.

Lemma lite_of_output_lookup (d : row) (k h c : string) (i : nat) :
  (k, h) ∈ LITE_MAP ->
  OUTPUT_HEADERS !! i = Some h -> OUTPUT_COLUMNS !! i = Some c ->
  lite_row (output_row d) !! k = Some (PyDict.get_or d c (VStr "")).
Proof.
  intros Hk Hh Hc. rewrite (lite_row_lookup _ _ _ Hk). f_equal.
  apply get_or_present. now apply (output_row_lookup d i).
Qed.

Ltac lite_member :=
  try (apply (bool_decide_unpack _); vm_compute; exact I).

(** The source column of each key of a lite row. *)
Definition lite_columns : list (string * string) :=
  [ ("strike", "CE_StrikePrice"); ("ce_ltp", "CE_LTP"); ("ce_bid", "CE_BidPrice");
    ("ce_ask", "CE_AskPrice"); ("ce_oi", "CE_OpenInterest");
    ("ce_volume", "CE_Volume"); ("pe_ltp", "PE_LTP"); ("pe_bid", "PE_BidPrice");
    ("pe_ask", "PE_AskPrice"); ("pe_oi", "PE_OpenInterest");
    ("pe_volume", "PE_Volume") ]%string.

(** The lite projection of the output rows of dictionaries succeeds and
    keeps their number and order; every lite row has exactly the keys of
    [LITE_HEADERS]; and through the two renamings each lite key holds the
    value of one column of the row it came from, or the empty string:
    [strike] that of [CE_StrikePrice], [ce_ltp] that of [CE_LTP], and so
    on. *)
Theorem lite_rows_of_output_rows (ds : list row) :
  (let! out := to_output_rows (VDict <$> ds) in to_lite_rows out)
  = Ok (VDict <$> ((fun d => lite_row (output_row d)) <$> ds)) /\
  (forall d, dom (lite_row d) = list_to_set LITE_HEADERS) /\
  (forall d,
     Forall (fun kc : string * string =>
               lite_row (output_row d) !! kc.1
               = Some (PyDict.get_or d kc.2 (VStr ""))) lite_columns).
Proof.
  split; [|split].
  - rewrite (proj1 (output_rows_columns_aux ds)). cbn [bind].
    induction ds as [|d ds IH]; [reflexivity|]. csimpl. now rewrite IH.
  - intros d. unfold lite_row. now rewrite of_items_dom.
  - intros d. unfold lite_columns.
    repeat apply Forall_cons_2; [..|apply Forall_nil_2]; cbn [fst snd].
    + now apply (lite_of_output_lookup d _ "Strike_Price" _ 11); lite_member.
    + now apply (lite_of_output_lookup d _ "CALL_LTP" _ 8); lite_member.
    + now apply (lite_of_output_lookup d _ "CALL_Bid_Price" _ 5); lite_member.
    + now apply (lite_of_output_lookup d _ "CALL_Ask_Price" _ 6); lite_member.
    + now apply (lite_of_output_lookup d _ "CALL_OI_Lots" _ 0); lite_member.
    + now apply (lite_of_output_lookup d _ "CALL_Volume" _ 2); lite_member.
    + now apply (lite_of_output_lookup d _ "PUT_LTP" _ 12); lite_member.
    + now apply (lite_of_output_lookup d _ "PUT_Bid_Price" _ 16); lite_member.
    + now apply (lite_of_output_lookup d _ "PUT_Ask_Price" _ 17); lite_member.
    + now apply (lite_of_output_lookup d _ "PUT_OI_Lots" _ 22); lite_member.
    + now apply (lite_of_output_lookup d _ "PUT_Volume" _ 20); lite_member.
Qed.

(** * NSE records *)

Module PyIn.

(** [needle in hay] for two strings: [needle] occurs in [hay]. *)
Fixpoint str_contains (needle hay : string) : bool :=
  match Date.strip_prefix needle hay with
  | Some _ => true
  | None =>
      match hay with
      | String _ rest => str_contains needle rest
      | EmptyString => false
      end
  end.

(** [key in side] for a string [key]: a key of a dictionary, a substring
    of a string, an element of a list; a TypeError for the objects that
    are not containers. *)
Definition contains (key : string) (side : value) : result bool :=
  match side with
  | VDict d => Ok (bool_decide (is_Some (d !! key)))
  | VStr s => Ok (str_contains key s)
  | VList l =>
      Ok (existsb (fun v => match v with
                            | VStr s => String.eqb s key
                            | _ => false
                            end) l)
  | VNone | VBool _ | VInt _ | VFloat _ => Raise TypeError
  end.

(** [side.get(key)]: only a dictionary has [get]. *)
Definition get (side : value) (key : string) : result value :=
  match side with
  | VDict d => Ok (dict_get d key)
  | _ => Raise AttributeError
  end.

End PyIn.

Fixpoint nse_get (side : value) (keys : list string) : result value :=
  match keys with
  | [] => Ok (VStr "")
  | key :: rest =>
      let! present := PyIn.contains key side in
      if present then PyIn.get side key else nse_get side rest
  end.

(** The entries of the dictionary display of [nse_record_to_row], in the
    order in which they are evaluated. *)
Definition nse_record_to_row (item : row) : result row :=
  let ce := PyDict.or_else (dict_get item "CE") (VDict ∅) in
  let pe := PyDict.or_else (dict_get item "PE") (VDict ∅) in
  let! items :=
    Py.mapM (fun kr : string * result value => let! v := kr.2 in Ok (kr.1, v))
      [ ("CE_OpenInterest", nse_get ce ["openInterest"]);
        ("CE_ChangeInOI", nse_get ce ["changeinOpenInterest"; "changeInOpenInterest"]);
        ("CE_Volume", nse_get ce ["totalTradedVolume"]);
        ("CE_AbsoluteChange", nse_get ce ["change"]);
        ("CE_BidQty", nse_get ce ["buyQuantity1"; "bidQty"; "totalBuyQuantity"]);
        ("CE_BidPrice", nse_get ce ["buyPrice1"; "bidprice"; "bidPrice"]);
        ("CE_AskPrice", nse_get ce ["sellPrice1"; "askPrice"; "askprice"]);
        ("CE_AskQty", nse_get ce ["sellQuantity1"; "askQty"; "totalSellQuantity"]);
        ("CE_LTP", nse_get ce ["lastPrice"; "ltp"]);
        ("CE_StrikePrice", Ok (PyDict.get_or item "strikePrice" (VStr "")));
        ("PE_LTP", nse_get pe ["lastPrice"; "ltp"]);
        ("PE_BidQty", nse_get pe ["buyQuantity1"; "bidQty"; "totalBuyQuantity"]);
        ("PE_BidPrice", nse_get pe ["buyPrice1"; "bidprice"; "bidPrice"]);
        ("PE_AskPrice", nse_get pe ["sellPrice1"; "askPrice"; "askprice"]);
        ("PE_AskQty", nse_get pe ["sellQuantity1"; "askQty"; "totalSellQuantity"]);
        ("PE_AbsoluteChange", nse_get pe ["change"]);
        ("PE_Volume", nse_get pe ["totalTradedVolume"]);
        ("PE_ChangeInOI", nse_get pe ["changeinOpenInterest"; "changeInOpenInterest"]);
        ("PE_OpenInterest", nse_get pe ["openInterest"]);
        ("UnderlyingValue",
         let! u := nse_get ce ["underlyingValue"; "underlyingValue"] in
         if PyDict.truthy u then Ok u else nse_get pe ["underlyingValue"]) ]%string in
  Ok (PyDict.of_items items).

(** The dictionary that [item.get(side) or {}] is, when it is one: the
    value itself when it is a dictionary, the empty dictionary when it is
    missing, null or another false value. *)
Definition side_dict (v : value) : option row :=
  match v with
  | VDict d => Some d
  | _ => if PyDict.truthy v then None else Some ∅
  end.

(** The value under the first of the keys that the dictionary has (its
    null, when it holds a null there), the empty string when it has none
    of them. *)
Fixpoint first_present (d : row) (keys : list string) : value :=
  match keys with
  | [] => VStr ""
  | key :: rest =>
      match d !! key with
      | Some v => v
      | None => first_present d rest
      end
  end.

(** The fields of the row that take the value of a side under alias keys. *)
Definition nse_fields (ce pe : row) : list (string * value) :=
  [ ("CE_OpenInterest", first_present ce ["openInterest"]);
    ("CE_ChangeInOI", first_present ce ["changeinOpenInterest"; "changeInOpenInterest"]);
    ("CE_Volume", first_present ce ["totalTradedVolume"]);
    ("CE_AbsoluteChange", first_present ce ["change"]);
    ("CE_BidQty", first_present ce ["buyQuantity1"; "bidQty"; "totalBuyQuantity"]);
    ("CE_BidPrice", first_present ce ["buyPrice1"; "bidprice"; "bidPrice"]);
    ("CE_AskPrice", first_present ce ["sellPrice1"; "askPrice"; "askprice"]);
    ("CE_AskQty", first_present ce ["sellQuantity1"; "askQty"; "totalSellQuantity"]);
    ("CE_LTP", first_present ce ["lastPrice"; "ltp"]);
    ("PE_LTP", first_present pe ["lastPrice"; "ltp"]);
    ("PE_BidQty", first_present pe ["buyQuantity1"; "bidQty"; "totalBuyQuantity"]);
    ("PE_BidPrice", first_present pe ["buyPrice1"; "bidprice"; "bidPrice"]);
    ("PE_AskPrice", first_present pe ["sellPrice1"; "askPrice"; "askprice"]);
    ("PE_AskQty", first_present pe ["sellQuantity1"; "askQty"; "totalSellQuantity"]);
    ("PE_AbsoluteChange", first_present pe ["change"]);
    ("PE_Volume", first_present pe ["totalTradedVolume"]);
    ("PE_ChangeInOI", first_present pe ["changeinOpenInterest"; "changeInOpenInterest"]);
    ("PE_OpenInterest", first_present pe ["openInterest"]) ]%string.

Lemma or_else_side (v : value) (d : row) :
  side_dict v = Some d -> PyDict.or_else v (VDict ∅) = VDict d.
Proof.
  unfold PyDict.or_else. destruct v as [|b|z|f|s|l|d'];
    cbn [side_dict]; try (destruct (PyDict.truthy _); congruence).
  intros [= ->]. cbn [PyDict.truthy].
  destruct (bool_decide_reflect (d = ∅)) as [->|]; reflexivity.
Qed.

Lemma nse_get_dict (d : row) (keys : list string) :
  nse_get (VDict d) keys = Ok (first_present d keys).
Proof.
  induction keys as [|key keys IH]; [reflexivity|]. simpl.
  destruct (d !! key) as [v|] eqn:E.
  - rewrite bool_decide_eq_true_2 by eauto. unfold dict_get. now rewrite E.
  - rewrite bool_decide_eq_false_2 by (intros [? ?]; congruence). exact IH.
Qed.

(** The row of a record whose sides are dictionaries (or missing, null
    or otherwise false). *)
Lemma nse_record_to_row_eq (item ce pe : row) :
  side_dict (dict_get item "CE") = Some ce ->
  side_dict (dict_get item "PE") = Some pe ->
  nse_record_to_row item =
  Ok (PyDict.of_items
        (nse_fields ce pe ++
         [ ("CE_StrikePrice"%string, PyDict.get_or item "strikePrice" (VStr ""));
           ("UnderlyingValue"%string,
            PyDict.or_else (first_present ce ["underlyingValue"%string])
                           (first_present pe ["underlyingValue"%string])) ])).
Proof.
  intros Hce Hpe. unfold nse_record_to_row.
  rewrite (or_else_side _ _ Hce), (or_else_side _ _ Hpe). cbv zeta.
  rewrite !nse_get_dict. cbn [Py.mapM bind fst snd].
  assert (first_present ce ["underlyingValue"; "underlyingValue"]%string
          = first_present ce ["underlyingValue"%string]) as ->
    by (simpl; now destruct (ce !! "underlyingValue"%string)).
  unfold PyDict.or_else.
  destruct (PyDict.truthy (first_present ce ["underlyingValue"%string]));
    cbn [bind]; f_equal; unfold PyDict.of_items, nse_fields; cbn [foldl app fst snd];
    apply map_eq; intros k;
    repeat (rewrite lookup_insert; destruct (decide (_ = k)); [reflexivity|]);
    reflexivity.
Qed.

(** The keys of the row. *)
Definition nse_keys : list string :=
  [ "CE_OpenInterest"; "CE_ChangeInOI"; "CE_Volume"; "CE_AbsoluteChange";
    "CE_BidQty"; "CE_BidPrice"; "CE_AskPrice"; "CE_AskQty"; "CE_LTP";
    "PE_LTP"; "PE_BidQty"; "PE_BidPrice"; "PE_AskPrice"; "PE_AskQty";
    "PE_AbsoluteChange"; "PE_Volume"; "PE_ChangeInOI"; "PE_OpenInterest";
    "CE_StrikePrice"; "UnderlyingValue" ]%string.

Lemma nse_keys_eq (ce pe : row) :
  (nse_fields ce pe).*1 ++ ["CE_StrikePrice"; "UnderlyingValue"]%string = nse_keys.
Proof. reflexivity. Qed.

Lemma nse_keys_NoDup : NoDup nse_keys.
Proof. apply (bool_decide_unpack _). vm_compute. exact I. Qed.

(** The keys of a row built from a record. *)
Lemma nse_record_row_dom (item ce pe : row) :
  side_dict (dict_get item "CE") = Some ce ->
  side_dict (dict_get item "PE") = Some pe ->
  exists r, nse_record_to_row item = Ok r /\ dom r = list_to_set nse_keys.
Proof.
  intros Hce Hpe. rewrite (nse_record_to_row_eq _ _ _ Hce Hpe).
  eexists. split; [reflexivity|].
  rewrite of_items_dom. now rewrite fmap_app.
Qed.

(** For a record whose [CE] and [PE] are dictionaries, or are missing,
    null or otherwise false, [nse_record_to_row] returns a row with
    exactly the twenty keys of its display: every quote field holds the
    value that its side has under the first alias key present there (a
    null that the side holds is taken as it is), the empty string when the
    side has none; the strike is that of the record, or the empty string;
    the underlying value is that of the call side unless it is false, and
    then that of the put side.  When [CE] is a number other than zero the
    call raises a TypeError. *)
Theorem nse_record_fields (item ce pe : row) :
  side_dict (dict_get item "CE") = Some ce ->
  side_dict (dict_get item "PE") = Some pe ->
  (exists r,
     nse_record_to_row item = Ok r /\
     dom r = list_to_set nse_keys /\
     Forall (fun kv : string * value => r !! kv.1 = Some kv.2) (nse_fields ce pe) /\
     r !! "CE_StrikePrice"%string
       = Some (PyDict.get_or item "strikePrice" (VStr "")) /\
     r !! "UnderlyingValue"%string
       = Some (PyDict.or_else (first_present ce ["underlyingValue"%string])
                              (first_present pe ["underlyingValue"%string]))) /\
  (forall item' z, z <> 0 -> item' !! "CE"%string = Some (VInt z) ->
     nse_record_to_row item' = Raise TypeError).
Proof.
  intros Hce Hpe. split.
  - rewrite (nse_record_to_row_eq _ _ _ Hce Hpe). eexists. split; [reflexivity|].
    set (items := nse_fields ce pe ++ _).
    assert (NoDup items.*1) as Hnd.
    { unfold items. rewrite fmap_app. change (NoDup nse_keys).
      apply nse_keys_NoDup. }
    split; [|split; [|split]].
    + rewrite of_items_dom. unfold items. now rewrite fmap_app.
    + apply Forall_forall. intros [k v] Hin. apply of_items_lookup; [exact Hnd|].
      apply elem_of_app. now left.
    + apply of_items_lookup; [exact Hnd|]. apply elem_of_app. right.
      apply list_elem_of_here.
    + apply of_items_lookup; [exact Hnd|]. apply elem_of_app. right.
      apply list_elem_of_further, list_elem_of_here.
  - intros item' z Hz Hitem. unfold nse_record_to_row, dict_get.
    rewrite Hitem. cbn [default from_option id]. unfold PyDict.or_else.
    cbn [PyDict.truthy]. destruct (Z.eqb_spec z 0); [contradiction|]. reflexivity.
Qed.

Definition nse_item : row :=
  <["strikePrice"%string := VInt 24000]>
    (<["CE"%string :=
         VDict (<["ltp"%string := VInt 105]>
                  (<["underlyingValue"%string := VInt 24010]> ∅))]> ∅).

Lemma nse_record_fields_witness :
  exists r,
    nse_record_to_row nse_item = Ok r /\
    r !! "CE_StrikePrice"%string = Some (VInt 24000) /\
    r !! "UnderlyingValue"%string = Some (VInt 24010).
Proof.
  destruct (proj1 (nse_record_fields nse_item
                     (<["ltp"%string := VInt 105]>
                        (<["underlyingValue"%string := VInt 24010]> ∅)) ∅
                     eq_refl eq_refl))
    as (r & Hr & _ & _ & Hs & Hu).
  exists r. split; [exact Hr|]. split; [exact Hs | exact Hu].
Defined.

(** The rows built from such records have, once the derived fields are
    added, a value under every output column, so that the output
    projection never falls back on its default for them; the fields other
    than the four derived ones are as the record gave them. *)
Theorem nse_rows_have_all_columns (item ce pe r : row) (rs' : list value) :
  side_dict (dict_get item "CE") = Some ce ->
  side_dict (dict_get item "PE") = Some pe ->
  nse_record_to_row item = Ok r ->
  add_derived_fields [VDict r] = Ok rs' ->
  exists r',
    rs' = [VDict r'] /\
    Forall (fun c => is_Some (r' !! c)) OUTPUT_COLUMNS /\
    (forall c, c ∉ derived_keys -> r' !! c = r !! c) /\
    (forall i h c,
       OUTPUT_HEADERS !! i = Some h -> OUTPUT_COLUMNS !! i = Some c ->
       output_row r' !! h = r' !! c).
Proof.
  intros Hce Hpe Hr Hadd.
  destruct (nse_record_row_dom item ce pe Hce Hpe) as (r0 & Hr0 & Hdom).
  rewrite Hr in Hr0. injection Hr0 as <-.
  simpl in Hadd. inv_ok.
  repeat match goal with
  | H : add_change_fields _ _ = Ok _ |- _ =>
      let a := fresh "a" in let b := fresh "b" in
      apply add_change_fields_inv in H as (a & b & _ & _ & ->)
  end.
  eexists. split; [reflexivity|].
  assert (forall c, c ∈ OUTPUT_COLUMNS -> c ∉ derived_keys -> is_Some (r !! c)) as Hin.
  { intros c Hc Hnc. apply elem_of_dom. rewrite Hdom.
    apply elem_of_list_to_set. unfold OUTPUT_COLUMNS in Hc.
    repeat (apply elem_of_cons in Hc as [-> | Hc];
            [first [ apply (bool_decide_unpack _); vm_compute; exact I
                   | exfalso; apply Hnc; apply (bool_decide_unpack _);
                     vm_compute; exact I ]|]).
    now apply elem_of_nil in Hc. }
  set (r' := <[_ := _]> _).
  assert (forall c, c ∉ derived_keys -> r' !! c = r !! c) as Hframe.
  { intros c Hc. unfold derived_keys in Hc. rewrite !not_elem_of_cons in Hc.
    unfold r'. cbn [String.append].
    rewrite !lookup_insert_ne by (intros <-; tauto). reflexivity. }
  split; [|split; [exact Hframe|]].
  - apply Forall_forall. intros c Hc.
    destruct (decide (c ∈ derived_keys)) as [Hd|Hd].
    + unfold derived_keys in Hd. rewrite !elem_of_cons in Hd.
      unfold r'. cbn [String.append].
      destruct Hd as [-> | [-> | [-> | [-> | Hd]]]];
        [..|now apply elem_of_nil in Hd];
        rewrite ?lookup_insert_eq; eauto;
        repeat (rewrite lookup_insert_ne by discriminate);
        rewrite ?lookup_insert_eq; eauto.
    + rewrite Hframe by assumption. now apply Hin.
  - intros i h c Hh Hc. rewrite (output_row_lookup r' i h c Hh Hc).
    assert (is_Some (r' !! c)) as [v Hv].
    { assert (c ∈ OUTPUT_COLUMNS) as Hcin by (eapply list_elem_of_lookup_2; eauto).
      destruct (decide (c ∈ derived_keys)) as [Hd|Hd].
      - unfold derived_keys in Hd. rewrite !elem_of_cons in Hd.
        unfold r'. cbn [String.append].
        destruct Hd as [-> | [-> | [-> | [-> | Hd]]]];
          [..|now apply elem_of_nil in Hd];
          rewrite ?lookup_insert_eq; eauto;
          repeat (rewrite lookup_insert_ne by discriminate);
          rewrite ?lookup_insert_eq; eauto.
      - rewrite Hframe by assumption. now apply Hin. }
    rewrite Hv. f_equal. now apply get_or_present.
Qed.

(** ** When the derived fields are added without an error *)

(** No field of the row is an integer beyond the float range. *)
Definition no_big_int (r : row) : Prop :=
  forall k z, r !! k = Some (VInt z) -> F.is_finite (F.of_Z z) = true.

Lemma to_float_no_big_int (r : row) (key : string) :
  no_big_int r -> exists o, to_float (dict_get r key) = Ok o.
Proof.
  intros Hr. destruct (to_float (dict_get r key)) as [o|e] eqn:E; [eauto|].
  apply to_float_raises in E as (_ & z & Hz & Hfin). unfold dict_get in Hz.
  destruct (r !! key) as [v|] eqn:Ek; [|discriminate]. simpl in Hz. subst v.
  rewrite (Hr _ _ Ek) in Hfin. discriminate.
Qed.

Lemma first_parsed_no_big_int (r : row) (keys : list string) :
  no_big_int r -> exists o, first_parsed r keys = Ok o.
Proof.
  intros Hr. induction keys as [|key keys IH]; simpl; [eauto|].
  destruct (to_float_no_big_int r key Hr) as [[f|] ->]; simpl; eauto.
Qed.

Lemma add_change_fields_no_big_int (r : row) (prefix : string) :
  no_big_int r ->
  exists r', add_change_fields r prefix = Ok r' /\ no_big_int r'.
Proof.
  intros Hr.
  destruct (to_float_no_big_int r (prefix ++ "_LTP")%string Hr) as [ltp Hl].
  destruct (to_float_no_big_int r (prefix ++ "_AbsoluteChange")%string Hr) as [ac Ha].
  destruct (first_parsed_no_big_int r (prev_close_keys prefix) Hr) as [pc Hp].
  rewrite (add_change_fields_eq r prefix ltp ac pc Hl Ha Hp). cbv zeta.
  eexists. split; [reflexivity|]. intros k z.
  rewrite !lookup_insert.
  repeat (destruct (decide (_ = k));
          [match goal with |- Some (match ?v with _ => _ end) = _ -> _ =>
             destruct v; discriminate end|]).
  apply Hr.
Qed.

Lemma add_derived_fields_no_big_int (rows : list value) :
  Forall (fun v => forall d, v = VDict d -> no_big_int d) rows ->
  exists rows', add_derived_fields rows = Ok rows' /\ length rows' = length rows.
Proof.
  induction 1 as [|v rows Hv _ (rows' & IH & Hlen)]; simpl; [eauto|].
  rewrite IH. destruct v as [| | | | | |d]; simpl; try (eexists; split; [reflexivity|simpl; lia]).
  destruct (add_change_fields_no_big_int d "CE" (Hv d eq_refl)) as (d1 & -> & H1).
  simpl. destruct (add_change_fields_no_big_int d1 "PE" H1) as (d2 & -> & _).
  simpl. eexists. split; [reflexivity | simpl; lia].
Qed.

Lemma first_present_empty (keys : list string) : first_present ∅ keys = VStr "".
Proof. induction keys as [|key keys IH]; simpl; [reflexivity|]. now rewrite lookup_empty. Qed.

Lemma of_items_lookup_inv (items : list (string * value)) (k : string) (v : value) :
  PyDict.of_items items !! k = Some v -> (k, v) ∈ items.
Proof.
  unfold PyDict.of_items.
  assert (forall m : row,
            foldl (fun (m : row) kv => <[kv.1 := kv.2]> m) m items !! k = Some v ->
            (k, v) ∈ items \/ m !! k = Some v) as H.
  { induction items as [|[k0 v0] items IH]; intros m; simpl; [now right|].
    intros Hl. apply IH in Hl as [Hl|Hl]; [left; now apply list_elem_of_further|].
    rewrite lookup_insert in Hl. destruct (decide (k0 = k)) as [->|].
    - injection Hl as ->. left. apply list_elem_of_here.
    - now right. }
  intros Hl. apply H in Hl as [Hl|Hl]; [exact Hl|]. now rewrite lookup_empty in Hl.
Qed.

Lemma side_dict_missing (item : row) (key : string) :
  item !! key = None -> side_dict (dict_get item key) = Some ∅.
Proof. unfold dict_get. now intros ->. Qed.

(** The row of the record with no field at all: every field is the empty
    string. *)
Lemma nse_empty_record_row :
  exists r, nse_record_to_row ∅ = Ok r /\ no_big_int r.
Proof.
  rewrite (nse_record_to_row_eq ∅ ∅ ∅ (side_dict_missing ∅ "CE" (lookup_empty _))
             (side_dict_missing ∅ "PE" (lookup_empty _))).
  eexists. split; [reflexivity|]. intros k z Hk.
  apply of_items_lookup_inv in Hk. unfold nse_fields in Hk.
  rewrite !first_present_empty in Hk. unfold PyDict.get_or, PyDict.or_else in Hk.
  rewrite lookup_empty in Hk. cbn [default from_option PyDict.truthy String.eqb negb app] in Hk.
  repeat (apply elem_of_cons in Hk as [Hk|Hk]; [discriminate|]).
  now apply elem_of_nil in Hk.
Qed.

Lemma nse_rows_have_all_columns_witness :
  exists r r',
    nse_record_to_row ∅ = Ok r /\
    add_derived_fields [VDict r] = Ok [VDict r'] /\
    Forall (fun c => is_Some (r' !! c)) OUTPUT_COLUMNS.
Proof.
  destruct nse_empty_record_row as (r & Hr & Hbig).
  destruct (add_derived_fields_no_big_int [VDict r]) as (rs' & Hadd & _).
  { apply Forall_cons_2; [|apply Forall_nil_2]. now intros d [= <-]. }
  destruct (nse_rows_have_all_columns ∅ ∅ ∅ r rs'
              (side_dict_missing ∅ "CE" (lookup_empty _))
              (side_dict_missing ∅ "PE" (lookup_empty _)) Hr Hadd)
    as (r' & Hrs & Hall & _).
  exists r, r'. split; [exact Hr|]. split; [|exact Hall].
  rewrite <- Hrs. exact Hadd.
Defined.

(** ** Errors and untouched fields of the derived-field engine *)

(** The row holds an integer beyond the float range. *)
Definition has_big_int (r : row) : Prop :=
  exists k z, r !! k = Some (VInt z) /\ F.is_finite (F.of_Z z) = false.

Lemma first_parsed_raise (r : row) (keys : list string) (e : exn) :
  first_parsed r keys = Raise e -> exists key, to_float (dict_get r key) = Raise e.
Proof.
  induction keys as [|key keys IH]; simpl; [discriminate|].
  destruct (to_float (dict_get r key)) as [[f|]|e'] eqn:E; simpl;
    [discriminate | exact IH | intros [= <-]; eauto].
Qed.

Lemma to_float_dict_get_raise (r : row) (key : string) (e : exn) :
  to_float (dict_get r key) = Raise e -> e = OverflowError /\ has_big_int r.
Proof.
  intros E. apply to_float_raises in E as (-> & z & Hz & Hfin).
  split; [reflexivity|]. unfold dict_get in Hz.
  destruct (r !! key) as [v|] eqn:Ek; [|discriminate]. simpl in Hz. subst v.
  now exists key, z.
Qed.

Lemma add_change_fields_raise (r : row) (prefix : string) (e : exn) :
  add_change_fields r prefix = Raise e -> e = OverflowError /\ has_big_int r.
Proof.
  intros H.
  destruct (to_float (dict_get r (prefix ++ "_LTP")%string)) as [ltp|e1] eqn:E1.
  2: { unfold add_change_fields in H. rewrite E1 in H. injection H as <-.
       eapply to_float_dict_get_raise; eauto. }
  destruct (to_float (dict_get r (prefix ++ "_AbsoluteChange")%string)) as [ac|e2] eqn:E2.
  2: { unfold add_change_fields in H. rewrite E1, E2 in H. injection H as <-.
       eapply to_float_dict_get_raise; eauto. }
  destruct (get_prev_close_value r prefix) as [pc|e3] eqn:E3.
  2: { unfold add_change_fields in H. rewrite E1, E2, E3 in H. injection H as <-.
       apply first_parsed_raise in E3 as [key E3].
       eapply to_float_dict_get_raise; eauto. }
  rewrite (add_change_fields_eq _ _ _ _ _ E1 E2 E3) in H. discriminate.
Qed.

(** The fields that [add_change_fields] writes are not integers. *)
Lemma add_change_fields_big_int (r r' : row) (prefix : string) :
  add_change_fields r prefix = Ok r' -> has_big_int r' -> has_big_int r.
Proof.
  intros H (k & z & Hk & Hfin).
  apply add_change_fields_inv in H as (a & b & Ha & Hb & ->).
  rewrite !lookup_insert in Hk.
  destruct (decide (_ = k));
    [destruct Hb as [->|[x ->]]; discriminate|].
  destruct (decide (_ = k));
    [destruct Ha as [->|[x ->]]; discriminate|].
  now exists k, z.
Qed.

Lemma add_change_fields_frame (r r' : row) (prefix : string) (k : string) :
  add_change_fields r prefix = Ok r' ->
  k <> (prefix ++ "_PrevClose")%string -> k <> (prefix ++ "_PctChange")%string ->
  r' !! k = r !! k.
Proof.
  intros H H1 H2. apply add_change_fields_inv in H as (a & b & _ & _ & ->).
  now rewrite !lookup_insert_ne by congruence.
Qed.

(** The rows before and after: a dictionary keeps every field other than
    the four derived ones, another object is kept as it is. *)
Definition derived_from (v v' : value) : Prop :=
  match v with
  | VDict d =>
      exists d', v' = VDict d' /\ forall k, k ∉ derived_keys -> d' !! k = d !! k
  | _ => v' = v
  end.

Lemma add_derived_fields_raise (rows : list value) (e : exn) :
  add_derived_fields rows = Raise e ->
  e = OverflowError /\
  Exists (fun v => exists d, v = VDict d /\ has_big_int d) rows.
Proof.
  induction rows as [|v rows IH]; simpl; [discriminate|]. intros H.
  destruct v as [| | | | | |d]; simpl in H.
  1-6: destruct (add_derived_fields rows) as [rs|e'] eqn:E; simpl in H;
       [discriminate|]; injection H as <-;
       destruct (IH eq_refl) as [-> Hex]; split; [reflexivity|];
       now apply Exists_cons_tl.
  destruct (add_change_fields d "CE") as [d1|e1] eqn:E1; simpl in H.
  2: { injection H as <-. apply add_change_fields_raise in E1 as [-> Hb].
       split; [reflexivity|]. apply Exists_cons_hd. eauto. }
  destruct (add_change_fields d1 "PE") as [d2|e2] eqn:E2; simpl in H.
  2: { injection H as <-. apply add_change_fields_raise in E2 as [-> Hb].
       split; [reflexivity|]. apply Exists_cons_hd. exists d.
       split; [reflexivity|]. eapply add_change_fields_big_int; eauto. }
  destruct (add_derived_fields rows) as [rs|e'] eqn:E; simpl in H;
    [discriminate|]. injection H as <-.
  destruct (IH eq_refl) as [-> Hex]. split; [reflexivity|].
  now apply Exists_cons_tl.
Qed.

Lemma add_derived_fields_frame (rows rows' : list value) :
  add_derived_fields rows = Ok rows' -> Forall2 derived_from rows rows'.
Proof.
  revert rows'. induction rows as [|v rows IH]; simpl; intros rows' H.
  - injection H as <-. constructor.
  - inv_ok. constructor; [|now apply IH].
    destruct v as [| | | | | |d]; simpl in *; inv_ok; try reflexivity.
    eexists. split; [reflexivity|]. intros k Hk.
    unfold derived_keys in Hk. rewrite !not_elem_of_cons in Hk.
    match goal with
    | H1 : add_change_fields d "CE" = Ok ?d1,
      H2 : add_change_fields ?d1 "PE" = Ok _ |- _ =>
        rewrite (add_change_fields_frame _ _ "PE" k H2) by (simpl; tauto);
        now rewrite (add_change_fields_frame _ _ "CE" k H1) by (simpl; tauto)
    end.
Qed.

(** [add_derived_fields] fails only with an OverflowError, and only when
    a row holds an integer beyond the float range; when it returns, it
    returns as many rows, in the same order, each a dictionary with the
    four derived fields set and every other field as it was, or the object
    that was there when that is not a dictionary. *)
Theorem add_derived_fields_outcome (rows : list value) :
  (forall e, add_derived_fields rows = Raise e ->
     e = OverflowError /\
     Exists (fun v => exists d, v = VDict d /\ has_big_int d) rows) /\
  (forall rows', add_derived_fields rows = Ok rows' ->
     Forall2 derived_from rows rows' /\ Forall derived_ok rows') /\
  (Forall (fun v => forall d, v = VDict d -> no_big_int d) rows ->
   exists rows', add_derived_fields rows = Ok rows').
Proof.
  split; [|split].
  - intros e. apply add_derived_fields_raise.
  - intros rows' H. split; [now apply add_derived_fields_frame|].
    eapply add_derived_fields_ok; eauto.
  - intros H. destruct (add_derived_fields_no_big_int rows H) as (rows' & Hr & _).
    eauto.
Qed.

Lemma add_derived_fields_outcome_witness :
  exists e,
    add_derived_fields [VDict (<["CE_LTP"%string := VInt (10 ^ 400)]> ∅)] = Raise e /\
    e = OverflowError.
Proof.
  exists OverflowError. split; [reflexivity|].
  exact (proj1 (proj1 (add_derived_fields_outcome
                         [VDict (<["CE_LTP"%string := VInt (10 ^ 400)]> ∅)])
                 OverflowError eq_refl)).
Defined.

(** * Locating the rows of a payload *)

(** A decoded payload, as far as [extract_rows] looks at it: a list, a
    dictionary with its items in insertion order (the order of
    [data.values()]), or another object. *)
Inductive payload :=
  | PList (rows : list value)
  | PDict (items : list (string * value))
  | POther.

(** [data.get(key)] on the items of a dictionary. *)
Definition payload_get (items : list (string * value)) (key : string) : value :=
  match list_find (fun kv : string * value => bool_decide (kv.1 = key)) items with
  | Some (_, (_, v)) => v
  | None => VNone
  end.

(** The first of the values that is a list. *)
Fixpoint first_list (vs : list value) : option (list value) :=
  match vs with
  | [] => None
  | VList l :: _ => Some l
  | _ :: rest => first_list rest
  end.

(** The two loops over a dictionary: the named keys, then every value. *)
Definition find_rows (keys : list string) (items : list (string * value))
    : option (list value) :=
  match first_list (map (payload_get items) keys) with
  | Some l => Some l
  | None => first_list items.*2
  end.

Definition extract_rows (data : payload) : list value :=
  match data with
  | PList rows => rows
  | PDict items =>
      default [] (find_rows ["Data"; "data"; "Table"; "Table1"; "table"]%string items)
  | POther => []
  end.

Module Cli.

Definition extract_rows (data : payload) : result (list value) :=
  match data with
  | PList rows => Ok rows
  | PDict items =>
      match find_rows ["Data"; "data"; "Table"; "Table1"; "table";
                       "optionChain"; "OptionChain"]%string items with
      | Some l => Ok l
      | None => Raise ValueError
      end
  | POther => Raise ValueError
  end.

End Cli.

Lemma first_list_app (a b : list value) :
  first_list (a ++ b) = match first_list a with Some l => Some l | None => first_list b end.
Proof.
  induction a as [|v a IH]; [reflexivity|].
  destruct v; simpl; auto.
Qed.

Lemma payload_get_list (items : list (string * value)) (key : string) (l : list value) :
  payload_get items key = VList l -> first_list items.*2 <> None.
Proof.
  unfold payload_get.
  destruct (list_find _ items) as [[i [k v]]|] eqn:E; [|discriminate].
  intros ->. apply list_find_Some in E as (Hi & _ & _).
  apply list_elem_of_split_length in Hi as (pre & post & -> & _).
  rewrite fmap_app, first_list_app. csimpl. now destruct (first_list pre.*2).
Qed.

Lemma first_list_keys (items : list (string * value)) (keys : list string)
    (l : list value) :
  first_list (map (payload_get items) keys) = Some l ->
  first_list items.*2 <> None.
Proof.
  induction keys as [|key keys IH]; simpl; [discriminate|].
  destruct (payload_get items key) eqn:E; auto.
  intros _. eapply payload_get_list; eauto.
Qed.

(** The server's [extract_rows] never fails: it returns the empty list
    where the command-line tool raises its ValueError.  Where the tool
    finds rows, the server returns the same rows, unless the tool found
    them under [optionChain] or [OptionChain], keys that the server does
    not name, while no key that the server names holds a list: then the
    server returns the first list among the values of the payload. *)
Theorem extract_rows_agree (data : payload) :
  (forall e, Cli.extract_rows data = Raise e ->
     e = ValueError /\ extract_rows data = []) /\
  (forall rows, Cli.extract_rows data = Ok rows ->
     extract_rows data = rows \/
     exists items rows',
       data = PDict items /\
       first_list (map (payload_get items)
                       ["Data"; "data"; "Table"; "Table1"; "table"]%string) = None /\
       first_list (map (payload_get items) ["optionChain"; "OptionChain"]%string)
         = Some rows /\
       first_list items.*2 = Some rows' /\ extract_rows data = rows') /\
  (forall rows, data = PList rows ->
     extract_rows data = rows /\ Cli.extract_rows data = Ok rows).
Proof.
  split; [|split].
  - intros e H. destruct data as [rows|items|]; simpl in *;
      [discriminate| |now injection H as <-].
    unfold find_rows in *.
    change (map (payload_get items)
              ["Data"; "data"; "Table"; "Table1"; "table"; "optionChain"; "OptionChain"]%string)
      with (map (payload_get items) ["Data"; "data"; "Table"; "Table1"; "table"]%string
            ++ map (payload_get items) ["optionChain"; "OptionChain"]%string) in H.
    rewrite first_list_app in H.
    destruct (first_list (map (payload_get items) _)) as [l|]; [discriminate|].
    destruct (first_list (map (payload_get items) _)) as [l|]; [discriminate|].
    destruct (first_list items.*2) as [l|]; [discriminate|].
    now injection H as <-.
  - intros rows H. destruct data as [rs|items|]; simpl in *;
      [injection H as <-; now left| |discriminate].
    unfold find_rows in *.
    change (map (payload_get items)
              ["Data"; "data"; "Table"; "Table1"; "table"; "optionChain"; "OptionChain"]%string)
      with (map (payload_get items) ["Data"; "data"; "Table"; "Table1"; "table"]%string
            ++ map (payload_get items) ["optionChain"; "OptionChain"]%string) in H.
    rewrite first_list_app in H.
    destruct (first_list (map (payload_get items)
                ["Data"; "data"; "Table"; "Table1"; "table"]%string)) as [l|] eqn:E1.
    { injection H as <-. now left. }
    destruct (first_list (map (payload_get items)
                ["optionChain"; "OptionChain"]%string)) as [l|] eqn:E2.
    + injection H as <-. right.
      destruct (first_list items.*2) as [l'|] eqn:E3.
      * exists items, l'. auto.
      * now apply first_list_keys in E2.
    + destruct (first_list items.*2) as [l'|]; [|discriminate].
      injection H as <-. now left.
  - intros rows ->. split; reflexivity.
Qed.

Lemma extract_rows_agree_witness :
  extract_rows (PDict [("d"%string, VNone); ("Data"%string, VList [VNone])])
  = [VNone] \/
  exists items rows',
    PDict [("d"%string, VNone); ("Data"%string, VList [VNone])] = PDict items /\
    first_list (map (payload_get items)
                    ["Data"; "data"; "Table"; "Table1"; "table"]%string) = None /\
    first_list (map (payload_get items) ["optionChain"; "OptionChain"]%string)
      = Some [VNone] /\
    first_list items.*2 = Some rows' /\
    extract_rows (PDict [("d"%string, VNone); ("Data"%string, VList [VNone])]) = rows'.
Proof.
  exact (proj1 (proj2 (extract_rows_agree
                         (PDict [("d"%string, VNone); ("Data"%string, VList [VNone])])))
           [VNone] eq_refl).
Defined.

(** The rows under [optionChain] are what the tool returns and not what
    the server returns when another value of the payload is a list. *)
Example extract_rows_differ :
  let data := PDict [("meta"%string, VList []);
                     ("optionChain"%string, VList [VNone])] in
  Cli.extract_rows data = Ok [VNone] /\ extract_rows data = [].
Proof. split; reflexivity. Qed.

(** * The command-line tool *)

Module CliRows.

(** [_parse_dotnet_date(value, default_tz)] *)
Definition parse_dotnet_date (value : string) (default_tz : Z) : result string :=
  match Date.match_date value with
  | None => Ok value
  | Some (n, cnt, offset_str) =>
      let! ms := Py.int_of_digits n cnt in
      if ms <=? 0 then Ok EmptyString
      else
        let t := F.of_ratio false ms 1000 in
        let! _ := if F.is_finite t then Ok tt else Raise OverflowError in
        let! dt_utc := Date.fromtimestamp_utc t in
        let! dt_local :=
          match offset_str with
          | Some (neg, hours, minutes) =>
              let sign := if neg then -1 else 1 in
              let! tz := Date.timezone (sign * (hours * 60 + minutes)) in
              Date.astimezone dt_utc tz
          | None => Date.astimezone dt_utc default_tz
          end in
        Ok (Date.isoformat dt_local)
  end.

Definition normalize_value (val : value) (default_tz : Z) : result value :=
  match val with
  | VNone => Ok (VStr EmptyString)
  | VStr s => let! s' := parse_dotnet_date (Py.strip s) default_tz in Ok (VStr s')
  | _ => Ok val
  end.

Definition normalize_row (d : row) (default_tz : Z) : result row :=
  let! kvs :=
    Py.mapM (fun kv : string * value =>
               let! v := normalize_value kv.2 default_tz in Ok (kv.1, v))
            (map_to_list d) in
  Ok (list_to_map kvs).

(** A row that is not a dictionary is kept as it is. *)
Fixpoint normalize_rows (rows : list value) (default_tz : Z) : result (list value) :=
  match rows with
  | [] => Ok []
  | VDict d :: rest =>
      let! d' := normalize_row d default_tz in
      let! rest' := normalize_rows rest default_tz in
      Ok (VDict d' :: rest')
  | v :: rest =>
      let! rest' := normalize_rows rest default_tz in
      Ok (v :: rest')
  end.

Definition OUTPUT_COLUMNS : list string :=
  [ "CE_OpenInterest"; "CE_ChangeInOI"; "CE_Volume"; "CE_AbsoluteChange";
    "CE_BidQty"; "CE_BidPrice"; "CE_AskPrice"; "CE_AskQty"; "CE_LTP";
    "CE_StrikePrice"; "PE_LTP"; "PE_BidQty"; "PE_BidPrice"; "PE_AskPrice";
    "PE_AskQty"; "PE_AbsoluteChange"; "PE_Volume"; "PE_ChangeInOI";
    "PE_OpenInterest" ]%string.

(** [{k: row.get(k, "") for k in OUTPUT_COLUMNS}] *)
Definition trim (d : row) : row :=
  PyDict.of_items (map (fun k => (k, PyDict.get_or d k (VStr ""))) OUTPUT_COLUMNS).

Fixpoint trim_rows (rows : list value) : result (list value) :=
  match rows with
  | [] => Ok []
  | VDict d :: rest =>
      let! rest' := trim_rows rest in
      Ok (VDict (trim d) :: rest')
  | _ :: _ => Raise AttributeError
  end.

(** The rows that [main] writes, from the rows that [extract_rows] found. *)
Definition trimmed_rows (rows : list value) (strike_step : float)
    (all_strikes : bool) : result (list value) :=
  let! rows := normalize_rows rows IST in
  let! rows := if all_strikes then Ok rows else round_strike_rows rows strike_step in
  trim_rows rows.

End CliRows.

Lemma cli_parse_dotnet_date (s : string) :
  CliRows.parse_dotnet_date s IST = parse_dotnet_date s.
Proof. reflexivity. Qed.

Lemma cli_normalize_row (d : row) :
  CliRows.normalize_row d IST = normalize_row d.
Proof. reflexivity. Qed.

Lemma cli_normalize_dicts (ds : list row) :
  CliRows.normalize_rows (VDict <$> ds) IST = normalize_rows (VDict <$> ds).
Proof.
  induction ds as [|d ds IH]; [reflexivity|]. csimpl.
  rewrite cli_normalize_row, IH. reflexivity.
Qed.

Lemma normalize_rows_dicts (rows out : list value) :
  normalize_rows rows = Ok out -> exists ds, out = VDict <$> ds.
Proof.
  revert out. induction rows as [|v rows IH]; simpl; intros out H.
  - injection H as <-. now exists [].
  - destruct v; try (now apply IH). inv_ok.
    destruct (IH _ Ha0) as [ds ->]. now exists (a :: ds).
Qed.

(** The strike filter sees the same strikes before and after the derived
    fields are added. *)
Lemma round_strike_rows_derived (ds ds' : list row) (step : float) :
  Forall2 (fun d d' : row => forall k, k ∉ derived_keys -> d' !! k = d !! k) ds ds' ->
  forall kept', round_strike_rows (VDict <$> ds') step = Ok kept' ->
  exists kept,
    round_strike_rows (VDict <$> ds) step = Ok kept /\
    Forall2 derived_from kept kept'.
Proof.
  induction 1 as [|d d' ds ds' Hd _ IH]; intros kept' H; csimpl in *.
  - injection H as <-. exists []. split; [reflexivity | constructor].
  - inv_ok. destruct (IH _ Ha0) as (kept & Hk & Hrel).
    assert (dict_get d "CE_StrikePrice" = dict_get d' "CE_StrikePrice") as ->.
    { unfold dict_get. rewrite Hd; [reflexivity|].
      unfold derived_keys. rewrite !not_elem_of_cons. repeat split; try discriminate.
      apply not_elem_of_nil. }
    rewrite Ha, Hk. cbn [bind]. destruct a.
    + eexists. split; [reflexivity|]. constructor; [|exact Hrel].
      exists d'. split; [reflexivity | exact Hd].
    + eexists. split; [reflexivity | exact Hrel].
Qed.

Lemma trim_derived (d d' : row) :
  (forall k, k ∉ derived_keys -> d' !! k = d !! k) ->
  CliRows.trim d' = CliRows.trim d.
Proof.
  intros H. unfold CliRows.trim. f_equal. apply map_ext_in. intros k Hk.
  f_equal. unfold PyDict.get_or. rewrite H; [reflexivity|].
  unfold CliRows.OUTPUT_COLUMNS in Hk. simpl in Hk.
  repeat (destruct Hk as [<-|Hk];
          [apply (bool_decide_unpack _); vm_compute; exact I|]).
  contradiction.
Qed.

Lemma derived_from_dicts (ds : list row) (rows' : list value) :
  Forall2 derived_from (VDict <$> ds) rows' ->
  exists ds', rows' = VDict <$> ds' /\
    Forall2 (fun d d' : row => forall k, k ∉ derived_keys -> d' !! k = d !! k) ds ds'.
Proof.
  revert rows'. induction ds as [|d ds IH]; csimpl; intros rows' H.
  - apply Forall2_nil_inv_l in H as ->. exists []. split; [reflexivity | constructor].
  - apply Forall2_cons_inv_l in H as (v' & rest' & (d' & -> & Hd) & Hrest & ->).
    destruct (IH _ Hrest) as (ds' & -> & Hds).
    exists (d' :: ds'). split; [reflexivity | now constructor].
Qed.

Lemma trim_rows_derived (kept kept' : list value) :
  Forall2 derived_from kept kept' ->
  Forall (fun v => exists d, v = VDict d) kept ->
  exists cli,
    CliRows.trim_rows kept = Ok cli /\
    Forall2 (fun s c => exists d, s = VDict d /\ c = VDict (CliRows.trim d)) kept' cli.
Proof.
  induction 1 as [|v v' kept kept' Hv _ IH]; intros Hd.
  - exists []. split; [reflexivity | constructor].
  - apply Forall_cons in Hd as [[d ->] Hd]. destruct (IH Hd) as (cli & Hc & Hrel).
    destruct Hv as (d' & -> & Hframe). simpl. rewrite Hc. cbn [bind].
    eexists. split; [reflexivity|]. constructor; [|exact Hrel].
    exists d'. split; [reflexivity|]. now rewrite (trim_derived d d').
Qed.

Lemma round_strike_rows_dicts (rs out : list value) (step : float) :
  round_strike_rows rs step = Ok out -> Forall (fun v => exists d, v = VDict d) rs.
Proof.
  revert out. induction rs as [|v rs IH]; simpl; intros out H; [constructor|].
  destruct v; try discriminate. inv_ok. constructor; eauto.
Qed.

Lemma round_strike_rows_kept_dicts (rs out : list value) (step : float) :
  round_strike_rows rs step = Ok out -> Forall (fun v => exists d, v = VDict d) out.
Proof.
  intros H. eapply round_strike_rows_Forall; [exact H|].
  eapply round_strike_rows_dicts; eauto.
Qed.

Lemma trim_rows_dicts (rs out : list value) :
  CliRows.trim_rows rs = Ok out -> Forall (fun v => exists d, v = VDict d) rs.
Proof.
  revert out. induction rs as [|v rs IH]; simpl; intros out H; [constructor|].
  destruct v; try discriminate. inv_ok. constructor; eauto.
Qed.

Lemma cli_normalize_keeps (rows out : list value) :
  CliRows.normalize_rows rows IST = Ok out ->
  Exists (fun v => as_dict v = None) rows -> Exists (fun v => as_dict v = None) out.
Proof.
  revert out. induction rows as [|v rows IH]; simpl; intros out H Hex;
    [now apply Exists_nil in Hex|].
  apply Exists_cons in Hex as [Hv|Hex].
  - destruct v; try discriminate; inv_ok; now apply Exists_cons_hd.
  - destruct v; inv_ok; apply Exists_cons_tl; eauto.
Qed.

(** For a payload whose rows are all dictionaries, whenever the server
    stores rows for it (normalised, derived fields added, round strikes
    kept), the tool writes as many rows, in the same order, and each is
    the projection of the stored row on the tool's 19 columns, the empty
    string standing for a missing column.  A payload with a row that is
    not a dictionary, which the server skips, makes the tool fail. *)
Theorem cli_rows_agree (rows : list value) (step : float) (all_strikes : bool) :
  (forall ds srv, rows = VDict <$> ds ->
     (let! ns := normalize_rows rows in processed ns step all_strikes) = Ok srv ->
     exists cli,
       CliRows.trimmed_rows rows step all_strikes = Ok cli /\
       Forall2 (fun s c => exists d, s = VDict d /\ c = VDict (CliRows.trim d)) srv cli) /\
  (Exists (fun v => as_dict v = None) rows ->
   forall cli, CliRows.trimmed_rows rows step all_strikes <> Ok cli).
Proof.
  split.
  - intros ds srv -> H. inv_ok. unfold CliRows.trimmed_rows.
    rewrite cli_normalize_dicts, Ha. cbn [bind].
    destruct (normalize_rows_dicts _ _ Ha) as [nds ->].
    unfold processed in H. inv_ok.
    match goal with
    | Hadd : add_derived_fields _ = Ok ?ns' |- _ =>
        apply add_derived_fields_frame in Hadd as Hframe;
        destruct (derived_from_dicts _ _ Hframe) as (nds' & -> & Hds)
    end.
    destruct all_strikes.
    + injection H as <-. cbn [bind]. apply trim_rows_derived; [assumption|].
      apply Forall_fmap, Forall_true. intros d. now exists d.
    + destruct (round_strike_rows_derived _ _ _ Hds _ H) as (kept & Hk & Hrel).
      rewrite Hk. cbn [bind]. apply trim_rows_derived; [exact Hrel|].
      eapply round_strike_rows_kept_dicts; eauto.
  - intros Hex cli H. unfold CliRows.trimmed_rows in H. inv_ok.
    pose proof (cli_normalize_keeps _ _ Ha Hex) as Hex'.
    assert (Forall (fun v => exists d, v = VDict d) a) as Hall.
    { destruct all_strikes.
      - injection Ha0 as <-. eapply trim_rows_dicts; eauto.
      - eapply round_strike_rows_dicts; eauto. }
    apply Exists_exists in Hex' as (v & Hv & Hnd).
    rewrite Forall_forall in Hall. destruct (Hall v Hv) as [d ->]. discriminate.
Qed.

Lemma stored_rows_105 :
  exists srv,
    (let! ns := normalize_rows [VDict row_105] in processed ns (F.of_Z 5000) true)
    = Ok srv.
Proof. eexists. vm_compute. reflexivity. Qed.

Lemma cli_rows_agree_witness :
  exists srv cli,
    (let! ns := normalize_rows [VDict row_105] in processed ns (F.of_Z 5000) true)
    = Ok srv /\
    CliRows.trimmed_rows [VDict row_105] (F.of_Z 5000) true = Ok cli /\
    Forall2 (fun s c => exists d, s = VDict d /\ c = VDict (CliRows.trim d)) srv cli.
Proof.
  destruct stored_rows_105 as [srv Hsrv].
  destruct (proj1 (cli_rows_agree [VDict row_105] (F.of_Z 5000) true)
              [row_105] srv eq_refl Hsrv) as (cli & Hcli & Hrel).
  exists srv, cli. auto.
Defined.

(** * The market-watch cache *)

Section MarketWatch.

(** What lies outside [MARKETWATCH_CACHE]. *)
Variable world : Type.
Variable fetch_mcx_marketwatch : world -> result (list value) * world.
Variable MARKETWATCH_TTL_SECONDS : Z.

(** [MARKETWATCH_CACHE], which only [get_marketwatch_rows] writes: its
    keys [rows] and [fetched_at], each present or not; the world; and the
    number of fetches made so far (not in the source; it is there to count
    them). *)
Record mw_state := {
  mw_rows : option (list value);
  mw_fetched_at : option float;
  mw_world : world;
  mw_fetches : nat }.

(** [now] is the reading of [time.time()]. *)
Definition get_marketwatch_rows (now : float) (st : mw_state)
    : result (list value) * mw_state :=
  let cached := mw_rows st in
  let fetched_at := default (F.of_Z 0) (mw_fetched_at st) in
  let hit :=
    match cached with
    | Some (_ :: _) => Py.float_lt_int (F.sub now fetched_at) MARKETWATCH_TTL_SECONDS
    | _ => false
    end in
  if hit then (Ok (default [] cached), st)
  else
    match fetch_mcx_marketwatch (mw_world st) with
    | (Raise e, w) =>
        (Raise e, {| mw_rows := mw_rows st; mw_fetched_at := mw_fetched_at st;
                     mw_world := w; mw_fetches := S (mw_fetches st) |})
    | (Ok rows, w) =>
        (Ok rows, {| mw_rows := Some rows; mw_fetched_at := Some now;
                     mw_world := w; mw_fetches := S (mw_fetches st) |})
    end.

(** A call returns the cached rows without a fetch exactly when they are
    not empty and younger than the TTL; cached rows that are the empty
    list are never returned from the cache, every call fetches again.
    Every other call asks [fetch_mcx_marketwatch] once, on the world as it
    is: when the fetch raises, the call raises the same and leaves both
    keys of the cache as they were; when the fetch returns rows, the call
    returns these rows and stores them with the time of the call, and a
    later call within the TTL returns them without a fetch when they are
    not empty. *)
Theorem marketwatch_cache (now : float) (st : mw_state) :
  (forall r rows, mw_rows st = Some (r :: rows) ->
     Py.float_lt_int (F.sub now (default (F.of_Z 0) (mw_fetched_at st)))
                     MARKETWATCH_TTL_SECONDS = true ->
     get_marketwatch_rows now st = (Ok (r :: rows), st)) /\
  (mw_rows st = Some [] \/ mw_rows st = None ->
   mw_fetches (get_marketwatch_rows now st).2 = S (mw_fetches st)) /\
  (forall e st1, get_marketwatch_rows now st = (Raise e, st1) ->
     mw_rows st1 = mw_rows st /\ mw_fetched_at st1 = mw_fetched_at st /\
     mw_fetches st1 = S (mw_fetches st)) /\
  (forall rows st1,
     get_marketwatch_rows now st = (Ok rows, st1) ->
     mw_fetches st1 = S (mw_fetches st) ->
     mw_rows st1 = Some rows /\ mw_fetched_at st1 = Some now /\
     forall now' r rest, rows = r :: rest ->
       Py.float_lt_int (F.sub now' now) MARKETWATCH_TTL_SECONDS = true ->
       get_marketwatch_rows now' st1 = (Ok rows, st1)) /\
  (mw_rows st = None \/ mw_rows st = Some [] \/
   Py.float_lt_int (F.sub now (default (F.of_Z 0) (mw_fetched_at st)))
                   MARKETWATCH_TTL_SECONDS = false ->
   forall r w, fetch_mcx_marketwatch (mw_world st) = (r, w) ->
     get_marketwatch_rows now st
     = match r with
       | Ok rows =>
           (Ok rows, {| mw_rows := Some rows; mw_fetched_at := Some now;
                        mw_world := w; mw_fetches := S (mw_fetches st) |})
       | Raise e =>
           (Raise e, {| mw_rows := mw_rows st; mw_fetched_at := mw_fetched_at st;
                        mw_world := w; mw_fetches := S (mw_fetches st) |})
       end).
Proof.
  unfold get_marketwatch_rows. split; [|split; [|split; [|split]]].
  - intros r rows Hr Hl. rewrite Hr. cbv zeta. now rewrite Hl.
  - intros [Hr | Hr]; rewrite Hr; cbv zeta;
      now destruct (fetch_mcx_marketwatch (mw_world st)) as [[rows|e] w].
  - intros e st1. cbv zeta.
    destruct (match mw_rows st with Some (_ :: _) => _ | _ => false end);
      [discriminate|].
    destruct (fetch_mcx_marketwatch (mw_world st)) as [[rows|e'] w];
      [discriminate|]. intros [= <- <-]. auto.
  - intros rows st1. cbv zeta.
    destruct (match mw_rows st with Some (_ :: _) => _ | _ => false end).
    + intros [= <- <-] Hf. lia.
    + destruct (fetch_mcx_marketwatch (mw_world st)) as [[rows'|e'] w];
        [|discriminate]. intros [= <- <-] _. cbn [mw_rows mw_fetched_at].
      split; [reflexivity|]. split; [reflexivity|].
      intros now' r rest -> Hl. cbn [default from_option id]. now rewrite Hl.
  - intros Hmiss r w Hf. cbv zeta.
    assert (match mw_rows st with
            | Some (_ :: _) =>
                Py.float_lt_int (F.sub now (default (F.of_Z 0) (mw_fetched_at st)))
                  MARKETWATCH_TTL_SECONDS
            | _ => false
            end = false) as ->.
    { destruct Hmiss as [-> | [-> | Hl]]; [reflexivity | reflexivity |].
      destruct (mw_rows st) as [[|? ?]|]; [reflexivity | exact Hl | reflexivity]. }
    rewrite Hf. now destruct r.
Qed.

End MarketWatch.

(** A market watch that answers with one row, and a cache that holds an
    empty answer one second old. *)
Definition one_row_marketwatch (w : unit) : result (list value) * unit :=
  (Ok [VNone], w).

Definition empty_answer_state : mw_state unit :=
  {| mw_rows := Some []; mw_fetched_at := Some (F.of_Z 1700000000);
     mw_world := tt; mw_fetches := 0 |}.

Lemma marketwatch_cache_witness :
  mw_fetches unit
    (get_marketwatch_rows unit one_row_marketwatch 600 (F.of_Z 1700000001)
       empty_answer_state).2
  = 1%nat.
Proof.
  apply (proj1 (proj2 (marketwatch_cache unit one_row_marketwatch 600
                         (F.of_Z 1700000001) empty_answer_state))).
  now left.
Defined.

(** * Metal prices *)

(** [price_from_rate]: [rate in (None, 0)] guards the division. *)
Definition price_from_rate (rate : option float) : result (option float) :=
  match rate with
  | None => Ok None
  | Some r =>
      if F.eqb r F.zero then Ok None
      else let! p := Py.truediv (F.of_Z 1) r in Ok (Some p)
  end.

(** [change] and [change_pct]: set when [last_price is not None and
    prev_price not in (None, 0)]. *)
Definition metals_change (last_price prev_price : option float)
    : result (option float * option float) :=
  match last_price, prev_price with
  | Some l, Some p =>
      if not_none_or_zero prev_price then
        let change := F.sub l p in
        let! q := Py.truediv change p in
        Ok (Some change, Some (F.mul q lit_100))
      else Ok (None, None)
  | _, _ => Ok (None, None)
  end.

(** One turn of the loop of [build_metals_api_items]. *)
Definition metals_item (latest_payload : value) (rates prev_rates : row)
    (base symbol name : string) : result value :=
  let! rate := to_float (dict_get rates symbol) in
  let! last_price := price_from_rate rate in
  let! prev_rate := to_float (dict_get prev_rates symbol) in
  let! prev_price := price_from_rate prev_rate in
  let! change_pair := metals_change last_price prev_price in
  let! last := format_number last_price 2 in
  let! change := format_number change_pair.1 2 in
  let! change_pct := format_number change_pair.2 2 in
  let! last_update :=
    match latest_payload with
    | VDict d => Ok (PyDict.get_or d "date" (VStr ""))
    | _ => Raise AttributeError
    end in
  Ok (VDict (PyDict.of_items
               [ ("name", VStr name); ("symbol", VStr symbol); ("last", last);
                 ("change", change); ("change_pct", change_pct);
                 ("unit", VStr (base ++ "/oz")); ("last_update", last_update) ]%string)).

(** [METALS_API_BASE] is the parameter [base]. *)
Definition build_metals_api_items (latest_payload : value) (prev_rates : row)
    (base : string) : result (list value) :=
  let rates :=
    match latest_payload with
    | VDict d => dict_get d "rates"
    | _ => VDict ∅
    end in
  let rates := match rates with VDict r => r | _ => ∅ end in
  let! gold := metals_item latest_payload rates prev_rates base "XAU" "Gold" in
  let! silver := metals_item latest_payload rates prev_rates base "XAG" "Silver" in
  Ok [gold; silver].

(** What [format_number] makes of the change and of its percentage:
    both empty, or both numbers. *)
Definition both_or_neither (change pct : value) : Prop :=
  (change = VStr "" /\ pct = VStr "") \/
  (exists x y, change = VFloat (round2 x) /\ pct = VFloat (round2 y)).

Lemma price_from_rate_ok (rate : option float) :
  exists p, price_from_rate rate = Ok p.
Proof.
  destruct rate as [r|]; simpl; [|eauto].
  destruct (F.eqb r F.zero) eqn:E; [eauto|].
  rewrite truediv_nonzero by assumption. simpl. eauto.
Qed.

Lemma metals_change_ok (last_price prev_price : option float) :
  exists pair : option float * option float,
    metals_change last_price prev_price = Ok pair /\
    (last_price = None -> pair = (None, None)) /\
    ((pair.1 = None /\ pair.2 = None) \/ (exists x y, pair = (Some x, Some y))).
Proof.
  unfold metals_change.
  destruct last_price as [l|]; [|eexists; split; [reflexivity|]; split; auto].
  destruct prev_price as [p0|];
    [|eexists; split; [reflexivity|]; split; [discriminate|auto]].
  cbn [not_none_or_zero]. destruct (F.eqb p0 F.zero) eqn:Ez; cbn [negb].
  - eexists. split; [reflexivity|]. split; [discriminate|auto].
  - cbv zeta. rewrite truediv_nonzero by assumption. cbn [bind].
    eexists. split; [reflexivity|]. split; [discriminate|]. right. eauto.
Qed.

Lemma metals_item_outcome (p rates prev_rates : row) (base symbol name : string) :
  (forall e, metals_item (VDict p) rates prev_rates base symbol name = Raise e ->
     e = OverflowError) /\
  (forall v, metals_item (VDict p) rates prev_rates base symbol name = Ok v ->
     exists last change pct,
       numeric_or_empty last /\ both_or_neither change pct /\
       (dict_get rates symbol = VNone -> last = VStr "" /\ change = VStr "") /\
       v = VDict (PyDict.of_items
                    [ ("name", VStr name); ("symbol", VStr symbol); ("last", last);
                      ("change", change); ("change_pct", pct);
                      ("unit", VStr (base ++ "/oz"));
                      ("last_update", PyDict.get_or p "date" (VStr "")) ]%string)).
Proof.
  unfold metals_item.
  destruct (to_float (dict_get rates symbol)) as [rate|e1] eqn:E1.
  2: { split; [|discriminate]. intros e [= <-].
       now apply to_float_raises in E1 as [-> _]. }
  cbn [bind]. destruct (price_from_rate_ok rate) as [last_price Hlast].
  rewrite Hlast. cbn [bind].
  destruct (to_float (dict_get prev_rates symbol)) as [prev_rate|e2] eqn:E2.
  2: { split; [|discriminate]. intros e [= <-].
       now apply to_float_raises in E2 as [-> _]. }
  cbn [bind]. destruct (price_from_rate_ok prev_rate) as [prev_price Hprev].
  rewrite Hprev. cbn [bind].
  destruct (metals_change_ok last_price prev_price) as (pair & -> & Hnone & Hpair).
  cbn [bind]. rewrite !format_number_2. cbn [bind].
  split; [discriminate|]. intros v [= <-].
  eexists _, _, _. split; [|split; [|split; [|reflexivity]]].
  - destruct last_price; [right; eauto | now left].
  - destruct Hpair as [[-> ->] | (x & y & ->)]; [now left | right; eauto].
  - intros Hmiss. rewrite Hmiss in E1. simpl in E1. injection E1 as <-.
    simpl in Hlast. injection Hlast as <-. now rewrite (Hnone eq_refl).
Qed.

(** For a payload that is a dictionary, [build_metals_api_items] fails
    only with the OverflowError of a rate that is an integer beyond the
    float range, never with a division by zero; when it returns, it returns
    the item of gold and then that of silver, each with its seven keys;
    [last] is a float rounded to two decimals or the empty string;
    [change] and [change_pct] are both such floats or both empty.  For a
    payload that is not a dictionary it does not return. *)
Theorem metals_items_outcome (latest_payload : value) (prev_rates : row)
    (base : string) :
  (forall p e, latest_payload = VDict p ->
     build_metals_api_items latest_payload prev_rates base = Raise e ->
     e = OverflowError) /\
  (forall p items, latest_payload = VDict p ->
     build_metals_api_items latest_payload prev_rates base = Ok items ->
     exists g s,
       items = [VDict g; VDict s] /\
       g !! "name"%string = Some (VStr "Gold") /\
       g !! "symbol"%string = Some (VStr "XAU") /\
       s !! "name"%string = Some (VStr "Silver") /\
       s !! "symbol"%string = Some (VStr "XAG") /\
       Forall (fun d : row =>
                 dom d = list_to_set ["name"; "symbol"; "last"; "change";
                                      "change_pct"; "unit"; "last_update"]%string /\
                 d !! "unit"%string = Some (VStr (base ++ "/oz")) /\
                 d !! "last_update"%string = Some (PyDict.get_or p "date" (VStr "")) /\
                 exists last change pct,
                   d !! "last"%string = Some last /\
                   d !! "change"%string = Some change /\
                   d !! "change_pct"%string = Some pct /\
                   numeric_or_empty last /\ both_or_neither change pct) [g; s]) /\
  (as_dict latest_payload = None ->
   forall items, build_metals_api_items latest_payload prev_rates base <> Ok items).
Proof.
  split; [|split].
  - intros p e -> H. unfold build_metals_api_items in H. cbv zeta in H.
    set (rates := match dict_get p "rates" with VDict r => r | _ => ∅ end) in H.
    destruct (metals_item (VDict p) rates prev_rates base "XAU" "Gold") as [g|e1] eqn:E1.
    2: { injection H as <-. eapply metals_item_outcome; eauto. }
    cbn [bind] in H.
    destruct (metals_item (VDict p) rates prev_rates base "XAG" "Silver") as [s|e2] eqn:E2;
      [discriminate|].
    injection H as <-. eapply metals_item_outcome; eauto.
  - intros p items -> H. unfold build_metals_api_items in H. cbv zeta in H.
    set (rates := match dict_get p "rates" with VDict r => r | _ => ∅ end) in H.
    inv_ok.
    apply metals_item_outcome in Ha as (l1 & c1 & p1 & Hl1 & Hb1 & _ & ->).
    apply metals_item_outcome in Ha0 as (l2 & c2 & p2 & Hl2 & Hb2 & _ & ->).
    eexists _, _. split; [reflexivity|].
    repeat split; try reflexivity.
    apply Forall_cons_2; [|apply Forall_cons_2; [|apply Forall_nil_2]].
    + split; [now rewrite of_items_dom|]. split; [reflexivity|].
      split; [reflexivity|]. exists l1, c1, p1. repeat split; assumption.
    + split; [now rewrite of_items_dom|]. split; [reflexivity|].
      split; [reflexivity|]. exists l2, c2, p2. repeat split; assumption.
  - intros Hnd items H. unfold build_metals_api_items in H. cbv zeta in H.
    inv_ok. unfold metals_item in Ha. inv_ok.
    destruct latest_payload; discriminate.
Qed.

Definition metals_payload : row :=
  <["rates"%string := VDict (<["XAU"%string := VStr "0.0005"]> ∅)]> ∅.

Lemma metals_payload_items :
  exists items, build_metals_api_items (VDict metals_payload) ∅ "USD" = Ok items.
Proof. eexists. vm_compute. reflexivity. Qed.

Lemma metals_items_outcome_witness :
  exists g s,
    build_metals_api_items (VDict metals_payload) ∅ "USD" = Ok [VDict g; VDict s] /\
    g !! "name"%string = Some (VStr "Gold") /\
    s !! "symbol"%string = Some (VStr "XAG").
Proof.
  destruct metals_payload_items as [items Hitems].
  destruct (proj1 (proj2 (metals_items_outcome (VDict metals_payload) ∅ "USD"))
              metals_payload items eq_refl Hitems)
    as (g & s & -> & Hg & _ & _ & Hs & _).
  exists g, s. auto.
Defined.

(** * Expiry dates *)

Local Open Scope string_scope.
Local Open Scope Z_scope.

(** The parts of [datetime.strptime], [strftime], [str.title] and
    [str.upper] that the expiry functions use, in the C locale.  Only the
    letters A-Z and a-z change case here: of the other characters
    below 256 only the sharp s becomes letters, a double s, which no name
    of a month has, and none becomes a digit or a hyphen, so that the
    outcome of [strptime] is the same. *)
Module Strp.

Local Open Scope string_scope.
Local Open Scope Z_scope.

(** A [datetime] at midnight. *)
Record date := { year : Z; month : Z; day : Z }.

Definition is_leap (y : Z) : bool :=
  (y mod 4 =? 0) && (negb (y mod 100 =? 0) || (y mod 400 =? 0)).

Definition days_in_month (y m : Z) : Z :=
  if m =? 2 then (if is_leap y then 29 else 28)
  else if (m =? 4) || (m =? 6) || (m =? 9) || (m =? 11) then 30
  else 31.

Definition valid (y m d : Z) : bool :=
  (1 <=? y) && (y <=? 9999) && (1 <=? m) && (m <=? 12)
  && (1 <=? d) && (d <=? days_in_month y m).

(** [datetime(year, month, day)] *)
Definition make_date (y m d : Z) : result date :=
  if valid y m d then Ok {| year := y; month := m; day := d |}
  else Raise ValueError.

(** [a < b] on dates. *)
Definition date_ltb (a b : date) : bool :=
  (year a <? year b)
  || ((year a =? year b)
      && ((month a <? month b) || ((month a =? month b) && (day a <? day b)))).

Definition is_letter (c : ascii) : bool :=
  let n := Py.code c in
  ((65 <=? n) && (n <=? 90)) || ((97 <=? n) && (n <=? 122)).

Definition upper (c : ascii) : ascii :=
  let n := Py.code c in
  if (97 <=? n) && (n <=? 122) then ascii_of_N (Z.to_N (n - 32)) else c.

(** [s.upper()] *)
Fixpoint upper_string (s : string) : string :=
  match s with
  | String c r => String (upper c) (upper_string r)
  | EmptyString => EmptyString
  end.

(** [s.title()]: a letter after a letter is lowered, another letter is
    raised. *)
Fixpoint title_from (after_letter : bool) (s : string) : string :=
  match s with
  | String c r =>
      String (if is_letter c then (if after_letter then Py.lower c else upper c) else c)
             (title_from (is_letter c) r)
  | EmptyString => EmptyString
  end.

Definition title (s : string) : string := title_from false s.

(** *** The patterns of the directives *)

Inductive directive := Dd | Db | DB | DY | Lit (c : ascii).

(** What a match has found so far; [strptime] starts from 1900-01-01. *)
Record fields := { f_year : Z; f_month : Z; f_day : Z }.

Definition start : fields := {| f_year := 1900; f_month := 1; f_day := 1 |}.

Definition set_day (d : Z) (f : fields) : fields :=
  {| f_year := f_year f; f_month := f_month f; f_day := d |}.
Definition set_month (m : Z) (f : fields) : fields :=
  {| f_year := f_year f; f_month := m; f_day := f_day f |}.
Definition set_year (y : Z) (f : fields) : fields :=
  {| f_year := y; f_month := f_month f; f_day := f_day f |}.

(** The names of [%b] and of [%B], in the order of the alternation (the
    longest first), with the number of the month. *)
Definition a_month : list (string * Z) :=
  [ ("jan", 1); ("feb", 2); ("mar", 3); ("apr", 4); ("may", 5); ("jun", 6);
    ("jul", 7); ("aug", 8); ("sep", 9); ("oct", 10); ("nov", 11); ("dec", 12) ].

Definition f_month_names : list (string * Z) :=
  [ ("september", 9); ("february", 2); ("november", 11); ("december", 12);
    ("january", 1); ("october", 10); ("august", 8); ("march", 3); ("april", 4);
    ("june", 6); ("july", 7); ("may", 5) ].

(** The rest of [s] after [name], letters compared without their case. *)
Fixpoint strip_name (name s : string) : option string :=
  match name, s with
  | EmptyString, _ => Some s
  | String a name', String b s' =>
      if Ascii.eqb a (Py.lower b) then strip_name name' s' else None
  | _, _ => None
  end.

(** [3[0-1]|[1-2]\d|0[1-9]|[1-9]| [1-9]]: the alternatives that match at
    the start of [s], in order, each with the day and the rest. *)
Definition day_alternatives (s : string) : list (Z * string) :=
  let digit c := Py.digit_val c in
  let nonzero c := match digit c with Some d => if 1 <=? d then Some d else None | None => None end in
  match s with
  | String c1 r1 =>
      (match digit c1, r1 with
       | Some 3, String c2 r2 =>
           match digit c2 with
           | Some d2 => if d2 <=? 1 then [(30 + d2, r2)] else []
           | None => []
           end
       | _, _ => []
       end)
      ++ (match digit c1, r1 with
          | Some d1, String c2 r2 =>
              if (1 <=? d1) && (d1 <=? 2) then
                match digit c2 with
                | Some d2 => [(10 * d1 + d2, r2)]
                | None => []
                end
              else []
          | _, _ => []
          end)
      ++ (match digit c1, r1 with
          | Some 0, String c2 r2 =>
              match nonzero c2 with Some d2 => [(d2, r2)] | None => [] end
          | _, _ => []
          end)
      ++ (match nonzero c1 with Some d1 => [(d1, r1)] | None => [] end)
      ++ (if Ascii.eqb c1 " " then
            match r1 with
            | String c2 r2 =>
                match nonzero c2 with Some d2 => [(d2, r2)] | None => [] end
            | EmptyString => []
            end
          else [])
  | EmptyString => []
  end.

Definition name_alternatives (names : list (string * Z)) (s : string)
    : list (Z * string) :=
  omap (fun nm : string * Z =>
          match strip_name nm.1 s with
          | Some rest => Some (nm.2, rest)
          | None => None
          end) names.

(** [\d\d\d\d] *)
Definition year_alternatives (s : string) : list (Z * string) :=
  match s with
  | String a (String b (String c (String d r))) =>
      match Py.digit_val a, Py.digit_val b, Py.digit_val c, Py.digit_val d with
      | Some a, Some b, Some c, Some d => [(1000 * a + 100 * b + 10 * c + d, r)]
      | _, _, _, _ => []
      end
  | _ => []
  end.

Definition alternatives (d : directive) (s : string)
    : list ((fields -> fields) * string) :=
  match d with
  | Dd => map (fun a : Z * string => (set_day a.1, a.2)) (day_alternatives s)
  | Db => map (fun a : Z * string => (set_month a.1, a.2)) (name_alternatives a_month s)
  | DB => map (fun a : Z * string => (set_month a.1, a.2))
              (name_alternatives f_month_names s)
  | DY => map (fun a : Z * string => (set_year a.1, a.2)) (year_alternatives s)
  | Lit c =>
      match s with
      | String b r => if Ascii.eqb (Py.lower c) (Py.lower b) then [(id, r)] else []
      | EmptyString => []
      end
  end.

Fixpoint first_some {A B} (f : A -> option B) (l : list A) : option B :=
  match l with
  | [] => None
  | a :: r => match f a with Some b => Some b | None => first_some f r end
  end.

(** The first match of the pattern of [fmt] at the start of [s]: the
    alternatives of a directive are tried in order, the rest of the
    pattern deciding. *)
Fixpoint match_fmt (fmt : list directive) (s : string) (acc : fields)
    : option (fields * string) :=
  match fmt with
  | [] => Some (acc, s)
  | d :: rest =>
      first_some (fun a : (fields -> fields) * string => match_fmt rest a.2 (a.1 acc))
                 (alternatives d s)
  end.

(** [datetime.strptime(s, fmt)]: the match has to end where [s] ends, and
    the date has to exist. *)
Definition strptime (s : string) (fmt : list directive) : result date :=
  match match_fmt fmt s start with
  | Some (f, EmptyString) => make_date (f_year f) (f_month f) (f_day f)
  | _ => Raise ValueError
  end.

(** *** [strftime("%d-%b-%Y")] *)

Definition month_abbr (m : Z) : string :=
  match m with
  | 1 => "Jan" | 2 => "Feb" | 3 => "Mar" | 4 => "Apr" | 5 => "May" | 6 => "Jun"
  | 7 => "Jul" | 8 => "Aug" | 9 => "Sep" | 10 => "Oct" | 11 => "Nov" | _ => "Dec"
  end.

(** [%Y], as glibc prints it: the year is not padded. *)
Definition year_text (y : Z) : string :=
  if y <? 10 then String (Date.digit_char y) ""
  else if y <? 100 then Date.pad2 y ""
  else if y <? 1000 then String (Date.digit_char (y / 100)) (Date.pad2 y "")
  else Date.pad4 y "".

End Strp.

(** ** The NSE expiry functions *)

Local Open Scope string_scope.
Local Open Scope Z_scope.

Definition fmt_d_b_Y : list Strp.directive :=
  [Strp.Dd; Strp.Lit "-"; Strp.Db; Strp.Lit "-"; Strp.DY].
Definition fmt_d_B_Y : list Strp.directive :=
  [Strp.Dd; Strp.Lit "-"; Strp.DB; Strp.Lit "-"; Strp.DY].
Definition fmt_dbY : list Strp.directive := [Strp.Dd; Strp.Db; Strp.DY].

(** [re.match(r"^\d{2}-\d{2}-\d{4}$", value)] and [value.split("-")]: the
    day, the month and the year as [int] reads them.  [$] also matches
    before a last newline, which [int] drops. *)
Definition match_dmy (s : string) : option (Z * Z * Z) :=
  match s with
  | String d1 (String d2 (String "-" (String m1 (String m2 (String "-"
      (String y1 (String y2 (String y3 (String y4 r))))))))) =>
      match Py.digit_val d1, Py.digit_val d2, Py.digit_val m1, Py.digit_val m2,
            Py.digit_val y1, Py.digit_val y2, Py.digit_val y3, Py.digit_val y4 with
      | Some d1, Some d2, Some m1, Some m2, Some y1, Some y2, Some y3, Some y4 =>
          if String.eqb r "" || String.eqb r (String "010" "")
          then Some (10 * d1 + d2, 10 * m1 + m2,
                     1000 * y1 + 100 * y2 + 10 * y3 + y4)
          else None
      | _, _, _, _, _, _, _, _ => None
      end
  | _ => None
  end.

(** [parse_nse_expiry] of a string. *)
Definition parse_nse_expiry (value : string) : result (option Strp.date) :=
  if String.eqb value "" then Ok None
  else
    let value := Py.strip value in
    match match_dmy value with
    | Some (d, m, y) => let! dt := Strp.make_date y m d in Ok (Some dt)
    | None =>
        match Strp.strptime (Strp.title value) fmt_d_b_Y with
        | Ok dt => Ok (Some dt)
        | Raise ValueError =>
            match Strp.strptime (Strp.title value) fmt_d_B_Y with
            | Ok dt => Ok (Some dt)
            | Raise ValueError => Ok None
            | Raise e => Raise e
            end
        | Raise e => Raise e
        end
    end.

Definition format_nse_expiry (dt : Strp.date) : string :=
  Date.pad2 (Strp.day dt)
    (String "-" (Strp.month_abbr (Strp.month dt)
                 ++ String "-" (Strp.year_text (Strp.year dt)))).

(** [normalize_nse_expiry] of a string or of [None]. *)
Definition normalize_nse_expiry (value : option string) : result (option string) :=
  match value with
  | None => Ok None
  | Some s =>
      if String.eqb s "" then Ok None
      else
        let! parsed := parse_nse_expiry s in
        match parsed with
        | Some dt => Ok (Some (format_nse_expiry dt))
        | None => Ok (Some s)
        end
  end.

(** [parse_expiry_date] of a string. *)
Definition parse_expiry_date (value : string) : option Strp.date :=
  if String.eqb value "" then None
  else
    match Strp.strptime (Strp.upper_string value) fmt_dbY with
    | Ok dt => Some dt
    | Raise _ => None
    end.

(** Tests against the library. *)
Example parse_nse_expiry_examples :
  parse_nse_expiry "15-Jan-2024" = Ok (Some {| Strp.year := 2024; Strp.month := 1; Strp.day := 15 |}) /\
  parse_nse_expiry " 5-jan-2024" = Ok (Some {| Strp.year := 2024; Strp.month := 1; Strp.day := 5 |}) /\
  parse_nse_expiry "15-JANUARY-2024 " = Ok (Some {| Strp.year := 2024; Strp.month := 1; Strp.day := 15 |}) /\
  parse_nse_expiry "29-Feb-2023" = Ok None /\
  parse_nse_expiry "15-Sept-2024" = Ok None /\
  parse_nse_expiry "25-01-2024" = Ok (Some {| Strp.year := 2024; Strp.month := 1; Strp.day := 25 |}) /\
  parse_nse_expiry "31-02-2024" = Raise ValueError /\
  parse_nse_expiry "15-Jan-0999" = Ok (Some {| Strp.year := 999; Strp.month := 1; Strp.day := 15 |}) /\
  format_nse_expiry {| Strp.year := 999; Strp.month := 1; Strp.day := 5 |} = "05-Jan-999" /\
  format_nse_expiry {| Strp.year := 2024; Strp.month := 12; Strp.day := 25 |} = "25-Dec-2024" /\
  parse_expiry_date "18FEB2026" = Some {| Strp.year := 2026; Strp.month := 2; Strp.day := 18 |} /\
  parse_expiry_date "1feb2026" = Some {| Strp.year := 2026; Strp.month := 2; Strp.day := 1 |} /\
  parse_expiry_date "181FEB2026" = None /\
  parse_expiry_date "18FEB026" = None /\
  Strp.title "15-jan-2024 x-ray 3d" = "15-Jan-2024 X-Ray 3D".
Proof. repeat split; vm_compute; reflexivity. Qed.

(** ** Digits in the texts of dates *)

Lemma digit_char_cases (x : Z) :
  exists k, 0 <= k <= 9 /\ Date.digit_char x = ascii_of_N (Z.to_N (48 + k)) /\
            k = x mod 10.
Proof.
  exists (x mod 10). split; [|split; reflexivity].
  pose proof (Z.mod_pos_bound x 10 ltac:(lia)). lia.
Qed.

Ltac digit_cases x :=
  let k := fresh "k" in let Hk := fresh "Hk" in let E := fresh "E" in
  destruct (digit_char_cases x) as (k & Hk & E & _); rewrite E; clear E;
  assert (k = 0 \/ k = 1 \/ k = 2 \/ k = 3 \/ k = 4 \/ k = 5 \/ k = 6 \/ k = 7
          \/ k = 8 \/ k = 9) as Hk' by lia; clear Hk;
  repeat (destruct Hk' as [-> | Hk']; [reflexivity|]); subst; reflexivity.

Lemma is_space_digit_char (x : Z) : Py.is_space (Date.digit_char x) = false.
Proof. digit_cases x. Qed.

Lemma is_letter_digit_char (x : Z) : Strp.is_letter (Date.digit_char x) = false.
Proof. digit_cases x. Qed.

Lemma upper_digit_char (x : Z) : Strp.upper (Date.digit_char x) = Date.digit_char x.
Proof. digit_cases x. Qed.

Lemma lower_digit_char (x : Z) : Py.lower (Date.digit_char x) = Date.digit_char x.
Proof. digit_cases x. Qed.

Lemma eqb_space_digit_char (x : Z) : Ascii.eqb (Date.digit_char x) " " = false.
Proof. digit_cases x. Qed.

Lemma eqb_hyphen_digit_char (x : Z) :
  Ascii.eqb "-" (Date.digit_char x) = false.
Proof. digit_cases x. Qed.

(** The alternatives of [%d] on a day of two digits: the day, and for a
    day from 10 its first digit alone. *)
Lemma day_alternatives_pad2 (d : Z) (rest : string) :
  1 <= d <= 31 ->
  Strp.day_alternatives (Date.pad2 d rest) =
  (d, rest) :: (if (10 <=? d)%Z then [(d / 10, String (Date.digit_char d) rest)] else []).
Proof.
  intros Hd.
  assert (d = 1 \/ d = 2 \/ d = 3 \/ d = 4 \/ d = 5 \/ d = 6 \/ d = 7 \/ d = 8
          \/ d = 9 \/ d = 10 \/ d = 11 \/ d = 12 \/ d = 13 \/ d = 14 \/ d = 15
          \/ d = 16 \/ d = 17 \/ d = 18 \/ d = 19 \/ d = 20 \/ d = 21 \/ d = 22
          \/ d = 23 \/ d = 24 \/ d = 25 \/ d = 26 \/ d = 27 \/ d = 28 \/ d = 29
          \/ d = 30 \/ d = 31) as H by lia.
  repeat (destruct H as [-> | H]; [reflexivity|]). subst. reflexivity.
Qed.

Lemma year_alternatives_pad4 (y : Z) :
  0 <= y <= 9999 -> Strp.year_alternatives (Date.pad4 y "") = [(y, "")].
Proof.
  intros Hy. unfold Strp.year_alternatives, Date.pad4, Date.pad2.
  rewrite !IsoText.digit_val_digit_char. do 2 f_equal. Z.div_mod_to_equations. lia.
Qed.

(** A year below 1000 is printed with fewer than four digits. *)
Lemma year_alternatives_short (y : Z) :
  y < 1000 -> Strp.year_alternatives (Strp.year_text y) = [].
Proof.
  intros Hy. unfold Strp.year_text.
  destruct (y <? 10)%Z; [reflexivity|]. destruct (y <? 100)%Z; [reflexivity|].
  destruct (Z.ltb_spec y 1000); [reflexivity | lia].
Qed.

Lemma year_text_pad4 (y : Z) : 1000 <= y -> Strp.year_text y = Date.pad4 y "".
Proof.
  intros Hy. unfold Strp.year_text.
  destruct (Z.ltb_spec y 10); [lia|]. destruct (Z.ltb_spec y 100); [lia|].
  destruct (Z.ltb_spec y 1000); [lia | reflexivity].
Qed.

(** ** Texts without white space at their ends *)

Lemma rev_string_involutive (s : string) : Py.rev_string (Py.rev_string s) = s.
Proof.
  unfold Py.rev_string.
  now rewrite list_ascii_of_string_of_list_ascii, rev_involutive,
    string_of_list_ascii_of_string.
Qed.

Lemma strip_id (s : string) :
  match s with String c _ => Py.is_space c = false | EmptyString => True end ->
  match rev (list_ascii_of_string s) with
  | l :: _ => Py.is_space l = false
  | [] => True
  end ->
  Py.strip s = s.
Proof.
  intros H1 H2. unfold Py.strip.
  assert (Py.lstrip s = s) as -> by (destruct s; simpl; [reflexivity | now rewrite H1]).
  assert (Py.lstrip (Py.rev_string s) = Py.rev_string s) as ->.
  { unfold Py.rev_string. destruct (rev (list_ascii_of_string s)); simpl;
      [reflexivity | now rewrite H2]. }
  apply rev_string_involutive.
Qed.

Ltac month_cases m H :=
  assert (m = 1 \/ m = 2 \/ m = 3 \/ m = 4 \/ m = 5 \/ m = 6 \/ m = 7 \/ m = 8
          \/ m = 9 \/ m = 10 \/ m = 11 \/ m = 12)%Z as H by lia;
  repeat (destruct H as [-> | H]); [..|subst m].

Ltac year_shapes y :=
  unfold format_nse_expiry, Strp.year_text; cbn [Strp.year Strp.month Strp.day];
  destruct (y <? 10)%Z; [|destruct (y <? 100)%Z; [|destruct (y <? 1000)%Z]].

Ltac text_cbv :=
  cbv [Date.pad2 Date.pad4 Strp.month_abbr String.append list_ascii_of_string
       rev app Strp.title Strp.title_from Strp.upper_string match_dmy].

Lemma strip_format (dt : Strp.date) :
  (1 <= Strp.month dt <= 12)%Z ->
  Py.strip (format_nse_expiry dt) = format_nse_expiry dt.
Proof.
  destruct dt as [y m d]. cbn [Strp.month]. intros Hm.
  month_cases m H; year_shapes y; apply strip_id; text_cbv;
    apply is_space_digit_char.
Qed.

Lemma title_format (dt : Strp.date) :
  (1 <= Strp.month dt <= 12)%Z ->
  Strp.title (format_nse_expiry dt) = format_nse_expiry dt.
Proof.
  destruct dt as [y m d]. cbn [Strp.month]. intros Hm.
  month_cases m H; year_shapes y; text_cbv;
    rewrite !is_letter_digit_char; reflexivity.
Qed.

Lemma match_dmy_format (dt : Strp.date) :
  (1 <= Strp.month dt <= 12)%Z -> match_dmy (format_nse_expiry dt) = None.
Proof.
  destruct dt as [y m d]. cbn [Strp.month]. intros Hm.
  month_cases m H; year_shapes y; text_cbv;
    rewrite ?IsoText.digit_val_digit_char; reflexivity.
Qed.

(** ** The alternatives on the texts of dates *)

Lemma alt_hyphen (r : string) :
  Strp.alternatives (Strp.Lit "-") (String "-" r) = [(id, r)].
Proof. reflexivity. Qed.

Lemma alt_hyphen_digit (x : Z) (r : string) :
  Strp.alternatives (Strp.Lit "-") (String (Date.digit_char x) r) = [].
Proof.
  cbn [Strp.alternatives]. rewrite lower_digit_char.
  change (Py.lower "-") with "-"%char. now rewrite eqb_hyphen_digit_char.
Qed.

Lemma alt_b_abbr (m : Z) (r : string) :
  (1 <= m <= 12)%Z ->
  Strp.name_alternatives Strp.a_month (Strp.month_abbr m ++ String "-" r)
  = [(m, String "-" r)].
Proof. intros Hm. month_cases m H; reflexivity. Qed.

Lemma alt_B_abbr (m : Z) (r : string) :
  (1 <= m <= 12)%Z ->
  Strp.name_alternatives Strp.f_month_names (Strp.month_abbr m ++ String "-" r)
  = if (m =? 5)%Z then [(5%Z, String "-" r)] else [].
Proof. intros Hm. month_cases m H; reflexivity. Qed.

Lemma alt_names_digit (names : list (string * Z)) (x : Z) (r : string) :
  Forall (fun nm : string * Z =>
            match nm.1 with
            | String c _ => Strp.is_letter c = true
            | EmptyString => False
            end) names ->
  Strp.name_alternatives names (String (Date.digit_char x) r) = [].
Proof.
  induction 1 as [|[name k] names Hn _ IH]; [reflexivity|].
  unfold Strp.name_alternatives in *. cbn [omap list_omap fst snd] in *.
  destruct name as [|c name]; [contradiction|]. cbn [Strp.strip_name].
  rewrite lower_digit_char.
  assert (Ascii.eqb c (Date.digit_char x) = false) as ->; [|exact IH].
  apply Ascii.eqb_neq. intros ->. rewrite is_letter_digit_char in Hn. discriminate.
Qed.

Lemma a_month_letters :
  Forall (fun nm : string * Z =>
            match nm.1 with
            | String c _ => Strp.is_letter c = true
            | EmptyString => False
            end) Strp.a_month.
Proof. repeat constructor. Qed.

(** ** [strptime] on the texts of [strftime] *)

Lemma valid_bounds (y m d : Z) :
  Strp.valid y m d = true -> 1 <= y <= 9999 /\ 1 <= m <= 12 /\ 1 <= d <= 31.
Proof.
  unfold Strp.valid, Strp.days_in_month. intros H.
  repeat (apply andb_prop in H as [H ?]).
  assert (d <= 31); [|lia].
  destruct (m =? 2); [destruct (Strp.is_leap y); lia|].
  destruct ((m =? 4) || (m =? 6) || (m =? 9) || (m =? 11)); lia.
Qed.

Lemma alt_d_pad2 (d : Z) (rest : string) :
  1 <= d <= 31 ->
  Strp.alternatives Strp.Dd (Date.pad2 d rest) =
  (Strp.set_day d, rest)
  :: (if 10 <=? d
      then [(Strp.set_day (d / 10), String (Date.digit_char d) rest)]
      else []).
Proof.
  intros Hd. cbn [Strp.alternatives]. rewrite day_alternatives_pad2 by assumption.
  now destruct (10 <=? d).
Qed.

Lemma alt_b_format (m : Z) (r : string) :
  1 <= m <= 12 ->
  Strp.alternatives Strp.Db (Strp.month_abbr m ++ String "-" r)
  = [(Strp.set_month m, String "-" r)].
Proof. intros Hm. cbn [Strp.alternatives]. now rewrite alt_b_abbr. Qed.

Lemma alt_B_format (m : Z) (r : string) :
  1 <= m <= 12 ->
  Strp.alternatives Strp.DB (Strp.month_abbr m ++ String "-" r)
  = if m =? 5 then [(Strp.set_month 5, String "-" r)] else [].
Proof.
  intros Hm. cbn [Strp.alternatives]. rewrite alt_B_abbr by assumption.
  now destruct (m =? 5).
Qed.

Lemma alt_Y_short (y : Z) :
  y < 1000 -> Strp.alternatives Strp.DY (Strp.year_text y) = [].
Proof. intros Hy. cbn [Strp.alternatives]. now rewrite year_alternatives_short. Qed.

Lemma alt_Y_pad4 (y : Z) :
  0 <= y <= 9999 ->
  Strp.alternatives Strp.DY (Date.pad4 y "") = [(Strp.set_year y, "")].
Proof. intros Hy. cbn [Strp.alternatives]. now rewrite year_alternatives_pad4. Qed.

Ltac next_alt := cbn [Strp.first_some fst snd id].

(** After the day, the month and the hyphens only the year is left to
    read. *)
Lemma match_fmt_b_format (y m d : Z) :
  1 <= m <= 12 -> 1 <= d <= 31 ->
  Strp.match_fmt fmt_d_b_Y
    (format_nse_expiry {| Strp.year := y; Strp.month := m; Strp.day := d |})
    Strp.start
  = Strp.match_fmt [Strp.DY] (Strp.year_text y)
      (Strp.set_month m (Strp.set_day d Strp.start)).
Proof.
  intros Hm Hd. unfold format_nse_expiry, fmt_d_b_Y.
  cbn [Strp.year Strp.month Strp.day Strp.match_fmt].
  rewrite alt_d_pad2 by assumption. next_alt.
  rewrite alt_hyphen. next_alt.
  rewrite alt_b_format by assumption. next_alt.
  rewrite alt_hyphen. next_alt.
  destruct (Strp.first_some _ (Strp.alternatives Strp.DY _)) as [r|];
    [reflexivity|].
  destruct (10 <=? d); [|reflexivity].
  next_alt. now rewrite alt_hyphen_digit.
Qed.

Lemma match_fmt_B_format (y m d : Z) :
  1 <= m <= 12 -> 1 <= d <= 31 ->
  Strp.match_fmt fmt_d_B_Y
    (format_nse_expiry {| Strp.year := y; Strp.month := m; Strp.day := d |})
    Strp.start
  = if m =? 5
    then Strp.match_fmt [Strp.DY] (Strp.year_text y)
           (Strp.set_month m (Strp.set_day d Strp.start))
    else None.
Proof.
  intros Hm Hd. unfold format_nse_expiry, fmt_d_B_Y.
  cbn [Strp.year Strp.month Strp.day Strp.match_fmt].
  rewrite alt_d_pad2 by assumption. next_alt.
  rewrite alt_hyphen. next_alt.
  rewrite alt_B_format by assumption.
  destruct (Z.eqb_spec m 5) as [->|Hm5]; next_alt.
  - rewrite alt_hyphen. next_alt.
    destruct (Strp.first_some _ (Strp.alternatives Strp.DY _)) as [r|];
      [reflexivity|].
    destruct (10 <=? d); [|reflexivity].
    next_alt. now rewrite alt_hyphen_digit.
  - destruct (10 <=? d); [|reflexivity].
    next_alt. now rewrite alt_hyphen_digit.
Qed.

Lemma strptime_format_b (y m d : Z) :
  Strp.valid y m d = true ->
  Strp.strptime
    (format_nse_expiry {| Strp.year := y; Strp.month := m; Strp.day := d |})
    fmt_d_b_Y
  = if 1000 <=? y
    then Ok {| Strp.year := y; Strp.month := m; Strp.day := d |}
    else Raise ValueError.
Proof.
  intros Hv. destruct (valid_bounds _ _ _ Hv) as (Hy & Hm & Hd).
  unfold Strp.strptime. rewrite match_fmt_b_format by assumption.
  cbn [Strp.match_fmt]. destruct (Z.leb_spec 1000 y).
  - rewrite year_text_pad4, alt_Y_pad4 by lia. next_alt.
    cbn [Strp.set_year Strp.set_month Strp.set_day Strp.f_year Strp.f_month
         Strp.f_day Strp.start].
    unfold Strp.make_date. now rewrite Hv.
  - now rewrite alt_Y_short by lia.
Qed.

Lemma strptime_format_B (y m d : Z) :
  Strp.valid y m d = true ->
  Strp.strptime
    (format_nse_expiry {| Strp.year := y; Strp.month := m; Strp.day := d |})
    fmt_d_B_Y
  = if (m =? 5) && (1000 <=? y)
    then Ok {| Strp.year := y; Strp.month := m; Strp.day := d |}
    else Raise ValueError.
Proof.
  intros Hv. destruct (valid_bounds _ _ _ Hv) as (Hy & Hm & Hd).
  unfold Strp.strptime. rewrite match_fmt_B_format by assumption.
  destruct (m =? 5); [|reflexivity].
  cbn [Strp.match_fmt andb]. destruct (Z.leb_spec 1000 y).
  - rewrite year_text_pad4, alt_Y_pad4 by lia. next_alt.
    cbn [Strp.set_year Strp.set_month Strp.set_day Strp.f_year Strp.f_month
         Strp.f_day Strp.start].
    unfold Strp.make_date. now rewrite Hv.
  - now rewrite alt_Y_short by lia.
Qed.

(** ** The round trip of the canonical text *)

Lemma format_not_empty (dt : Strp.date) :
  String.eqb (format_nse_expiry dt) "" = false.
Proof. reflexivity. Qed.

Lemma parse_format (dt : Strp.date) :
  Strp.valid (Strp.year dt) (Strp.month dt) (Strp.day dt) = true ->
  parse_nse_expiry (format_nse_expiry dt)
  = Ok (if 1000 <=? Strp.year dt then Some dt else None).
Proof.
  intros Hv. destruct (valid_bounds _ _ _ Hv) as (Hy & Hm & Hd).
  unfold parse_nse_expiry. rewrite format_not_empty. cbv zeta.
  rewrite strip_format, match_dmy_format, title_format by assumption.
  destruct dt as [y m d]. cbn [Strp.year Strp.month Strp.day] in *.
  rewrite strptime_format_b, strptime_format_B by assumption.
  destruct (1000 <=? y); [reflexivity|]. now rewrite andb_false_r.
Qed.

Lemma normalize_format (dt : Strp.date) :
  Strp.valid (Strp.year dt) (Strp.month dt) (Strp.day dt) = true ->
  normalize_nse_expiry (Some (format_nse_expiry dt))
  = Ok (Some (format_nse_expiry dt)).
Proof.
  intros Hv. unfold normalize_nse_expiry.
  rewrite format_not_empty, parse_format by assumption.
  cbn. now destruct (1000 <=? Strp.year dt).
Qed.

(** ** What the parsers return *)

Lemma make_date_ok (y m d : Z) (dt : Strp.date) :
  Strp.make_date y m d = Ok dt ->
  dt = {| Strp.year := y; Strp.month := m; Strp.day := d |}
  /\ Strp.valid y m d = true.
Proof.
  unfold Strp.make_date. destruct (Strp.valid y m d); [|discriminate].
  intros [= <-]. now split.
Qed.

Lemma strptime_valid (s : string) (fmt : list Strp.directive) (dt : Strp.date) :
  Strp.strptime s fmt = Ok dt ->
  Strp.valid (Strp.year dt) (Strp.month dt) (Strp.day dt) = true.
Proof.
  unfold Strp.strptime. destruct (Strp.match_fmt fmt s Strp.start) as [[f [|]]|];
    try discriminate.
  intros H. apply make_date_ok in H as [-> H]. exact H.
Qed.

Lemma parse_nse_expiry_valid (s : string) (dt : Strp.date) :
  parse_nse_expiry s = Ok (Some dt) ->
  Strp.valid (Strp.year dt) (Strp.month dt) (Strp.day dt) = true.
Proof.
  unfold parse_nse_expiry. destruct (String.eqb s ""); [discriminate|]. cbv zeta.
  destruct (match_dmy (Py.strip s)) as [[[d m] y]|].
  - destruct (Strp.make_date y m d) eqn:E; [|discriminate].
    cbn. intros [= <-]. apply make_date_ok in E as [-> E]. exact E.
  - destruct (Strp.strptime _ fmt_d_b_Y) as [dt1|e] eqn:E1.
    + intros [= <-]. eapply strptime_valid, E1.
    + destruct e; try discriminate.
      destruct (Strp.strptime _ fmt_d_B_Y) as [dt2|e] eqn:E2.
      * intros [= <-]. eapply strptime_valid, E2.
      * destruct e; discriminate.
Qed.

(** The text of a day, a month and a year in figures. *)
Definition numeric_text (d m y : Z) : string :=
  Date.pad2 d (String "-" (Date.pad2 m (String "-" (Date.pad4 y "")))).

Lemma parse_numeric (d m y : Z) :
  0 <= d < 100 -> 0 <= m < 100 -> 0 <= y <= 9999 ->
  parse_nse_expiry (numeric_text d m y)
  = let! dt := Strp.make_date y m d in Ok (Some dt).
Proof.
  intros Hd Hm Hy. unfold parse_nse_expiry.
  change (String.eqb (numeric_text d m y) "") with false. cbv zeta iota.
  rewrite strip_id.
  2: { apply is_space_digit_char. }
  2: { cbv [numeric_text Date.pad2 Date.pad4 list_ascii_of_string rev app].
       apply is_space_digit_char. }
  cbv [numeric_text Date.pad2 Date.pad4 match_dmy].
  rewrite !IsoText.digit_val_digit_char. cbn [String.eqb orb].
  replace (10 * ((d / 10) mod 10) + d mod 10) with d
    by (Z.div_mod_to_equations; lia).
  replace (10 * ((m / 10) mod 10) + m mod 10) with m
    by (Z.div_mod_to_equations; lia).
  replace (1000 * ((y / 1000) mod 10) + 100 * ((y / 100) mod 10)
           + 10 * ((y / 10) mod 10) + y mod 10) with y
    by (Z.div_mod_to_equations; lia).
  reflexivity.
Qed.

(** ** The MCX expiry text *)

Definition mcx_text (dt : Strp.date) : string :=
  Date.pad2 (Strp.day dt)
    (Strp.month_abbr (Strp.month dt) ++ Date.pad4 (Strp.year dt) "").

Lemma alt_b_mcx (upper : bool) (m : Z) (r : string) :
  1 <= m <= 12 ->
  Strp.alternatives Strp.Db
    ((if upper then Strp.upper_string (Strp.month_abbr m) else Strp.month_abbr m)
     ++ r)
  = [(Strp.set_month m, r)].
Proof. intros Hm. month_cases m H; destruct upper; reflexivity. Qed.

Lemma upper_string_app (a b : string) :
  Strp.upper_string (a ++ b) = Strp.upper_string a ++ Strp.upper_string b.
Proof.
  induction a as [|c a IH]; [reflexivity|].
  change (String c a ++ b) with (String c (a ++ b)).
  cbn [Strp.upper_string]. now rewrite IH.
Qed.

Lemma upper_string_mcx (dt : Strp.date) :
  Strp.upper_string (mcx_text dt)
  = Date.pad2 (Strp.day dt)
      (Strp.upper_string (Strp.month_abbr (Strp.month dt))
       ++ Date.pad4 (Strp.year dt) "").
Proof.
  destruct dt as [y m d]. unfold mcx_text. cbn [Strp.year Strp.month Strp.day].
  cbn [Date.pad2 Strp.upper_string]. rewrite upper_string_app.
  cbn [Date.pad4 Date.pad2 Strp.upper_string].
  now rewrite !upper_digit_char.
Qed.

Lemma upper_string_idem (s : string) :
  Strp.upper_string (Strp.upper_string s) = Strp.upper_string s.
Proof.
  induction s as [|c s IH]; [reflexivity|]. cbn [Strp.upper_string].
  rewrite IH. f_equal. unfold Strp.upper.
  destruct ((97 <=? Py.code c) && (Py.code c <=? 122)) eqn:E; [|now rewrite E].
  apply andb_prop in E as [E1 E2].
  unfold Py.code in *. rewrite N_ascii_embedding.
  - rewrite Z2N.id by lia.
    destruct ((97 <=? Z.of_N (N_of_ascii c) - 32)
              && (Z.of_N (N_of_ascii c) - 32 <=? 122)) eqn:E3; [|reflexivity].
    apply andb_prop in E3 as [E3 E4]. lia.
  - lia.
Qed.

Lemma strptime_mcx (upper : bool) (y m d : Z) :
  Strp.valid y m d = true ->
  Strp.strptime
    (Date.pad2 d
       ((if upper then Strp.upper_string (Strp.month_abbr m)
         else Strp.month_abbr m) ++ Date.pad4 y ""))
    fmt_dbY
  = Ok {| Strp.year := y; Strp.month := m; Strp.day := d |}.
Proof.
  intros Hv. destruct (valid_bounds _ _ _ Hv) as (Hy & Hm & Hd).
  unfold Strp.strptime, fmt_dbY. cbn [Strp.match_fmt].
  rewrite alt_d_pad2 by assumption. next_alt.
  rewrite alt_b_mcx by assumption. next_alt.
  rewrite alt_Y_pad4 by lia. next_alt.
  cbn [Strp.set_year Strp.set_month Strp.set_day Strp.f_year Strp.f_month
       Strp.f_day Strp.start].
  unfold Strp.make_date. now rewrite Hv.
Qed.

(** ** Dictionaries keyed by a date *)

Definition date_eqb (a b : Strp.date) : bool :=
  (Strp.year a =? Strp.year b) && (Strp.month a =? Strp.month b)
  && (Strp.day a =? Strp.day b).

#[global] Instance date_eq_dec : EqDecision Strp.date.
Proof. solve_decision. Defined.

(** A loop that may raise, over a list. *)
Fixpoint fold_result {A B} (f : B -> A -> result B) (acc : B) (l : list A)
    : result B :=
  match l with
  | [] => Ok acc
  | a :: rest => let! acc' := f acc a in fold_result f acc' rest
  end.

Section DateDict.

Context {V : Type}.
Implicit Types (k : Strp.date) (v : V) (l : list (Strp.date * V)).

(** [d[k] = v] on the items of [d] in insertion order: the value of a key
    that is there is replaced, a new key goes to the end. *)
Fixpoint dd_set k v l : list (Strp.date * V) :=
  match l with
  | [] => [(k, v)]
  | (k', v') :: rest =>
      if date_eqb k' k then (k', v) :: rest else (k', v') :: dd_set k v rest
  end.

Fixpoint dd_insert (x : Strp.date * V) l : list (Strp.date * V) :=
  match l with
  | [] => [x]
  | y :: rest =>
      if Strp.date_ltb y.1 x.1 then y :: dd_insert x rest else x :: y :: rest
  end.

(** The items in the order of [sorted(d.keys())]. *)
Fixpoint dd_sort l : list (Strp.date * V) :=
  match l with
  | [] => []
  | x :: rest => dd_insert x (dd_sort rest)
  end.

(** [[d[key] for key in sorted(d.keys())]] *)
Definition dd_sorted_values l : list V := (dd_sort l).*2.

End DateDict.

Lemma date_eqb_eq (a b : Strp.date) : date_eqb a b = true <-> a = b.
Proof.
  destruct a as [ya ma da], b as [yb mb db]. unfold date_eqb. cbn.
  rewrite !andb_true_iff, !Z.eqb_eq. split.
  - intros [[-> ->] ->]. reflexivity.
  - intros [= -> -> ->]. auto.
Qed.

Lemma date_ltb_spec (a b : Strp.date) :
  Strp.date_ltb a b = true <->
  Strp.year a < Strp.year b
  \/ (Strp.year a = Strp.year b
      /\ (Strp.month a < Strp.month b
          \/ (Strp.month a = Strp.month b /\ Strp.day a < Strp.day b))).
Proof.
  unfold Strp.date_ltb.
  rewrite !orb_true_iff, !andb_true_iff, !orb_true_iff, !andb_true_iff,
    !Z.ltb_lt, !Z.eqb_eq. reflexivity.
Qed.

Lemma date_ltb_trans (a b c : Strp.date) :
  Strp.date_ltb a b = true -> Strp.date_ltb b c = true ->
  Strp.date_ltb a c = true.
Proof. rewrite !date_ltb_spec. lia. Qed.

Lemma date_ltb_irrefl (a : Strp.date) : Strp.date_ltb a a = false.
Proof.
  destruct (Strp.date_ltb a a) eqn:E; [|reflexivity].
  apply date_ltb_spec in E. lia.
Qed.

Lemma date_ltb_total (a b : Strp.date) :
  a <> b -> Strp.date_ltb a b = false -> Strp.date_ltb b a = true.
Proof.
  intros Hne Hab. apply date_ltb_spec.
  assert (~ (Strp.year a < Strp.year b
             \/ (Strp.year a = Strp.year b
                 /\ (Strp.month a < Strp.month b
                     \/ (Strp.month a = Strp.month b
                         /\ Strp.day a < Strp.day b))))) as Hn.
  { rewrite <- date_ltb_spec. congruence. }
  destruct a as [ya ma da], b as [yb mb db]. cbn in *.
  assert (~ (ya = yb /\ ma = mb /\ da = db)) by (intros (-> & -> & ->); congruence).
  lia.
Qed.

Section DateDictFacts.

Context {V : Type}.
Implicit Types (k : Strp.date) (v : V) (l : list (Strp.date * V)).

(** The items, one before the other by their dates. *)
Definition date_lt (x y : Strp.date * V) : Prop := Strp.date_ltb x.1 y.1 = true.

Lemma dd_set_keys k v l :
  (dd_set k v l).*1 = if bool_decide (k ∈ l.*1) then l.*1 else (l.*1 ++ [k])%list.
Proof.
  induction l as [|[k' v'] l IH]; [reflexivity|]. cbn [dd_set].
  destruct (date_eqb k' k) eqn:E.
  - apply date_eqb_eq in E as ->. csimpl.
    rewrite bool_decide_eq_true_2 by apply list_elem_of_here. reflexivity.
  - csimpl. rewrite IH.
    assert (k' <> k) as Hne by (intros ->; now rewrite (proj2 (date_eqb_eq k k)) in E).
    destruct (bool_decide (k ∈ l.*1)) eqn:Ein.
    + apply bool_decide_eq_true in Ein.
      rewrite bool_decide_eq_true_2 by now apply list_elem_of_further.
      reflexivity.
    + apply bool_decide_eq_false in Ein.
      rewrite bool_decide_eq_false_2; [reflexivity|].
      intros Hin. apply elem_of_cons in Hin as [->|Hin]; congruence.
Qed.

Lemma dd_set_NoDup k v l : NoDup l.*1 -> NoDup (dd_set k v l).*1.
Proof.
  intros Hnd. rewrite dd_set_keys.
  destruct (bool_decide (k ∈ l.*1)) eqn:E; [assumption|].
  apply bool_decide_eq_false in E.
  apply NoDup_app. split; [assumption|]. split.
  - intros x Hx Hk. apply list_elem_of_singleton in Hk as ->. contradiction.
  - apply NoDup_singleton.
Qed.

Lemma dd_set_Forall (P : Strp.date * V -> Prop) k v l :
  (forall k', k' = k -> P (k', v)) -> Forall P l -> Forall P (dd_set k v l).
Proof.
  intros Hk. induction 1 as [|[k' v'] l Hx Hl IH]; cbn [dd_set].
  - constructor; [now apply Hk | constructor].
  - destruct (date_eqb k' k) eqn:E.
    + apply date_eqb_eq in E. constructor; [now apply Hk | assumption].
    + constructor; assumption.
Qed.

Lemma dd_insert_perm (x : Strp.date * V) l : dd_insert x l ≡ₚ x :: l.
Proof.
  induction l as [|y l IH]; cbn [dd_insert]; [reflexivity|].
  destruct (Strp.date_ltb y.1 x.1); [|reflexivity].
  rewrite IH. apply Permutation_swap.
Qed.

Lemma dd_sort_perm l : dd_sort l ≡ₚ l.
Proof.
  induction l as [|x l IH]; cbn [dd_sort]; [reflexivity|].
  now rewrite dd_insert_perm, IH.
Qed.

Lemma dd_insert_sorted (x : Strp.date * V) l :
  x.1 ∉ l.*1 -> StronglySorted date_lt l -> StronglySorted date_lt (dd_insert x l).
Proof.
  intros Hx HS. induction HS as [|y l HS IH Hy]; cbn [dd_insert].
  - repeat constructor.
  - assert (y.1 <> x.1 /\ x.1 ∉ l.*1) as [Hne Hxl].
    { split; [intros E | intros Hin]; apply Hx; csimpl;
        [rewrite E; apply list_elem_of_here | now apply list_elem_of_further]. }
    destruct (Strp.date_ltb y.1 x.1) eqn:E.
    + constructor; [now apply IH|].
      rewrite dd_insert_perm. constructor; [exact E | assumption].
    + assert (date_lt x y) as Hxy by now apply date_ltb_total.
      constructor; [now constructor|].
      constructor; [exact Hxy|].
      rewrite Forall_forall in *. intros z Hz.
      eapply date_ltb_trans; [exact Hxy | now apply Hy].
Qed.

Lemma dd_sort_sorted l : NoDup l.*1 -> StronglySorted date_lt (dd_sort l).
Proof.
  induction l as [|x l IH]; cbn [dd_sort]; [constructor|].
  csimpl. intros Hnd. apply NoDup_cons in Hnd as [Hx Hnd].
  apply dd_insert_sorted; [|now apply IH].
  now rewrite (dd_sort_perm l).
Qed.

Lemma dd_sort_Forall (P : Strp.date * V -> Prop) l :
  Forall P l -> Forall P (dd_sort l).
Proof. intros H. now rewrite dd_sort_perm. Qed.

End DateDictFacts.

Lemma fold_result_invariant {A B} (f : B -> A -> result B) (I : B -> Prop)
    (Q : A -> Prop) (l : list A) (acc out : B) :
  (forall b a b', Q a -> I b -> f b a = Ok b' -> I b') ->
  Forall Q l -> I acc -> fold_result f acc l = Ok out -> I out.
Proof.
  intros Hstep HQ. revert acc.
  induction HQ as [|a l Ha Hl IH]; intros acc Hacc; cbn [fold_result].
  - now intros [= <-].
  - intros H. inv_ok. eapply IH; [|eassumption]. eapply Hstep; eassumption.
Qed.

(** ** The lists of expiries *)

(** [for item in data]: the items of a list, the characters of a string,
    the keys of a dictionary (strings, in an order that the loops below do
    not see); another object is not iterable. *)
Definition iter_values (data : value) : result (list value) :=
  match data with
  | VList l => Ok l
  | VStr s => Ok (map (fun c => VStr (String c "")) (list_ascii_of_string s))
  | VDict d => Ok (map (fun kv : string * value => VStr kv.1) (map_to_list d))
  | _ => Raise TypeError
  end.

(** [v == s] for a string [s] *)
Definition str_eq (v : value) (s : string) : bool :=
  match v with VStr t => String.eqb t s | _ => false end.

(** [v.upper()]: only a string has the method. *)
Definition upper_method (v : value) : result string :=
  match v with
  | VStr s => Ok (Strp.upper_string s)
  | _ => Raise AttributeError
  end.

Section Expiries.

(** [str(v)] of a value that is not a string. *)
Variable str_other : value -> string.

Definition py_str (v : value) : string :=
  match v with VStr s => s | _ => str_other v end.

(** One turn of the loop of [get_nse_expiries]. *)
Definition nse_expiry_step (expiries : list (Strp.date * string)) (item : value)
    : result (list (Strp.date * string)) :=
  match item with
  | VDict d =>
      let value := dict_get d "expiryDates" in
      if negb (PyDict.truthy value) then Ok expiries
      else
        let! parsed := parse_nse_expiry (py_str value) in
        match parsed with
        | Some dt => Ok (dd_set dt (format_nse_expiry dt) expiries)
        | None => Ok expiries
        end
  | _ => Ok expiries
  end.

(** [get_nse_expiries], from the payload that [get_nse_payload] returns. *)
Definition get_nse_expiries (payload : value) : result (list string) :=
  let data :=
    match payload with VDict p => dict_get p "data" | _ => VList [] end in
  let! items := iter_values (PyDict.or_else data (VList [])) in
  let! expiries := fold_result nse_expiry_step [] items in
  Ok (take 7 (dd_sorted_values expiries)).

(** One turn of the loop of [get_mcx_expiries]; [symbol] is the symbol in
    capitals without white space around it. *)
Definition mcx_expiry_step (symbol : string) (today : Strp.date)
    (expiries : list (Strp.date * value)) (row : value)
    : result (list (Strp.date * value)) :=
  match row with
  | VDict r =>
      if negb (str_eq (dict_get r "Symbol") symbol)
         && negb (str_eq (dict_get r "ProductCode") symbol)
      then Ok expiries
      else
        let! instrument :=
          upper_method (PyDict.or_else (dict_get r "InstrumentName") (VStr "")) in
        if negb (String.eqb instrument "")
           && negb (String.eqb instrument "OPTFUT"
                    || String.eqb instrument "OPTIDX")
        then Ok expiries
        else
          let expiry_value := dict_get r "ExpiryDate" in
          if negb (PyDict.truthy expiry_value) then Ok expiries
          else
            match parse_expiry_date (py_str expiry_value) with
            | None => Ok expiries
            | Some expiry_dt =>
                if Strp.date_ltb expiry_dt today then Ok expiries
                else Ok (dd_set expiry_dt expiry_value expiries)
            end
  | _ => Ok expiries
  end.

(** [get_mcx_expiries], from the rows that [get_marketwatch_rows] returns
    and the date of today. *)
Definition get_mcx_expiries (symbol : string) (today : Strp.date)
    (rows : list value) : result (list value) :=
  let! expiries := fold_result (mcx_expiry_step symbol today) [] rows in
  let limit :=
    if String.eqb symbol "SILVERM" || String.eqb symbol "GOLDM"
    then 4%nat else 3%nat in
  Ok (take limit (dd_sorted_values expiries)).

(** What the dictionary of [get_nse_expiries] holds. *)
Definition nse_entry (x : Strp.date * string) : Prop :=
  Strp.valid (Strp.year x.1) (Strp.month x.1) (Strp.day x.1) = true
  /\ x.2 = format_nse_expiry x.1.

Lemma nse_expiry_step_invariant (acc acc' : list (Strp.date * string))
    (item : value) :
  NoDup acc.*1 /\ Forall nse_entry acc ->
  nse_expiry_step acc item = Ok acc' ->
  NoDup acc'.*1 /\ Forall nse_entry acc'.
Proof.
  intros [Hnd Hall]. unfold nse_expiry_step.
  destruct item as [| | | | |?|d]; try (intros [= <-]; now split).
  cbv zeta. destruct (negb _); [intros [= <-]; now split|].
  intros H. inv_ok. destruct a as [dt|]; inv_ok; [|now split].
  split; [now apply dd_set_NoDup|].
  apply dd_set_Forall; [|assumption].
  intros k' ->. split; [|reflexivity]. cbn [fst].
  eapply parse_nse_expiry_valid; eassumption.
Qed.

(** What the dictionary of [get_mcx_expiries] holds. *)
Definition mcx_entry (symbol : string) (today : Strp.date) (rows : list value)
    (x : Strp.date * value) : Prop :=
  Strp.date_ltb x.1 today = false
  /\ parse_expiry_date (py_str x.2) = Some x.1
  /\ exists r, VDict r ∈ rows /\ dict_get r "ExpiryDate" = x.2
               /\ (dict_get r "Symbol" = VStr symbol
                   \/ dict_get r "ProductCode" = VStr symbol).

Lemma str_eq_true (v : value) (s : string) : str_eq v s = true -> v = VStr s.
Proof.
  destruct v; try discriminate. cbn. intros H. now apply String.eqb_eq in H as ->.
Qed.

Lemma mcx_expiry_step_invariant (symbol : string) (today : Strp.date)
    (rows : list value) (acc acc' : list (Strp.date * value)) (row : value) :
  row ∈ rows ->
  NoDup acc.*1 /\ Forall (mcx_entry symbol today rows) acc ->
  mcx_expiry_step symbol today acc row = Ok acc' ->
  NoDup acc'.*1 /\ Forall (mcx_entry symbol today rows) acc'.
Proof.
  intros Hin [Hnd Hall]. unfold mcx_expiry_step.
  destruct row as [| | | | |?|r]; try (intros [= <-]; now split).
  destruct (negb (str_eq (dict_get r "Symbol") symbol)
            && negb (str_eq (dict_get r "ProductCode") symbol)) eqn:Esym;
    [intros [= <-]; now split|].
  intros H. inv_ok.
  destruct (negb (String.eqb a "") && _); [inv_ok; now split|].
  cbv zeta in H. destruct (negb (PyDict.truthy _)); [inv_ok; now split|].
  destruct (parse_expiry_date _) as [dt|] eqn:Ep; [|inv_ok; now split].
  destruct (Strp.date_ltb dt today) eqn:Et; inv_ok; [now split|].
  split; [now apply dd_set_NoDup|].
  apply dd_set_Forall; [|assumption].
  intros k' ->. split; [exact Et|]. split; [exact Ep|].
  exists r. split; [assumption|]. split; [reflexivity|].
  apply andb_false_iff in Esym as [E|E]; apply negb_false_iff, str_eq_true in E;
    auto.
Qed.

End Expiries.

Lemma StronglySorted_take {A} (R : relation A) (n : nat) (l : list A) :
  StronglySorted R l -> StronglySorted R (take n l).
Proof.
  intros HS. revert n. induction HS as [|x l HS IH Hx]; intros [|n]; cbn;
    try constructor; [apply IH|].
  rewrite Forall_forall in *. intros y Hy. apply Hx.
  apply (subseteq_take n l), Hy.
Qed.

(** ** Properties of the expiry functions *)

(** The text that [format_nse_expiry] gives for a date that exists is read
    back by [parse_nse_expiry] as that date when the year has four digits;
    the text of an earlier year, printed without padding, is not read as a
    date.  In both cases [normalize_nse_expiry] returns the text as it
    is. *)
Theorem nse_expiry_round_trip (dt : Strp.date) :
  Strp.valid (Strp.year dt) (Strp.month dt) (Strp.day dt) = true ->
  parse_nse_expiry (format_nse_expiry dt)
  = Ok (if 1000 <=? Strp.year dt then Some dt else None)
  /\ normalize_nse_expiry (Some (format_nse_expiry dt))
     = Ok (Some (format_nse_expiry dt)).
Proof.
  intros Hv. split; [now apply parse_format | now apply normalize_format].
Qed.

Definition date_2024_02_29 : Strp.date :=
  {| Strp.year := 2024; Strp.month := 2; Strp.day := 29 |}.

Lemma nse_expiry_round_trip_witness :
  parse_nse_expiry (format_nse_expiry date_2024_02_29)
  = Ok (if 1000 <=? Strp.year date_2024_02_29
        then Some date_2024_02_29 else None)
  /\ normalize_nse_expiry (Some (format_nse_expiry date_2024_02_29))
     = Ok (Some (format_nse_expiry date_2024_02_29)).
Proof. apply (nse_expiry_round_trip date_2024_02_29). reflexivity. Defined.

(** [normalize_nse_expiry] is idempotent: a text that it returns is not
    empty and is returned as it is when it is normalised again. *)
Theorem normalize_nse_expiry_idempotent (value : option string) (s : string) :
  normalize_nse_expiry value = Ok (Some s) ->
  s <> "" /\ normalize_nse_expiry (Some s) = Ok (Some s).
Proof.
  destruct value as [v|]; [|discriminate]. cbn [normalize_nse_expiry].
  destruct (String.eqb v "") eqn:Ev; [discriminate|].
  intros H. inv_ok. destruct a as [dt|]; inv_ok.
  - split; [discriminate|].
    apply normalize_format. eapply parse_nse_expiry_valid; eassumption.
  - split; [intros ->; discriminate|].
    cbn [normalize_nse_expiry]. rewrite Ev, Ha. reflexivity.
Qed.

Lemma normalize_25_01_2024 :
  normalize_nse_expiry (Some "25-01-2024") = Ok (Some "25-Jan-2024").
Proof. vm_compute. reflexivity. Qed.

Lemma normalize_nse_expiry_idempotent_witness :
  "25-Jan-2024" <> ""
  /\ normalize_nse_expiry (Some "25-Jan-2024") = Ok (Some "25-Jan-2024").
Proof.
  exact (normalize_nse_expiry_idempotent (Some "25-01-2024") "25-Jan-2024"
           normalize_25_01_2024).
Defined.

(** A text of the form dd-mm-yyyy is read by its figures alone: it gives
    the date when the date exists and raises [ValueError] when it does not
    (a named month with an impossible day gives [None] instead), and so
    does [normalize_nse_expiry], which turns the existing date into the
    text with the name of the month. *)
Theorem nse_expiry_numeric (d m y : Z) :
  0 <= d < 100 -> 0 <= m < 100 -> 0 <= y <= 9999 ->
  parse_nse_expiry (numeric_text d m y)
  = (if Strp.valid y m d
     then Ok (Some {| Strp.year := y; Strp.month := m; Strp.day := d |})
     else Raise ValueError)
  /\ normalize_nse_expiry (Some (numeric_text d m y))
     = (if Strp.valid y m d
        then Ok (Some (format_nse_expiry
                         {| Strp.year := y; Strp.month := m; Strp.day := d |}))
        else Raise ValueError).
Proof.
  intros Hd Hm Hy.
  assert (parse_nse_expiry (numeric_text d m y)
          = (if Strp.valid y m d
             then Ok (Some {| Strp.year := y; Strp.month := m; Strp.day := d |})
             else Raise ValueError)) as Hp.
  { rewrite parse_numeric by assumption. unfold Strp.make_date.
    now destruct (Strp.valid y m d). }
  split; [exact Hp|].
  unfold normalize_nse_expiry.
  change (String.eqb (numeric_text d m y) "") with false. cbv iota.
  rewrite Hp. now destruct (Strp.valid y m d).
Qed.

Lemma nse_expiry_numeric_witness :
  parse_nse_expiry (numeric_text 31 2 2024)
  = (if Strp.valid 2024 2 31
     then Ok (Some {| Strp.year := 2024; Strp.month := 2; Strp.day := 31 |})
     else Raise ValueError)
  /\ normalize_nse_expiry (Some (numeric_text 31 2 2024))
     = (if Strp.valid 2024 2 31
        then Ok (Some (format_nse_expiry
                         {| Strp.year := 2024; Strp.month := 2; Strp.day := 31 |}))
        else Raise ValueError).
Proof. apply (nse_expiry_numeric 31 2 2024); lia. Defined.

(** [parse_expiry_date] reads the day, the short name of the month and the
    year written without separators, in capitals or not, as the date they
    name, when that date exists. *)
Theorem mcx_expiry_round_trip (dt : Strp.date) :
  Strp.valid (Strp.year dt) (Strp.month dt) (Strp.day dt) = true ->
  parse_expiry_date (mcx_text dt) = Some dt
  /\ parse_expiry_date (Strp.upper_string (mcx_text dt)) = Some dt.
Proof.
  intros Hv.
  assert (parse_expiry_date (Strp.upper_string (mcx_text dt)) = Some dt) as Hu.
  { unfold parse_expiry_date.
    rewrite upper_string_idem, upper_string_mcx.
    change (String.eqb _ "") with false. cbv iota.
    destruct dt as [y m d]. cbn [Strp.year Strp.month Strp.day] in *.
    now rewrite (strptime_mcx true). }
  split; [|exact Hu].
  unfold parse_expiry_date in *. rewrite upper_string_idem in Hu.
  exact Hu.
Qed.

Lemma mcx_expiry_round_trip_witness :
  parse_expiry_date (mcx_text date_2024_02_29) = Some date_2024_02_29
  /\ parse_expiry_date (Strp.upper_string (mcx_text date_2024_02_29))
     = Some date_2024_02_29.
Proof. apply (mcx_expiry_round_trip date_2024_02_29). reflexivity. Defined.

(** When [get_nse_expiries] returns, it returns at most seven texts: the
    canonical texts of dates that exist, each date once, the earliest
    first; each text is left as it is by [normalize_nse_expiry]. *)
Theorem get_nse_expiries_outcome (str_other : value -> string)
    (payload : value) (out : list string) :
  get_nse_expiries str_other payload = Ok out ->
  (length out <= 7)%nat
  /\ exists dates : list Strp.date,
       out = format_nse_expiry <$> dates
       /\ StronglySorted (fun a b => Strp.date_ltb a b = true) dates
       /\ Forall (fun dt => Strp.valid (Strp.year dt) (Strp.month dt)
                              (Strp.day dt) = true) dates
       /\ Forall (fun s => normalize_nse_expiry (Some s) = Ok (Some s)) out.
Proof.
  unfold get_nse_expiries. cbv zeta. intros H. inv_ok.
  rename a0 into expiries.
  assert (NoDup expiries.*1 /\ Forall nse_entry expiries) as [Hnd Hall].
  { eapply (fold_result_invariant (nse_expiry_step str_other)
              (fun acc => NoDup acc.*1 /\ Forall nse_entry acc)
              (fun _ => True)); [| |split|eassumption].
    - intros b x b' _ Hb Hs. eapply nse_expiry_step_invariant; eassumption.
    - apply Forall_true. trivial.
    - constructor.
    - constructor. }
  split; [rewrite length_take; lia|].
  pose proof (dd_sort_sorted expiries Hnd) as Hsorted.
  pose proof (dd_sort_Forall nse_entry expiries Hall) as Hentries.
  unfold dd_sorted_values. set (items := dd_sort expiries) in *. clearbody items.
  assert (items.*2 = format_nse_expiry <$> items.*1) as Hvals.
  { clear Hsorted. induction Hentries as [|[dt s] items [_ Hs] _ IH];
      [reflexivity|]. csimpl. cbn in Hs. now rewrite Hs, IH. }
  exists (take 7 items.*1). rewrite Hvals, <- fmap_take.
  split; [reflexivity|]. split; [|split].
  - apply StronglySorted_take.
    apply (StronglySorted_fmap_Forall fst (fun _ => True) date_lt
             (fun a b => Strp.date_ltb a b = true));
      [apply Forall_true; trivial | auto | assumption].
  - rewrite Forall_forall. intros dt Hdt.
    apply (subseteq_take 7) in Hdt. apply list_elem_of_fmap in Hdt as (x & -> & Hx).
    rewrite Forall_forall in Hentries. now apply Hentries.
  - rewrite Forall_forall. intros s Hs.
    apply list_elem_of_fmap in Hs as (dt & -> & Hdt).
    apply (subseteq_take 7) in Hdt. apply list_elem_of_fmap in Hdt as (x & -> & Hx).
    rewrite Forall_forall in Hentries. apply normalize_format. now apply Hentries.
Qed.

(** [str] of the values that the examples hold besides strings. *)
Definition str_none (v : value) : string :=
  match v with VNone => "None" | _ => "" end.

Definition nse_expiries_payload : value :=
  VDict {[ "data" :=
    VList [ VDict {[ "expiryDates" := VStr "27-Feb-2024" ]};
            VDict {[ "expiryDates" := VStr "25-01-2024" ]};
            VInt 3;
            VDict {[ "strikePrice" := VInt 100 ]};
            VDict {[ "expiryDates" := VStr "25-jan-2024" ]};
            VDict {[ "expiryDates" := VStr "30-Feb-2024" ]} ] ]}.

Lemma nse_expiries_example :
  get_nse_expiries str_none nse_expiries_payload
  = Ok ["25-Jan-2024"; "27-Feb-2024"].
Proof. vm_compute. reflexivity. Qed.

Lemma get_nse_expiries_outcome_witness :
  (length ["25-Jan-2024"; "27-Feb-2024"] <= 7)%nat
  /\ exists dates : list Strp.date,
       ["25-Jan-2024"; "27-Feb-2024"] = format_nse_expiry <$> dates
       /\ StronglySorted (fun a b => Strp.date_ltb a b = true) dates
       /\ Forall (fun dt => Strp.valid (Strp.year dt) (Strp.month dt)
                              (Strp.day dt) = true) dates
       /\ Forall (fun s => normalize_nse_expiry (Some s) = Ok (Some s))
            ["25-Jan-2024"; "27-Feb-2024"].
Proof.
  exact (get_nse_expiries_outcome str_none nse_expiries_payload _
           nse_expiries_example).
Defined.

(** When [get_mcx_expiries] returns, it returns at most three values, four
    for SILVERM and GOLDM.  Each is the [ExpiryDate] of a row whose
    [Symbol] or [ProductCode] is the symbol, it reads as a date that is not
    before today, and the values stand by their dates, each date once, the
    earliest first. *)
Theorem get_mcx_expiries_outcome (str_other : value -> string)
    (symbol : string) (today : Strp.date) (rows out : list value) :
  get_mcx_expiries str_other symbol today rows = Ok out ->
  (length out <= if String.eqb symbol "SILVERM" || String.eqb symbol "GOLDM"
                 then 4 else 3)%nat
  /\ exists items : list (Strp.date * value),
       out = items.*2
       /\ StronglySorted (fun a b => Strp.date_ltb a b = true) items.*1
       /\ Forall (mcx_entry str_other symbol today rows) items.
Proof.
  unfold get_mcx_expiries. intros H. inv_ok. cbv zeta. rename a into expiries.
  assert (NoDup expiries.*1
          /\ Forall (mcx_entry str_other symbol today rows) expiries)
    as [Hnd Hall].
  { eapply (fold_result_invariant (mcx_expiry_step str_other symbol today)
              (fun acc => NoDup acc.*1
                          /\ Forall (mcx_entry str_other symbol today rows) acc)
              (fun row => row ∈ rows)); [| |split|eassumption].
    - intros b x b' Hx Hb Hs. eapply mcx_expiry_step_invariant; eassumption.
    - now apply Forall_forall.
    - constructor.
    - constructor. }
  match goal with |- context [take ?n _] => set (limit := n) end.
  clearbody limit.
  split; [rewrite length_take; lia|].
  pose proof (dd_sort_sorted expiries Hnd) as Hsorted.
  pose proof (dd_sort_Forall _ expiries Hall) as Hentries.
  unfold dd_sorted_values. set (items := dd_sort expiries) in *. clearbody items.
  exists (take limit items). rewrite !fmap_take.
  split; [reflexivity|]. split.
  - apply StronglySorted_take.
    apply (StronglySorted_fmap_Forall fst (fun _ => True) date_lt
             (fun a b => Strp.date_ltb a b = true));
      [apply Forall_true; trivial | auto | assumption].
  - now apply Forall_take.
Qed.

Definition today_2026_02_10 : Strp.date :=
  {| Strp.year := 2026; Strp.month := 2; Strp.day := 10 |}.

Definition mcx_rows : list value :=
  [ VDict {[ "Symbol" := VStr "GOLD"; "InstrumentName" := VStr "OPTFUT";
             "ExpiryDate" := VStr "27MAR2026" ]};
    VDict {[ "Symbol" := VStr "GOLD"; "InstrumentName" := VStr "FUTCOM";
             "ExpiryDate" := VStr "05MAR2026" ]};
    VDict {[ "ProductCode" := VStr "GOLD"; "ExpiryDate" := VStr "18FEB2026" ]};
    VDict {[ "Symbol" := VStr "GOLD"; "ExpiryDate" := VStr "05FEB2026" ]};
    VDict {[ "Symbol" := VStr "SILVER"; "ExpiryDate" := VStr "20FEB2026" ]} ].

Lemma mcx_expiries_example :
  get_mcx_expiries str_none "GOLD" today_2026_02_10 mcx_rows
  = Ok [VStr "18FEB2026"; VStr "27MAR2026"].
Proof. vm_compute. reflexivity. Qed.

Lemma get_mcx_expiries_outcome_witness :
  (length [VStr "18FEB2026"; VStr "27MAR2026"]
   <= if String.eqb "GOLD" "SILVERM" || String.eqb "GOLD" "GOLDM"
      then 4 else 3)%nat
  /\ exists items : list (Strp.date * value),
       [VStr "18FEB2026"; VStr "27MAR2026"] = items.*2
       /\ StronglySorted (fun a b => Strp.date_ltb a b = true) items.*1
       /\ Forall (mcx_entry str_none "GOLD" today_2026_02_10 mcx_rows) items.
Proof.
  exact (get_mcx_expiries_outcome str_none "GOLD" today_2026_02_10 mcx_rows _
           mcx_expiries_example).
Defined.

(** ** The NSE option chain of an expiry *)

Section NseChain.

(** [str(v)] of a value that is not a string. *)
Variable str_other : value -> string.

(** [normalize_nse_expiry] of an object. *)
Definition normalize_nse_expiry_value (v : value) : result (option string) :=
  if negb (PyDict.truthy v) then Ok None
  else
    let! parsed := parse_nse_expiry (py_str str_other v) in
    match parsed with
    | Some dt => Ok (Some (format_nse_expiry dt))
    | None => Ok (Some (py_str str_other v))
    end.

(** One turn of the loop of [fetch_nse_option_chain]. *)
Definition nse_chain_step (expiry_norm : option string) (rows : list row)
    (item : value) : result (list row) :=
  match item with
  | VDict d =>
      let expiry_value := dict_get d "expiryDates" in
      let! skip :=
        match expiry_norm with
        | Some e =>
            if String.eqb e "" then Ok false
            else
              let! n := normalize_nse_expiry_value expiry_value in
              Ok (negb (bool_decide (n = Some e)))
        | None => Ok false
        end in
      if skip then Ok rows
      else let! r := nse_record_to_row d in Ok (rows ++ [r])%list
  | _ => Ok rows
  end.

(** [fetch_nse_option_chain], from the payload that [get_nse_payload]
    returns. *)
Definition fetch_nse_option_chain (payload : value) (expiry : option string)
    : result (list row) :=
  let data :=
    match payload with VDict p => dict_get p "data" | _ => VList [] end in
  match data with
  | VList items =>
      let! expiry_norm := normalize_nse_expiry expiry in
      fold_result (nse_chain_step expiry_norm) [] items
  | _ => Ok []
  end.

(** The value reads as the date [dt]. *)
Definition reads_as (dt : Strp.date) (v : value) : bool :=
  PyDict.truthy v
  && match parse_nse_expiry (py_str str_other v) with
     | Ok (Some dt') => date_eqb dt' dt
     | _ => false
     end.

(** The records of the date [dt] among the items. *)
Definition records_of (dt : Strp.date) (items : list value) : list row :=
  omap (fun item : value =>
          match item with
          | VDict d =>
              if reads_as dt (dict_get d "expiryDates") then Some d else None
          | _ => None
          end) items.

Lemma normalize_value_reads_as (dt : Strp.date) (v : value) (n : option string) :
  Strp.valid (Strp.year dt) (Strp.month dt) (Strp.day dt) = true ->
  1000 <= Strp.year dt ->
  normalize_nse_expiry_value v = Ok n ->
  bool_decide (n = Some (format_nse_expiry dt)) = reads_as dt v.
Proof.
  intros Hv Hy. unfold normalize_nse_expiry_value, reads_as.
  destruct (PyDict.truthy v); cbn [negb andb]; [|now intros [= <-]].
  pose proof (parse_format dt Hv) as Hdt.
  destruct (Z.leb_spec 1000 (Strp.year dt)); [|lia].
  destruct (parse_nse_expiry (py_str str_other v)) as [[dt'|]|e] eqn:Ep;
    cbn [bind]; [| |discriminate].
  - intros [= <-]. destruct (date_eqb dt' dt) eqn:E.
    + apply date_eqb_eq in E as ->. now apply bool_decide_eq_true_2.
    + apply bool_decide_eq_false_2. intros Heq. apply (inj Some) in Heq.
      pose proof (parse_format dt' (parse_nse_expiry_valid _ _ Ep)) as Hdt'.
      rewrite Heq, Hdt in Hdt'.
      destruct (1000 <=? Strp.year dt'); [|discriminate].
      injection Hdt' as ->. now rewrite (proj2 (date_eqb_eq dt' dt') eq_refl) in E.
  - intros [= <-]. apply bool_decide_eq_false_2. intros Heq.
    apply (inj Some) in Heq. rewrite Heq, Hdt in Ep. discriminate.
Qed.

Lemma nse_chain_fold_all (items : list value) (acc : list row) :
  fold_result (nse_chain_step None) acc items
  = let! rs := Py.mapM nse_record_to_row (omap as_dict items) in
    Ok (acc ++ rs)%list.
Proof.
  revert acc. induction items as [|item items IH]; intros acc.
  - cbn. now rewrite app_nil_r.
  - cbn [fold_result]. destruct item as [| | | | | |d];
      try (cbn [nse_chain_step bind omap list_omap as_dict]; apply IH).
    cbn [nse_chain_step bind omap list_omap as_dict Py.mapM].
    destruct (nse_record_to_row d) as [r|e]; cbn [bind]; [|reflexivity].
    rewrite IH. destruct (Py.mapM _ _); cbn [bind]; [|reflexivity].
    now rewrite <- app_assoc.
Qed.

Lemma nse_chain_fold_date (dt : Strp.date) (items : list value)
    (acc out : list row) :
  Strp.valid (Strp.year dt) (Strp.month dt) (Strp.day dt) = true ->
  1000 <= Strp.year dt ->
  fold_result (nse_chain_step (Some (format_nse_expiry dt))) acc items = Ok out ->
  exists rs, Py.mapM nse_record_to_row (records_of dt items) = Ok rs
             /\ out = (acc ++ rs)%list.
Proof.
  intros Hv Hy. revert acc.
  induction items as [|item items IH]; intros acc.
  - cbn. intros [= <-]. exists []. now rewrite app_nil_r.
  - cbn [fold_result]. intros H. inv_ok.
    destruct item as [| | | | | |d];
      try (cbn in Ha; inv_ok; now apply IH).
    cbn [nse_chain_step] in Ha. rewrite format_not_empty in Ha.
    cbv zeta in Ha. inv_ok. rename a1 into n.
    rewrite (normalize_value_reads_as dt _ n Hv Hy Ha1) in Ha.
    unfold records_of. cbn [omap list_omap].
    destruct (reads_as dt (dict_get d "expiryDates")); cbn [negb] in Ha.
    + inv_ok. apply IH in H as (rs & Hrs & ->).
      cbn [Py.mapM].
      match goal with Hr : nse_record_to_row d = Ok _ |- _ => rewrite Hr end.
      cbn [bind].
      unfold records_of in Hrs. rewrite Hrs. cbn [bind].
      eexists. split; [reflexivity|]. now rewrite <- app_assoc.
    + inv_ok. now apply IH.
Qed.

End NseChain.

(** With an expiry that reads as a date of a year from 1000,
    [fetch_nse_option_chain] returns, when it returns, the rows of the
    records whose [expiryDates] reads as the same date, however it is
    written, in their order.  Without an expiry it gives the rows of all
    the records, or the first error of a record.  Data that is not a list
    gives no rows, whatever the expiry. *)
Theorem nse_chain_by_date (str_other : value -> string) (p : row)
    (items : list value) (e : string) (dt : Strp.date) (rows : list row) :
  dict_get p "data" = VList items ->
  parse_nse_expiry e = Ok (Some dt) ->
  1000 <= Strp.year dt ->
  fetch_nse_option_chain str_other (VDict p) (Some e) = Ok rows ->
  Py.mapM nse_record_to_row (records_of str_other dt items) = Ok rows
  /\ fetch_nse_option_chain str_other (VDict p) None
     = Py.mapM nse_record_to_row (omap as_dict items)
  /\ (forall q exp, (forall l, dict_get q "data" <> VList l) ->
        fetch_nse_option_chain str_other (VDict q) exp = Ok []).
Proof.
  intros Hdata He Hy Hrows. split; [|split].
  - unfold fetch_nse_option_chain in Hrows. rewrite Hdata in Hrows.
    assert (normalize_nse_expiry (Some e) = Ok (Some (format_nse_expiry dt)))
      as Hnorm.
    { unfold normalize_nse_expiry.
      destruct (String.eqb e "") eqn:Ee.
      - apply String.eqb_eq in Ee as ->. discriminate He.
      - now rewrite He. }
    rewrite Hnorm in Hrows. cbn [bind] in Hrows.
    apply nse_chain_fold_date in Hrows as (rs & Hrs & ->);
      [exact Hrs | eapply parse_nse_expiry_valid; eassumption | assumption].
  - unfold fetch_nse_option_chain. rewrite Hdata. cbn [normalize_nse_expiry bind].
    rewrite nse_chain_fold_all. now destruct (Py.mapM _ _).
  - intros q exp Hq. unfold fetch_nse_option_chain.
    destruct (dict_get q "data") as [| | | | |l|]; try reflexivity.
    now destruct (Hq l).
Qed.

Definition nse_chain_payload : row :=
  {[ "data" :=
       VList [ VDict {[ "expiryDates" := VStr "25-01-2024";
                        "strikePrice" := VInt 24000 ]};
               VDict {[ "expiryDates" := VStr "27-Feb-2024";
                        "strikePrice" := VInt 24000 ]};
               VStr "x";
               VDict {[ "expiryDates" := VStr "25-Jan-2024";
                        "strikePrice" := VInt 24100 ]} ] ]}.

Definition nse_chain_items : list value :=
  match dict_get nse_chain_payload "data" with VList l => l | _ => [] end.

Definition date_2024_01_25 : Strp.date :=
  {| Strp.year := 2024; Strp.month := 1; Strp.day := 25 |}.

Lemma nse_chain_example :
  exists rows,
    fetch_nse_option_chain str_none (VDict nse_chain_payload) (Some "25-jan-2024")
    = Ok rows.
Proof.
  assert (is_ok (fetch_nse_option_chain str_none (VDict nse_chain_payload)
                   (Some "25-jan-2024")) = true) as H
    by (vm_compute; reflexivity).
  destruct (fetch_nse_option_chain _ _ _) as [rows|]; [|discriminate].
  now exists rows.
Qed.

Lemma nse_chain_example_data :
  dict_get nse_chain_payload "data" = VList nse_chain_items.
Proof. vm_compute. reflexivity. Qed.

Lemma nse_chain_example_expiry :
  parse_nse_expiry "25-jan-2024" = Ok (Some date_2024_01_25).
Proof. vm_compute. reflexivity. Qed.

Lemma nse_chain_by_date_witness :
  exists rows,
    fetch_nse_option_chain str_none (VDict nse_chain_payload) (Some "25-jan-2024")
    = Ok rows
    /\ Py.mapM nse_record_to_row
         (records_of str_none date_2024_01_25 nse_chain_items) = Ok rows.
Proof.
  destruct nse_chain_example as [rows Hrows]. exists rows.
  split; [exact Hrows|].
  exact (proj1 (nse_chain_by_date str_none nse_chain_payload nse_chain_items
                  "25-jan-2024" date_2024_01_25 rows nse_chain_example_data
                  nse_chain_example_expiry ltac:(cbn; lia) Hrows)).
Defined.

(** The records of the example: the first and the last of the items. *)
Example nse_chain_example_records :
  length (records_of str_none date_2024_01_25 nse_chain_items) = 2%nat.
Proof. vm_compute. reflexivity. Qed.

(** ** The cache of NSE payloads *)

(** An entry of [NSE_CACHE]; [get_nse_payload] alone writes them, each
    with its two keys. *)
Record nse_cached := { nc_payload : value; nc_fetched_at : float }.

(** The key of the cache; [symbol] is the symbol in capitals without
    white space around it. *)
Definition nse_cache_key (symbol : string) (expiry : option string)
    : result string :=
  let! expiry_key :=
    match expiry with
    | Some e => if String.eqb e "" then Ok (Some "EXPIRIES")
                else normalize_nse_expiry expiry
    | None => Ok (Some "EXPIRIES")
    end in
  Ok (symbol ++ ":" ++ default "None" expiry_key).

Section NsePayload.

(** What lies outside [NSE_CACHE]. *)
Variable world : Type.
Variable fetch_nse_option_chain_raw :
  string -> option string -> world -> result value * world.
Variable CACHE_TTL_SECONDS : Z.

(** [NSE_CACHE], the world, and the number of fetches made so far (not in
    the source; it is there to count them). *)
Record nse_state := {
  nse_cache : gmap string nse_cached;
  nse_world : world;
  nse_fetches : nat }.

(** [now] is the reading of [time.time()]. *)
Definition get_nse_payload (symbol : string) (expiry : option string)
    (force : bool) (now : float) (st : nse_state) : result value * nse_state :=
  match nse_cache_key symbol expiry with
  | Raise e => (Raise e, st)
  | Ok cache_key =>
      let cached := nse_cache st !! cache_key in
      let hit :=
        negb force
        && match cached with
           | Some c =>
               Py.float_lt_int (F.sub now (nc_fetched_at c)) CACHE_TTL_SECONDS
           | None => false
           end in
      match hit, cached with
      | true, Some c => (Ok (nc_payload c), st)
      | _, _ =>
          match fetch_nse_option_chain_raw symbol expiry (nse_world st) with
          | (Raise e, w) =>
              (Raise e, {| nse_cache := nse_cache st; nse_world := w;
                           nse_fetches := S (nse_fetches st) |})
          | (Ok payload, w) =>
              (Ok payload,
               {| nse_cache :=
                    <[cache_key := {| nc_payload := payload;
                                      nc_fetched_at := now |}]> (nse_cache st);
                  nse_world := w; nse_fetches := S (nse_fetches st) |})
          end
      end
  end.

End NsePayload.

Lemma nse_cache_key_date (symbol e : string) (dt : Strp.date) :
  parse_nse_expiry e = Ok (Some dt) ->
  nse_cache_key symbol (Some e) = Ok (symbol ++ ":" ++ format_nse_expiry dt).
Proof.
  intros He. unfold nse_cache_key, normalize_nse_expiry.
  destruct (String.eqb e "") eqn:Ee.
  - apply String.eqb_eq in Ee as ->. discriminate He.
  - now rewrite He.
Qed.

(** Two expiries that read as the same date have the same entry of the
    cache, however they are written: after a call that fetched a payload
    for the one, a call for the other that is not forced and comes within
    the TTL returns that payload, be it empty, without a fetch.  A forced
    call fetches whenever the key can be built.  An expiry of figures that
    name no date raises [ValueError] before any fetch.  A call that raises
    leaves the cache as it was.  A call that is forced, or finds no entry
    under its key, or one as old as the TTL, asks
    [fetch_nse_option_chain_raw] once, on the world as it is: it returns
    the payload of the fetch and stores it under the key with the time of
    the call, or raises what the fetch raises. *)
Theorem nse_payload_cache (world : Type)
    (fetch : string -> option string -> world -> result value * world)
    (ttl : Z) (symbol : string) (now : float) (st : nse_state world) :
  (forall e1 e2 dt payload st1 now',
     parse_nse_expiry e1 = Ok (Some dt) ->
     parse_nse_expiry e2 = Ok (Some dt) ->
     get_nse_payload world fetch ttl symbol (Some e1) true now st
     = (Ok payload, st1) ->
     Py.float_lt_int (F.sub now' now) ttl = true ->
     get_nse_payload world fetch ttl symbol (Some e2) false now' st1
     = (Ok payload, st1)) /\
  (forall expiry key,
     nse_cache_key symbol expiry = Ok key ->
     nse_fetches world (get_nse_payload world fetch ttl symbol expiry true now st).2
     = S (nse_fetches world st)) /\
  (forall d m y force,
     0 <= d < 100 -> 0 <= m < 100 -> 0 <= y <= 9999 ->
     Strp.valid y m d = false ->
     get_nse_payload world fetch ttl symbol (Some (numeric_text d m y)) force
       now st
     = (Raise ValueError, st)) /\
  (forall expiry force e st1,
     get_nse_payload world fetch ttl symbol expiry force now st = (Raise e, st1) ->
     nse_cache world st1 = nse_cache world st) /\
  (forall expiry force key r w,
     nse_cache_key symbol expiry = Ok key ->
     force = true \/ nse_cache world st !! key = None \/
     (exists c, nse_cache world st !! key = Some c /\
                Py.float_lt_int (F.sub now (nc_fetched_at c)) ttl = false) ->
     fetch symbol expiry (nse_world world st) = (r, w) ->
     get_nse_payload world fetch ttl symbol expiry force now st
     = match r with
       | Ok payload =>
           (Ok payload,
            {| nse_cache :=
                 <[key := {| nc_payload := payload; nc_fetched_at := now |}]>
                   (nse_cache world st);
               nse_world := w; nse_fetches := S (nse_fetches world st) |})
       | Raise e =>
           (Raise e, {| nse_cache := nse_cache world st; nse_world := w;
                        nse_fetches := S (nse_fetches world st) |})
       end).
Proof.
  split; [|split; [|split; [|split]]].
  - intros e1 e2 dt payload st1 now' H1 H2 Hcall Hnow.
    unfold get_nse_payload in *.
    rewrite (nse_cache_key_date symbol e1 dt H1) in Hcall.
    rewrite (nse_cache_key_date symbol e2 dt H2).
    cbn [negb andb] in Hcall.
    destruct (fetch symbol (Some e1) (nse_world world st)) as [[p|e] w];
      [|discriminate].
    injection Hcall as <- <-. cbn [nse_cache].
    rewrite lookup_insert_eq. cbn [negb andb nc_fetched_at nc_payload].
    now rewrite Hnow.
  - intros expiry key Hkey. unfold get_nse_payload. rewrite Hkey.
    cbn [negb andb].
    now destruct (fetch symbol expiry (nse_world world st)) as [[p|e] w].
  - intros d m y force Hd Hm Hy Hv. unfold get_nse_payload, nse_cache_key.
    change (String.eqb (numeric_text d m y) "") with false. cbv iota.
    unfold normalize_nse_expiry.
    change (String.eqb (numeric_text d m y) "") with false. cbv iota.
    rewrite parse_numeric by assumption. unfold Strp.make_date. now rewrite Hv.
  - intros expiry force e st1. unfold get_nse_payload.
    destruct (nse_cache_key symbol expiry) as [key|e']; [|now intros [= <- <-]].
    cbv zeta.
    destruct (negb force && _) eqn:Eh;
      destruct (nse_cache world st !! key) as [c|]; try discriminate;
      destruct (fetch symbol expiry (nse_world world st)) as [[p|e''] w];
      try discriminate; now intros [= <- <-].
  - intros expiry force key r w Hkey Hmiss Hf. unfold get_nse_payload.
    rewrite Hkey. cbv zeta.
    assert (negb force
            && match nse_cache world st !! key with
               | Some c => Py.float_lt_int (F.sub now (nc_fetched_at c)) ttl
               | None => false
               end = false) as ->.
    { destruct Hmiss as [-> | [-> | (c & -> & ->)]];
        [reflexivity | apply andb_false_r | apply andb_false_r]. }
    rewrite Hf. now destruct (nse_cache world st !! key), r.
Qed.

(** A source that answers with an empty payload, and an empty cache. *)
Definition empty_payload_source (symbol : string) (expiry : option string)
    (w : unit) : result value * unit :=
  (Ok (VDict ∅), w).

Definition empty_nse_state : nse_state unit :=
  {| nse_cache := ∅; nse_world := tt; nse_fetches := 0 |}.

Definition nse_state_after_fetch : nse_state unit :=
  {| nse_cache :=
       {[ "NIFTY" ++ ":" ++ format_nse_expiry date_2024_01_25 :=
            {| nc_payload := VDict ∅;
               nc_fetched_at := F.of_Z 1700000000 |} ]};
     nse_world := tt; nse_fetches := 1 |}.

Lemma nse_payload_first_call :
  get_nse_payload unit empty_payload_source 600 "NIFTY" (Some "25-01-2024")
    true (F.of_Z 1700000000) empty_nse_state
  = (Ok (VDict ∅), nse_state_after_fetch).
Proof.
  unfold get_nse_payload.
  rewrite (nse_cache_key_date "NIFTY" "25-01-2024" date_2024_01_25)
    by (vm_compute; reflexivity).
  reflexivity.
Qed.

Lemma nse_payload_cache_witness :
  get_nse_payload unit empty_payload_source 600 "NIFTY" (Some "25-jan-2024")
    false (F.of_Z 1700000001) nse_state_after_fetch
  = (Ok (VDict ∅), nse_state_after_fetch).
Proof.
  apply (proj1 (nse_payload_cache unit empty_payload_source 600 "NIFTY"
                  (F.of_Z 1700000000) empty_nse_state)
           "25-01-2024" "25-jan-2024" date_2024_01_25 (VDict ∅)
           nse_state_after_fetch (F.of_Z 1700000001)).
  - vm_compute. reflexivity.
  - vm_compute. reflexivity.
  - exact nse_payload_first_call.
  - vm_compute. reflexivity.
Defined.

(** ** The option chain built from the market watch *)

(** [entry = chain.setdefault(k, dflt)] followed by the writes [f] into the
    entry, on the items of [chain] in insertion order.  A key is found by
    [==]; a NaN is taken as a new key each time. *)
Fixpoint chain_update (k : float) (dflt : row) (f : row -> row)
    (chain : list (float * row)) : list (float * row) :=
  match chain with
  | [] => [(k, f dflt)]
  | (k', e) :: rest =>
      if F.eqb k' k then (k', f e) :: rest
      else (k', e) :: chain_update k dflt f rest
  end.

(** The writes of one leg into the entry of its strike. *)
Definition leg_fields (prefix : string) (item entry : row) : row :=
  let underlying_val :=
    PyDict.get_or item "UnderlineValue"
      (PyDict.get_or item "UnderlyingValue" (VStr "")) in
  let entry :=
    match underlying_val with
    | VNone => entry
    | VStr s =>
        if String.eqb s "" then entry
        else <["UnderlyingValue" := underlying_val]> entry
    | _ => <["UnderlyingValue" := underlying_val]> entry
    end in
  let entry := <[prefix ++ "OpenInterest" := PyDict.get_or item "OpenInterest" (VStr "")]> entry in
  let entry :=
    <[prefix ++ "ChangeInOI" :=
        PyDict.get_or item "ChangeInOI"
          (PyDict.get_or item "ChangeInOpenInterest" (VStr ""))]> entry in
  let entry := <[prefix ++ "Volume" := PyDict.get_or item "Volume" (VStr "")]> entry in
  let entry := <[prefix ++ "AbsoluteChange" := PyDict.get_or item "AbsoluteChange" (VStr "")]> entry in
  let entry := <[prefix ++ "BidQty" := PyDict.get_or item "BuyQuantity" (VStr "")]> entry in
  let entry := <[prefix ++ "BidPrice" := PyDict.get_or item "BuyPrice" (VStr "")]> entry in
  let entry := <[prefix ++ "AskPrice" := PyDict.get_or item "SellPrice" (VStr "")]> entry in
  let entry := <[prefix ++ "AskQty" := PyDict.get_or item "SellQuantity" (VStr "")]> entry in
  <[prefix ++ "LTP" := PyDict.get_or item "LTP" (VStr "")]> entry.

Section MarketWatchChain.

(** [str(v)] of a value that is not a string. *)
Variable str_other : value -> string.

(** One turn of the loop; [symbol] is the symbol in capitals without white
    space around it, [expiry] is [expiry or None]. *)
Definition mw_chain_step (symbol : string) (expiry : option string)
    (chain : list (float * row)) (item : value)
    : result (list (float * row)) :=
  match item with
  | VDict d =>
      if negb (str_eq (dict_get d "Symbol") symbol)
         && negb (str_eq (dict_get d "ProductCode") symbol)
      then Ok chain
      else if match expiry with
              | Some e =>
                  negb (String.eqb e "")
                  && negb (String.eqb (py_str str_other (dict_get d "ExpiryDate")) e)
              | None => false
              end
      then Ok chain
      else
        let! opt_type :=
          upper_method (PyDict.or_else (dict_get d "OptionType") (VStr "")) in
        if negb (String.eqb opt_type "CE" || String.eqb opt_type "PE")
        then Ok chain
        else
          let strike := dict_get d "StrikePrice" in
          match strike with
          | VNone => Ok chain
          | _ =>
              match Py.float strike with
              | Raise TypeError | Raise ValueError => Ok chain
              | Raise e => Raise e
              | Ok strike_key =>
                  let prefix := if String.eqb opt_type "CE" then "CE_" else "PE_" in
                  Ok (chain_update strike_key {[ "CE_StrikePrice" := strike ]}
                        (leg_fields prefix d) chain)
              end
          end
  | _ => Ok chain
  end.

(** [fetch_mcx_option_chain_from_marketwatch], from the rows that
    [get_marketwatch_rows] returns. *)
Definition fetch_mcx_option_chain_from_marketwatch (symbol : string)
    (expiry : option string) (rows : list value) : result (list row) :=
  let! chain := fold_result (mw_chain_step symbol expiry) [] rows in
  Ok (Py.isort chain).*2.

End MarketWatchChain.

(** *** The keys of the chain *)





Lemma eqb_sym (x y : float) : F.eqb x y = F.eqb y x.
Proof.
  destruct (F.is_nan x) eqn:Hx; [now destruct x, y|].
  destruct (F.is_nan y) eqn:Hy; [now destruct x, y|].
  rewrite !FOrder.eqb_not_ltb by assumption. apply andb_comm.
Qed.




(** *** What the chain holds *)

Section MarketWatchChainFacts.

Variable str_other : value -> string.





End MarketWatchChainFacts.




(** The legs of two strikes of GOLD, the later strike first, and a leg
    of another symbol. *)
Definition mw_chain_rows : list value :=
  [ VDict {[ "Symbol" := VStr "GOLD"; "OptionType" := VStr "CE";
             "StrikePrice" := VInt 72000; "LTP" := VInt 105 ]};
    VDict {[ "Symbol" := VStr "GOLD"; "OptionType" := VStr "pe";
             "StrikePrice" := VStr "71000"; "LTP" := VInt 90 ]};
    VDict {[ "Symbol" := VStr "SILVER"; "OptionType" := VStr "CE";
             "StrikePrice" := VInt 90000 ]};
    VDict {[ "Symbol" := VStr "GOLD"; "OptionType" := VStr "PE";
             "StrikePrice" := VFloat (F.of_Z 72000); "LTP" := VInt 80 ]} ].




(** The two legs of the strike 72000 share a row. *)
Example mw_chain_example_rows :
  match fetch_mcx_option_chain_from_marketwatch str_none "GOLD" None
          mw_chain_rows with
  | Ok out => length out
  | Raise _ => 0%nat
  end = 2%nat.
Proof. vm_compute. reflexivity. Qed.
